(** * Territory resolution and postal address normalisation

    A shallow embedding of [postal_address/territory.py] and [address.py].

    The ISO 3166 reference data is not part of the repository: it is served
    by the [pycountry] collaborator.  It appears here as a value [db] of type
    [Database] that every function depending on it takes as its first
    argument.  Strings are sequences of 8-bit characters; the string methods
    [strip] and [upper] are modelled on the ASCII range, which is the range
    of territory codes. *)

From Stdlib Require Import List String Ascii Bool Arith Lia Permutation.
Import ListNotations.
Open Scope string_scope.
Open Scope list_scope.

Set Implicit Arguments.

(* ================================================================== *)
(** ** Python strings *)

Module Str.

(** Whitespace recognised by [str.strip()] in the ASCII range:
    TAB, LF, VT, FF, CR, FS, GS, RS, US and SPACE. *)
Definition is_space (a : ascii) : bool :=
  let n := nat_of_ascii a in
  (((9 <=? n) && (n <=? 13)) || ((28 <=? n) && (n <=? 32)))%nat.

Definition upper_char (a : ascii) : ascii :=
  let n := nat_of_ascii a in
  if ((97 <=? n) && (n <=? 122))%nat then ascii_of_nat (n - 32) else a.

Definition lower_char (a : ascii) : ascii :=
  let n := nat_of_ascii a in
  if ((65 <=? n) && (n <=? 90))%nat then ascii_of_nat (n + 32) else a.

Definition is_alnum (a : ascii) : bool :=
  let n := nat_of_ascii a in
  (((48 <=? n) && (n <=? 57)) || ((65 <=? n) && (n <=? 90))
   || ((97 <=? n) && (n <=? 122)))%nat.

Fixpoint map (f : ascii -> ascii) (s : string) : string :=
  match s with
  | EmptyString => EmptyString
  | String a t => String (f a) (map f t)
  end.

(** [s.upper()] and [s.lower()]. *)
Definition upper (s : string) : string := map upper_char s.
Definition lower (s : string) : string := map lower_char s.

Fixpoint lstrip (s : string) : string :=
  match s with
  | EmptyString => EmptyString
  | String a t => if is_space a then lstrip t else s
  end.

Fixpoint rstrip (s : string) : string :=
  match s with
  | EmptyString => EmptyString
  | String a t =>
      match rstrip t with
      | EmptyString => if is_space a then EmptyString else String a EmptyString
      | r => String a r
      end
  end.

(** [s.strip()]. *)
Definition strip (s : string) : string := rstrip (lstrip s).

(** Truth value of a string: [bool(s)]. *)
Definition truthy (s : string) : bool :=
  match s with EmptyString => false | _ => true end.

(** [sep.join(parts)]. *)
Fixpoint join (sep : string) (parts : list string) : string :=
  match parts with
  | [] => EmptyString
  | [p] => p
  | p :: rest => p ++ sep ++ join sep rest
  end.

(** [s.split(sep)] for a one-character separator. *)
Fixpoint split_on (sep : ascii) (cur : string) (s : string) : list string :=
  match s with
  | EmptyString => [cur]
  | String a t =>
      if Ascii.eqb a sep then cur :: split_on sep EmptyString t
      else split_on sep (cur ++ String a EmptyString) t
  end.

Definition split (sep : ascii) (s : string) : list string :=
  split_on sep EmptyString s.

(** [s.replace(a, b)] for one-character [a] and [b]. *)
Definition replace (a b : ascii) (s : string) : string :=
  map (fun c => if Ascii.eqb c a then b else c) s.

Fixpoint contains (a : ascii) (s : string) : bool :=
  match s with
  | EmptyString => false
  | String c t => Ascii.eqb c a || contains a t
  end.

End Str.

(** [x in xs] for a collection of strings. *)
Definition mem (x : string) (xs : list string) : bool :=
  existsb (String.eqb x) xs.

(** [xs.add(x)] and [xs.update(ys)] on a set of strings, kept without
    repetition. *)
Definition set_add (x : string) (xs : list string) : list string :=
  if mem x xs then xs else xs ++ [x].

Definition set_update (xs ys : list string) : list string :=
  fold_left (fun acc y => set_add y acc) ys xs.

(* ================================================================== *)
(** ** Dictionaries with string keys *)

Section Dict.
Variable V : Type.

Definition dict := list (string * V).

(** [d.get(k)], [None] when the key is absent. *)
Fixpoint get (d : dict) (k : string) : option V :=
  match d with
  | [] => None
  | (k', v) :: rest => if String.eqb k k' then Some v else get rest k
  end.

Definition keys (d : dict) : list string := List.map fst d.
Definition values (d : dict) : list V := List.map snd d.

(** [d[k] = v]: the value is replaced in place when the key exists, the
    item is appended otherwise. *)
Fixpoint set_item (d : dict) (k : string) (v : V) : dict :=
  match d with
  | [] => [(k, v)]
  | (k', v') :: rest =>
      if String.eqb k k' then (k', v) :: rest
      else (k', v') :: set_item rest k v
  end.

(** [d.update(e)]. *)
Definition update (d e : dict) : dict :=
  fold_left (fun acc kv => set_item acc (fst kv) (snd kv)) e d.

End Dict.

(** [d.get(k, default)]. *)
Definition get_default (d : dict string) (k default : string) : string :=
  match get d k with Some v => v | None => default end.

(* ================================================================== *)
(** ** The territory database ([pycountry.countries], [pycountry.subdivisions]) *)

Record Country : Type := mkCountry {
  alpha_2 : string;
  country_name : string
}.

(** [parent_code] is the empty string for a top-level subdivision. *)
Record Subdivision : Type := mkSubdivision {
  code : string;
  name : string;
  type : string;
  parent_code : string;
  country_code : string
}.

Record Database : Type := mkDatabase {
  countries : list Country;
  subdivisions : list Subdivision
}.

(** A value held by an address component: a string, or the subdivision
    object stored under the type identifier of a subdivision.  Python's
    [None] is the [None] of [option value]. *)
Inductive value : Type :=
| VStr (s : string)
| VSub (s : Subdivision).

(* ================================================================== *)
(** ** Exceptions *)

(** One constructor per [raise] site of the two modules.  The
    [ValueError]s of the sources are told apart by their message, and named
    after the condition they report. *)
Inductive error : Type :=
| UnrecognizedTerritory (c : string)
    (* ValueError('Unrecognized {!r} territory code.') *)
| InvalidSubdivisionCode (v : value)
    (* ValueError("Invalid {!r} subdivision code.") *)
| InvalidCountryCode (v : value)
    (* ValueError("Invalid {!r} country code.") *)
| CountrySubdivisionMismatch (country_value subdivision_value : value)
    (* ValueError("{!r} country is not a parent {!r} subdivision.") *)
| MissingRequiredField (field : string)
    (* ValueError("Address requires {}.") *)
| ConflictingTerritoryMetadata
    (subdivision_value : option value) (component_id : string)
    (current_value new_value : value)
    (* ValueError("{} subdivision is trying to replace {}={!r} field by
       {}={!r}") *)
| UnknownComponent
    (* KeyError("{!r} components are not allowed to be set freely.") *)
| KeyError (key : string)
    (* a failed lookup in the territory database *)
| AttributeError
    (* a string method called on a value that is not a string *)
| AssertionError.

Inductive result (A : Type) : Type :=
| Ok (a : A)
| Raise (e : error).
Arguments Ok {A} a.
Arguments Raise {A} e.

Definition bind {A B} (r : result A) (k : A -> result B) : result B :=
  match r with Ok a => k a | Raise e => Raise e end.

(** Loops and recursions whose depth depends on the database run on fuel:
    [None] means that the computation did not finish within the fuel. *)
Definition fbind {A B} (r : option (result A)) (k : A -> option (result B))
  : option (result B) :=
  match r with
  | None => None
  | Some (Raise e) => Some (Raise e)
  | Some (Ok a) => k a
  end.

Declare Scope py_scope.
Notation "x <- r ;; k" := (bind r (fun x => k))
  (at level 61, r at next level, right associativity) : py_scope.
Notation "x <~ r ;; k" := (fbind r (fun x => k))
  (at level 61, r at next level, right associativity) : py_scope.
Open Scope py_scope.

Section Lookup.
Variable db : Database.

(** [countries.get(alpha_2=c)]. *)
Definition countries_get (c : string) : result Country :=
  match find (fun k => String.eqb (alpha_2 k) c) (countries db) with
  | Some k => Ok k
  | None => Raise (KeyError c)
  end.

(** [subdivisions.get(code=c)]. *)
Definition subdivisions_get (c : string) : result Subdivision :=
  match find (fun s => String.eqb (code s) c) (subdivisions db) with
  | Some s => Ok s
  | None => Raise (KeyError c)
  end.

(** [subdiv.country], a property that looks the country up. *)
Definition country (s : Subdivision) : result Country :=
  countries_get (country_code s).

End Lookup.

(** A territory entity, as the hierarchy functions return them. *)
Inductive territory : Type :=
| TCountry (c : Country)
| TSubdivision (s : Subdivision).

(* ================================================================== *)
(** ** [postal_address/territory.py] *)

Module Territory.

Definition FOREIGN_TERRITORIES_MAPPING : dict string :=
  [ ("CC", "AU"); ("HM", "AU"); ("JE", "BR"); ("HK", "CN"); ("MO", "CN");
    ("FO", "DK"); ("AX", "FI"); ("AQ", "FR"); ("BL", "FR"); ("GF", "FR");
    ("GP", "FR"); ("GY", "FR"); ("MF", "FR"); ("MQ", "FR"); ("NC", "FR");
    ("PF", "FR"); ("PM", "FR"); ("RE", "FR"); ("TF", "FR"); ("WF", "FR");
    ("YT", "FR"); ("GI", "GB"); ("IM", "GB"); ("IO", "GB"); ("PN", "GB");
    ("SH", "GB"); ("VG", "GB"); ("BQ", "NL"); ("SX", "NL"); ("BV", "NO");
    ("SJ", "NO"); ("AS", "US"); ("GU", "US"); ("MP", "US"); ("VI", "US") ].

Definition COUNTRY_ALIASES : dict string :=
  [ ("UK", "GB"); ("EL", "GR") ].

Definition SUBDIVISION_COUNTRIES : dict string :=
  [ ("CN-71", "TW"); ("CN-91", "HK"); ("CN-92", "MO"); ("FI-01", "AX");
    ("FR-BL", "BL"); ("FR-GF", "GF"); ("FR-GP", "GP"); ("FR-MF", "MF");
    ("FR-MQ", "MQ"); ("FR-NC", "NC"); ("FR-PF", "PF"); ("FR-PM", "PM");
    ("FR-RE", "RE"); ("FR-TF", "TF"); ("FR-WF", "WF"); ("FR-YT", "YT");
    ("NL-AW", "AW"); ("NL-CW", "CW"); ("NL-SX", "SX"); ("NO-21", "SJ");
    ("NO-22", "SJ"); ("US-AS", "AS"); ("US-GU", "GU"); ("US-MP", "MP");
    ("US-PR", "PR"); ("US-UM", "UM"); ("US-VI", "VI") ].

Definition SUBDIVISION_ALIASES : dict string :=
  [ ("NL-BQ1", "BQ-BO"); ("NL-BQ2", "BQ-SA"); ("NL-BQ3", "BQ-SE") ].

Definition FOREIGN_TERRITORIES_ALIAS_TO_COUNTRY : dict string :=
  [ ("DG", "IO"); ("FX", "FR"); ("EA", "ES") ].

Definition COUNTRY_ALIAS_TO_SUBDIVISION : dict string :=
  [ ("AC", "SH-AC"); ("CP", "FR-CP"); ("IC", "ES-CN"); ("TA", "SH-TA") ].

(** [index.setdefault(k, set()).add(x)]. *)
Definition setdefault_add (index : dict (list string)) (k x : string)
  : dict (list string) :=
  match get index k with
  | Some xs => set_item index k (set_add x xs)
  | None => set_item index k [x]
  end.

(** The reverse index of the alias tables: the first loop files each alias
    under its target, the second files each target under its alias. *)
Definition REVERSE_MAPPING : dict (list string) :=
  let reversed :=
    fold_left
      (fun index reverse_mapping =>
         fold_left (fun index item => setdefault_add index (snd item) (fst item))
                   reverse_mapping index)
      [SUBDIVISION_COUNTRIES] [] in
  fold_left
    (fun index straight_mapping =>
       fold_left (fun index item => setdefault_add index (fst item) (snd item))
                 straight_mapping index)
    [FOREIGN_TERRITORIES_ALIAS_TO_COUNTRY; COUNTRY_ALIASES;
     SUBDIVISION_ALIASES; FOREIGN_TERRITORIES_MAPPING]
    reversed.

Section WithDatabase.
Variable db : Database.

Definition supported_country_codes : list string :=
  List.map alpha_2 (countries db)
  ++ keys COUNTRY_ALIASES
  ++ keys FOREIGN_TERRITORIES_ALIAS_TO_COUNTRY
  ++ keys COUNTRY_ALIAS_TO_SUBDIVISION.

Definition supported_subdivision_codes : list string :=
  List.map code (subdivisions db).

Definition supported_territory_codes : list string :=
  supported_country_codes ++ supported_subdivision_codes.

Definition territory_attachment (country_code : string) : string :=
  get_default FOREIGN_TERRITORIES_MAPPING country_code country_code.

Definition normalize_territory_code
  (territory_code : string) (resolve_aliases resole_foreign_territory : bool)
  : result string :=
  let territory_code := Str.upper (Str.strip territory_code) in
  if negb (mem territory_code supported_territory_codes)
  then Raise (UnrecognizedTerritory territory_code)
  else
    let territory_code :=
      get_default FOREIGN_TERRITORIES_ALIAS_TO_COUNTRY
                  territory_code territory_code in
    let territory_code :=
      get_default COUNTRY_ALIASES territory_code territory_code in
    let territory_code :=
      if resolve_aliases then
        let territory_code :=
          get_default SUBDIVISION_ALIASES territory_code territory_code in
        get_default SUBDIVISION_COUNTRIES territory_code territory_code
      else territory_code in
    let territory_code :=
      if resole_foreign_territory then territory_attachment territory_code
      else territory_code in
    Ok territory_code.

(** [None] is Python's [None]. *)
Definition country_from_subdivision (subdivision_code : string)
  : option string :=
  let code := get_default SUBDIVISION_COUNTRIES
                          subdivision_code subdivision_code in
  if mem code supported_country_codes then Some code
  else
    match subdivisions_get db code with
    | Raise _ => None
    | Ok subdiv => Some (country_code subdiv)
    end.

End WithDatabase.

(** [xs.pop()] on a set that holds one element. *)
Definition pop (xs : list string) : option string := hd_error xs.

Definition default_subdivision_code (country_code : string) : option string :=
  let default_subdiv :=
    fold_left
      (fun index item =>
         let '(subdiv_code, alias_code) := item in
         if Nat.eqb (String.length alias_code) 2
         then setdefault_add index alias_code subdiv_code
         else index)
      SUBDIVISION_COUNTRIES [] in
  let default_subdiv :=
    fold_left
      (fun index item =>
         let '(alias_code, subdiv_code) := item in
         setdefault_add index alias_code subdiv_code)
      COUNTRY_ALIAS_TO_SUBDIVISION default_subdiv in
  match get default_subdiv country_code with
  | Some default_subdivisions =>
      if negb (Nat.eqb (List.length default_subdivisions) 0)
         && Nat.eqb (List.length default_subdivisions) 1
      then pop default_subdivisions
      else None
  | None => None
  end.

Section Hierarchy.
Variable db : Database.

(** The result is a set of codes.  Every call consumes one unit of fuel. *)
Fixpoint territory_children_codes
  (fuel : nat) (territory_code : string) (include_self : bool)
  : option (result (list string)) :=
  match fuel with
  | O => None
  | S fuel =>
      code' <~ Some (normalize_territory_code db territory_code true false) ;;
      codes <~
        (if mem code' (supported_country_codes db) then
           Some (Ok (set_update []
                       (List.map code
                          (filter (fun subdiv =>
                                     String.eqb (country_code subdiv) code')
                                  (subdivisions db)))))
         else
           let direct_children_codes :=
             set_update []
               (List.map code
                  (filter (fun subdiv =>
                             String.eqb (parent_code subdiv) code')
                          (subdivisions db))) in
           fold_left
             (fun acc child_code =>
                codes <~ acc ;;
                sub <~ territory_children_codes fuel child_code true ;;
                Some (Ok (set_update codes sub)))
             direct_children_codes (Some (Ok []))) ;;
      Some (Ok (if include_self then set_add code' codes else codes))
  end.

(** The [while] loop of [territory_parents]: it returns the tree and the
    value of [subdivision_code] when the loop is left. *)
Fixpoint parents_loop
  (fuel : nat) (subdivision_code : string) (tree : list territory)
  : option (result (list territory * string)) :=
  if negb (Str.truthy subdivision_code) then Some (Ok (tree, subdivision_code))
  else
    match fuel with
    | O => None
    | S fuel =>
        subdiv <~ Some (subdivisions_get db subdivision_code) ;;
        let tree := tree ++ [TSubdivision subdiv] in
        if negb (Str.truthy (parent_code subdiv))
        then Some (Ok (tree, subdivision_code))
        else parents_loop fuel (parent_code subdiv) tree
    end.

Definition territory_parents
  (fuel : nat) (territory_code : string) (include_country : bool)
  : option (result (list territory)) :=
  territory_code <~
    Some (normalize_territory_code db territory_code true false) ;;
  if mem territory_code (supported_country_codes db) then
    if include_country then
      c <~ Some (countries_get db territory_code) ;;
      Some (Ok [TCountry c])
    else Some (Ok [])
  else
    walked <~ parents_loop fuel territory_code [] ;;
    let '(tree, subdivision_code) := walked in
    if include_country then
      subdiv <~ Some (subdivisions_get db subdivision_code) ;;
      c <~ Some (country db subdiv) ;;
      Some (Ok (tree ++ [TCountry c]))
    else Some (Ok tree).

(** The code that [territory_parents_codes] yields for an entity. *)
Definition territory_code_of (t : territory) : string :=
  match t with
  | TCountry c => alpha_2 c
  | TSubdivision s => code s
  end.

Definition territory_parents_codes
  (fuel : nat) (territory_code : string) (include_country : bool)
  : option (result (list string)) :=
  tree <~ territory_parents fuel territory_code include_country ;;
  Some (Ok (List.map territory_code_of tree)).

(** The result is a set of country codes.  Every call consumes one unit of
    fuel. *)
Fixpoint country_aliases (fuel : nat) (territory_code : string)
  : option (result (list string)) :=
  match fuel with
  | O => None
  | S fuel =>
      country_codes <~
        (if mem territory_code (supported_country_codes db) then
           Some (Ok [territory_code])
         else
           subdiv <~ Some (subdivisions_get db territory_code) ;;
           parent_code <~
             (if negb (Str.truthy (parent_code subdiv))
              then Some (c <- country db subdiv ;; Ok (alpha_2 c))
              else Some (Ok (parent_code subdiv))) ;;
           aliases <~ country_aliases fuel parent_code ;;
           let country_codes := set_update [] aliases in
           Some (Ok
             (match get SUBDIVISION_COUNTRIES territory_code with
              | Some target => set_update country_codes [target]
              | None => country_codes
              end))) ;;
      fold_left
        (fun acc mapped_code =>
           country_codes <~ acc ;;
           aliases <~ country_aliases fuel mapped_code ;;
           Some (Ok (set_update country_codes aliases)))
        (match get REVERSE_MAPPING territory_code with
         | Some mapped => mapped
         | None => []
         end)
        (Some (Ok country_codes))
  end.

End Hierarchy.

End Territory.

(* ================================================================== *)
(** ** The [slugify] collaborator *)

(** Model of the external [slugify(text, to_lower=True)] on ASCII text: the
    maximal runs of letters and digits, lower-cased and joined by a dash. *)
Fixpoint slug_words (cur : string) (s : string) : list string :=
  match s with
  | EmptyString => match cur with EmptyString => [] | _ => [cur] end
  | String a t =>
      if Str.is_alnum a then slug_words (cur ++ String a EmptyString) t
      else match cur with
           | EmptyString => slug_words EmptyString t
           | _ => cur :: slug_words EmptyString t
           end
  end.

Definition slugify (text : string) : string :=
  Str.lower (Str.join "-" (slug_words EmptyString text)).

(* ================================================================== *)
(** ** [address.py] *)

Module Address.

Definition BASE_COMPONENT_IDS : list string :=
  [ "line1"; "line2"; "postal_code"; "city_name"; "country_code";
    "subdivision_code" ].

Definition SUBDIVISION_METADATA_WHITELIST : list string := [ "city_name" ].

Definition REQUIRED_FIELDS : list string :=
  [ "line1"; "postal_code"; "city_name"; "country_code" ].

(** [self._components]: component identifier to value, [None] for a
    component that is not set. *)
Definition components := dict (option value).

(** Truth value of a component. *)
Definition truthy (v : option value) : bool :=
  match v with
  | None => false
  | Some (VStr s) => Str.truthy s
  | Some (VSub _) => true
  end.

Definition subdivision_eqb (a b : Subdivision) : bool :=
  String.eqb (code a) (code b) && String.eqb (name a) (name b)
  && String.eqb (type a) (type b)
  && String.eqb (parent_code a) (parent_code b)
  && String.eqb (country_code a) (country_code b).

(** [a == b] on component values. *)
Definition value_eqb (a b : value) : bool :=
  match a, b with
  | VStr x, VStr y => String.eqb x y
  | VSub x, VSub y => subdivision_eqb x y
  | _, _ => false
  end.

(** [self.<name>] for a base component: [__getattr__] reads the map. *)
Definition getattr (self : components) (name : string) : option value :=
  match get self name with
  | Some v => v
  | None => None
  end.

(** [self.<name> = v] for a base component: [__setattr__] writes the map. *)
Definition setattr (self : components) (name : string) (v : option value)
  : components :=
  set_item self name v.

(** [del self[key]]. *)
Definition delitem (self : components) (key : string) : components :=
  if mem key BASE_COMPONENT_IDS then set_item self key None
  else filter (fun item => negb (String.eqb (fst item) key)) self.

Definition SUBDIVISION_COUNTRY_OVERLAPS : dict string :=
  [ ("CN-71", "TW"); ("CN-91", "HK"); ("CN-92", "MO"); ("FI-01", "AX");
    ("FR-BL", "BL"); ("FR-GF", "GF"); ("FR-GP", "GP"); ("FR-MF", "MF");
    ("FR-MQ", "MQ"); ("FR-NC", "NC"); ("FR-PF", "PF"); ("FR-PM", "PM");
    ("FR-RE", "RE"); ("FR-TF", "TF"); ("FR-WF", "WF"); ("FR-YT", "YT");
    ("NL-AW", "AW"); ("NL-BQ1", "BQ"); ("NL-BQ2", "BQ"); ("NL-BQ3", "BQ");
    ("NL-CW", "CW"); ("NL-SX", "SX"); ("NO-21", "SJ"); ("NO-22", "SJ");
    ("US-AS", "AS"); ("US-GU", "GU"); ("US-MP", "MP"); ("US-PR", "PR");
    ("US-UM", "UM"); ("US-VI", "VI") ].

(** [index.setdefault(v, []).append(k)]. *)
Definition setdefault_append (index : dict (list string)) (v k : string)
  : dict (list string) :=
  match get index v with
  | Some ks => set_item index v (ks ++ [k])
  | None => set_item index v [k]
  end.

Definition DEFAULT_SUBDIVISIONS : dict (list string) :=
  fold_left (fun index item => setdefault_append index (snd item) (fst item))
            SUBDIVISION_COUNTRY_OVERLAPS [].

Definition default_subdivision_code (country_code : string) : option string :=
  match get DEFAULT_SUBDIVISIONS country_code with
  | Some default_subdivisions =>
      if negb (Nat.eqb (List.length default_subdivisions) 0)
         && Nat.eqb (List.length default_subdivisions) 1
      then nth_error default_subdivisions 0
      else None
  | None => None
  end.

(** Normalize subdivision type name into a Python-friendly ID. *)
Definition subdivision_type_id (subdivision : Subdivision) : string :=
  let type_id := Str.replace "-" "_" (slugify (type subdivision)) in
  if existsb (fun word => mem word (Str.split "_" type_id))
             [ "city"; "municipality" ]
  then "city"
  else type_id.

(** [set(xs).issubset(ys)]. *)
Definition issubset (xs ys : list string) : bool :=
  forallb (fun x => mem x ys) xs.

(** [set(xs).difference(ys)]. *)
Definition difference (xs ys : list string) : list string :=
  filter (fun x => negb (mem x ys)) xs.

Definition subdivision_metadata (subdivision : Subdivision)
  : result (dict value) :=
  let subdiv_type_id := subdivision_type_id subdivision in
  let metadata : dict value :=
    update []
      [ (subdiv_type_id, VSub subdivision);
        ((subdiv_type_id ++ "_code")%string, VStr (code subdivision));
        ((subdiv_type_id ++ "_name")%string, VStr (name subdivision));
        ((subdiv_type_id ++ "_type_name")%string, VStr (type subdivision)) ] in
  if negb (negb (issubset
                   (difference (keys metadata) SUBDIVISION_METADATA_WHITELIST)
                   BASE_COMPONENT_IDS))
  then Raise AssertionError
  else Ok metadata.

Section WithDatabase.
Variable db : Database.

(** [subdivisions.get(code=v)] for a component value: an object is the code
    of no subdivision. *)
Definition subdivisions_get_value (v : value) : result Subdivision :=
  match v with
  | VStr c => subdivisions_get db c
  | VSub _ => Raise (KeyError "")
  end.

(** [subdivisions.get(code=self.subdivision_code)]. *)
Definition subdivisions_get_attr (v : option value) : result Subdivision :=
  match v with
  | Some v => subdivisions_get_value v
  | None => Raise (KeyError "")
  end.

(** [countries.get(alpha2=v)] for a component value. *)
Definition countries_get_value (v : value) : result Country :=
  match v with
  | VStr c => countries_get db c
  | VSub _ => Raise (KeyError "")
  end.

(** The second argument of [dict.get] is evaluated before the call, so the
    database is consulted, and may raise, whatever the table holds. *)
Definition normalize_country_code (subdivision_code : value) : result value :=
  subdiv <- subdivisions_get_value subdivision_code ;;
  Ok (match subdivision_code with
      | VStr c =>
          VStr (get_default SUBDIVISION_COUNTRY_OVERLAPS c
                            (country_code subdiv))
      | VSub _ => VStr (country_code subdiv)
      end).

(** The generator [territory_tree], run to its end: the entities it yields
    and, when it stops on an exception, that exception. *)
Fixpoint territory_tree_loop (fuel : nat) (subdivision_code : string)
  : option (list territory * option error * string) :=
  if negb (Str.truthy subdivision_code) then Some ([], None, subdivision_code)
  else
    match fuel with
    | O => None
    | S fuel =>
        match subdivisions_get db subdivision_code with
        | Raise e => Some ([], Some e, subdivision_code)
        | Ok subdiv =>
            if negb (Str.truthy (parent_code subdiv))
            then Some ([TSubdivision subdiv], None, subdivision_code)
            else
              match territory_tree_loop fuel (parent_code subdiv) with
              | None => None
              | Some (rest, e, last) =>
                  Some (TSubdivision subdiv :: rest, e, last)
              end
        end
    end.

Definition territory_tree (fuel : nat) (subdivision_code : string)
  (include_country : bool) : option (list territory * option error) :=
  match territory_tree_loop fuel subdivision_code with
  | None => None
  | Some (yielded, Some e, _) => Some (yielded, Some e)
  | Some (yielded, None, subdivision_code) =>
      if include_country then
        match subdiv <- subdivisions_get db subdivision_code ;;
              country db subdiv with
        | Ok c => Some (yielded ++ [TCountry c], None)
        | Raise e => Some (yielded, Some e)
        end
      else Some (yielded, None)
  end.

(** The loop [for parent_subdiv in territory_tree(...)] of [normalize]: the
    metadata of every yielded subdivision is merged, then the exception on
    which the generator stopped, if any, is raised. *)
Definition metadata_of (t : territory) : result (dict value) :=
  match t with
  | TSubdivision s => subdivision_metadata s
  | TCountry _ => Raise AttributeError
  end.

Definition merge_tree_metadata
  (yielded : list territory) (stopped : option error)
  (parent_metadata : dict value) : result (dict value) :=
  parent_metadata <-
    fold_left
      (fun acc parent_subdiv =>
         parent_metadata <- acc ;;
         metadata <- metadata_of parent_subdiv ;;
         Ok (update parent_metadata metadata))
      yielded (Ok parent_metadata) ;;
  match stopped with
  | Some e => Raise e
  | None => Ok parent_metadata
  end.

(** One turn of the loop that guards the components against an overwrite. *)
Definition check_overwrite (self : components)
  (component_id : string) (new_value : value) : result unit :=
  if negb (truthy (Some new_value)) then Raise AssertionError
  else
    let current_value := getattr self component_id in
    match current_value with
    | Some current =>
        if truthy current_value && mem component_id BASE_COMPONENT_IDS then
          alias_values <-
            (if String.eqb component_id "country_code" then
               subdiv <- subdivisions_get_attr
                           (getattr self "subdivision_code") ;;
               Ok [new_value; VStr (country_code subdiv)]
             else Ok [new_value]) ;;
          if negb (existsb (value_eqb current) alias_values)
          then Raise (ConflictingTerritoryMetadata
                        (getattr self "subdivision_code")
                        component_id current new_value)
          else Ok tt
        else Ok tt
    | None => Ok tt
    end.

Definition check_overwrites (self : components) (parent_metadata : dict value)
  : result unit :=
  fold_left
    (fun acc item => _ <- acc ;; check_overwrite self (fst item) (snd item))
    parent_metadata (Ok tt).

Definition strip_value (v : option value) : option value :=
  match v with
  | Some (VStr s) => Some (VStr (Str.strip s))
  | _ => v
  end.

(** Clean-up of all fields: strings are stripped, then every component whose
    value is blank is deleted. *)
Definition clean_up (self : components) : components :=
  let stripped := List.map (fun item => (fst item, strip_value (snd item))) self in
  let empty_components :=
    List.map fst (filter (fun item => negb (truthy (snd item))) stripped) in
  fold_left delitem empty_components stripped.

(** [if self.<name>: self.<name> = self.<name>.upper()]. *)
Definition upper_component (self : components) (name : string)
  : result components :=
  match getattr self name with
  | Some (VStr s) =>
      if Str.truthy s then Ok (setattr self name (Some (VStr (Str.upper s))))
      else Ok self
  | Some (VSub _) => Raise AttributeError
  | None => Ok self
  end.

Definition swap_lines (self : components) : components :=
  if truthy (getattr self "line2") && negb (truthy (getattr self "line1"))
  then
    let line1 := getattr self "line1" in
    let line2 := getattr self "line2" in
    setattr (setattr self "line1" line2) "line2" line1
  else self.

Definition set_default_subdivision (self : components) : components :=
  if truthy (getattr self "country_code")
     && negb (truthy (getattr self "subdivision_code"))
  then
    setattr self "subdivision_code"
      (match getattr self "country_code" with
       | Some (VStr c) => option_map VStr (default_subdivision_code c)
       | _ => None
       end)
  else self.

(** The metadata of all subdivision parents: the country of the
    subdivision, then the metadata of every subdivision of its tree. *)
Definition parent_metadata (fuel : nat) (subdivision_code : value)
  : option (result (dict value)) :=
  country_value <~ Some (normalize_country_code subdivision_code) ;;
  let parent_metadata : dict value := [ ("country_code", country_value) ] in
  match subdivision_code with
  | VSub _ => Some (Raise (KeyError ""))
  | VStr c =>
      match territory_tree fuel c false with
      | None => None
      | Some (yielded, stopped) =>
          Some (merge_tree_metadata yielded stopped parent_metadata)
      end
  end.

(** Populate address components with metadata of all subdivision parents. *)
Definition populate_metadata (fuel : nat) (self : components)
  : option (result components) :=
  match getattr self "subdivision_code" with
  | Some subdivision_code =>
      if truthy (Some subdivision_code) then
        parent_metadata <~ parent_metadata fuel subdivision_code ;;
        _ <~ Some (check_overwrites self parent_metadata) ;;
        Some (Ok (update self
                    (List.map (fun item => (fst item, Some (snd item)))
                              parent_metadata)))
      else Some (Ok self)
  | None => Some (Ok self)
  end.

(** The first steps of [normalize], which do not consult the database:
    clean-up, upper-casing of the two codes, swap of the lines, default
    subdivision. *)
Definition prepare (self : components) : result components :=
  let self := clean_up self in
  self <- upper_component self "country_code" ;;
  self <- upper_component self "subdivision_code" ;;
  let self := swap_lines self in
  Ok (set_default_subdivision self).

(** [Address.normalize], on the component map that the constructor builds. *)
Definition normalize (fuel : nat) (self : components)
  : option (result components) :=
  self <~ Some (prepare self) ;;
  populate_metadata fuel self.

(** The constructor [Address.__init__], for string or [None] keyword values. *)
Definition init (fuel : nat) (kwargs : dict (option string))
  : option (result components) :=
  let unknown_components := difference (keys kwargs) BASE_COMPONENT_IDS in
  if negb (Nat.eqb (List.length unknown_components) 0)
  then Some (Raise UnknownComponent)
  else
    let self : components :=
      List.map (fun id => (id, None)) BASE_COMPONENT_IDS in
    let self :=
      update self
        (List.map (fun item => (fst item, option_map VStr (snd item))) kwargs) in
    normalize fuel self.

(** The four checks of [Address.validate], in the order of the source. *)

(** Check that the subdivision code exists. *)
Definition check_subdivision_code (self : components) : result unit :=
  match getattr self "subdivision_code" with
  | Some v =>
      if truthy (Some v) then
        match subdivisions_get_value v with
        | Ok _ => Ok tt
        | Raise _ => Raise (InvalidSubdivisionCode v)
        end
      else Ok tt
  | None => Ok tt
  end.

(** Check that the country code exists. *)
Definition check_country_code (self : components) : result unit :=
  match getattr self "country_code" with
  | Some v =>
      if truthy (Some v) then
        match countries_get_value v with
        | Ok _ => Ok tt
        | Raise _ => Raise (InvalidCountryCode v)
        end
      else Ok tt
  | None => Ok tt
  end.

(** Check country consistency against subdivision. *)
Definition check_consistency (self : components) : result unit :=
  match getattr self "country_code", getattr self "subdivision_code" with
  | Some c, Some s =>
      if truthy (Some c) && truthy (Some s) then
        normalized <- normalize_country_code s ;;
        if negb (value_eqb normalized c)
        then Raise (CountrySubdivisionMismatch c s)
        else Ok tt
      else Ok tt
  | _, _ => Ok tt
  end.

(** Check that all required fields are set.  [REQUIRED_FIELDS] is a
    frozenset: [fields] lists it in the order in which the loop iterates
    over it. *)
Definition check_required_fields (fields : list string) (self : components)
  : result unit :=
  fold_left
    (fun acc field =>
       _ <- acc ;;
       if negb (truthy (getattr self field))
       then Raise (MissingRequiredField field)
       else Ok tt)
    fields (Ok tt).

Definition validate (fields : list string) (self : components) : result unit :=
  _ <- check_subdivision_code self ;;
  _ <- check_country_code self ;;
  _ <- check_consistency self ;;
  check_required_fields fields self.

End WithDatabase.

End Address.

(* ================================================================== *)
(** ** An excerpt of the ISO 3166 data *)

(** Countries and subdivisions as [pycountry] lists them, used to run the
    functions on concrete input. *)

Definition sample_countries : list Country :=
  List.map (fun item => mkCountry (fst item) (snd item))
    [ ("US", "United States"); ("FR", "France"); ("GB", "United Kingdom");
      ("NL", "Netherlands"); ("BQ", "Bonaire, Sint Eustatius and Saba");
      ("SH", "Saint Helena, Ascension and Tristan da Cunha");
      ("IO", "British Indian Ocean Territory"); ("ES", "Spain");
      ("GR", "Greece"); ("CN", "China"); ("NO", "Norway"); ("FI", "Finland");
      ("TW", "Taiwan"); ("HK", "Hong Kong"); ("MO", "Macao");
      ("AX", "Aland Islands"); ("BL", "Saint Barthelemy");
      ("GF", "French Guiana"); ("GP", "Guadeloupe"); ("MF", "Saint Martin");
      ("MQ", "Martinique"); ("NC", "New Caledonia");
      ("PF", "French Polynesia"); ("PM", "Saint Pierre and Miquelon");
      ("RE", "Reunion"); ("TF", "French Southern Territories");
      ("WF", "Wallis and Futuna"); ("YT", "Mayotte"); ("AW", "Aruba");
      ("CW", "Curacao"); ("SX", "Sint Maarten");
      ("SJ", "Svalbard and Jan Mayen"); ("AS", "American Samoa");
      ("GU", "Guam"); ("MP", "Northern Mariana Islands");
      ("PR", "Puerto Rico");
      ("UM", "United States Minor Outlying Islands");
      ("VI", "Virgin Islands, U.S.") ].

Definition sample_subdivisions : list Subdivision :=
  [ mkSubdivision "US-CA" "California" "State" "" "US";
    mkSubdivision "FR-J" "Ile-de-France" "Metropolitan region" "" "FR";
    mkSubdivision "FR-75" "Paris" "Metropolitan department" "FR-J" "FR";
    mkSubdivision "FR-GF" "Guyane" "Overseas region" "" "FR";
    mkSubdivision "GB-ENG" "England" "Country" "" "GB";
    mkSubdivision "GB-LND" "London, City of" "City corporation" "GB-ENG" "GB";
    mkSubdivision "NL-BQ1" "Bonaire" "Special municipality" "" "NL";
    mkSubdivision "BQ-BO" "Bonaire" "Special municipality" "" "BQ";
    mkSubdivision "BQ-SA" "Saba" "Special municipality" "" "BQ";
    mkSubdivision "BQ-SE" "Sint Eustatius" "Special municipality" "" "BQ";
    mkSubdivision "SH-AC" "Ascension" "Geographical entity" "" "SH";
    mkSubdivision "NO-21" "Svalbard" "Arctic region" "" "NO" ].

Definition sample_db : Database :=
  mkDatabase sample_countries sample_subdivisions.


(* ================================================================== *)
(** ** Vocabulary of the statements *)

(** A string that does not start with a blank is left alone by [lstrip], and
    [rstrip] keeps its first character. *)
Definition starts_clean (s : string) : Prop :=
  match s with
  | EmptyString => True
  | String a _ => Str.is_space a = false
  end.

(** Resolution through one alias table: the target of a key, the code itself
    when it is not a key. *)
Definition resolve (table : dict string) (c : string) : string :=
  get_default table c c.

(** The resolution steps of [normalize_territory_code], in the words of the
    specification. *)
Definition resolution (resolve_aliases resolve_foreign_territory : bool)
  (c : string) : string :=
  let c := resolve Territory.FOREIGN_TERRITORIES_ALIAS_TO_COUNTRY c in
  let c := resolve Territory.COUNTRY_ALIASES c in
  let c := if resolve_aliases
           then resolve Territory.SUBDIVISION_COUNTRIES
                  (resolve Territory.SUBDIVISION_ALIASES c)
           else c in
  if resolve_foreign_territory
  then resolve Territory.FOREIGN_TERRITORIES_MAPPING c
  else c.

(** The codes that [normalize_territory_code] accepts: the countries and the
    subdivisions of the database, and the keys of the three tables of
    country-shaped aliases. *)
Definition recognized (db : Database) (c : string) : Prop :=
  In c (List.map alpha_2 (countries db))
  \/ In c (List.map code (subdivisions db))
  \/ In c (keys Territory.COUNTRY_ALIASES)
  \/ In c (keys Territory.FOREIGN_TERRITORIES_ALIAS_TO_COUNTRY)
  \/ In c (keys Territory.COUNTRY_ALIAS_TO_SUBDIVISION).

(** The targets of the tables that [normalize_territory_code] resolves
    without being asked for the foreign-territory attachment. *)
Definition alias_targets : list string :=
  values Territory.FOREIGN_TERRITORIES_ALIAS_TO_COUNTRY
  ++ values Territory.COUNTRY_ALIASES
  ++ values Territory.SUBDIVISION_ALIASES
  ++ values Territory.SUBDIVISION_COUNTRIES.

(** The database knows every code that an alias table resolves to. *)
Definition alias_targets_supported (db : Database) : bool :=
  forallb (fun t => mem t (Territory.supported_territory_codes db))
          alias_targets.

(** The codes filed under a key of a reverse index, none when the key is
    absent. *)
Definition members (index : dict (list string)) (k : string) : list string :=
  match get index k with
  | Some xs => xs
  | None => []
  end.

(** A fold that files, for each item that [f] selects, a code under a key. *)
Definition file_items {A : Type} (f : A -> option (string * string))
  (items : list A) (index : dict (list string)) : dict (list string) :=
  fold_left
    (fun index item =>
       match f item with
       | Some (k, x) => Territory.setdefault_add index k x
       | None => index
       end)
    items index.

(** The reverse index that [Territory.default_subdivision_code] builds at
    each call. *)
Definition default_subdiv : dict (list string) :=
  file_items (fun item : string * string => Some (fst item, snd item))
    Territory.COUNTRY_ALIAS_TO_SUBDIVISION
    (file_items
       (fun item : string * string =>
          if Nat.eqb (String.length (snd item)) 2
          then Some (snd item, fst item) else None)
       Territory.SUBDIVISION_COUNTRIES []).

(** In the words of the specification: subdivision [s] maps to [k] in the
    reverse of the subdivision/country overlaps joined with the
    country-alias-to-subdivision table, restricted to country-shaped
    targets. *)
Definition maps_to (s k : string) : Prop :=
  (In (s, k) Territory.SUBDIVISION_COUNTRIES
   \/ In (k, s) Territory.COUNTRY_ALIAS_TO_SUBDIVISION)
  /\ String.length k = 2.

Definition only_candidate (s k : string) : Prop :=
  maps_to s k /\ forall s', maps_to s' k -> s' = s.

(** Equality test on optional codes. *)
Definition option_eqb (a b : option string) : bool :=
  match a, b with
  | Some x, Some y => String.eqb x y
  | None, None => true
  | _, _ => false
  end.

(** The keys under which one of the two reverse indexes files a code. *)
Definition indexed_countries : list string :=
  keys default_subdiv ++ keys Address.DEFAULT_SUBDIVISIONS.

(** A component is set when it holds a value that is not blank; it is absent
    otherwise. *)
Definition is_set (self : Address.components) (field : string) (v : value)
  : Prop :=
  Address.getattr self field = Some v /\ Address.truthy (Some v) = true.

Definition absent (self : Address.components) (field : string) : Prop :=
  Address.truthy (Address.getattr self field) = false.

(** A component value is found in the database. *)
Definition subdivision_known (db : Database) (v : value) : Prop :=
  exists s, In s (subdivisions db) /\ v = VStr (code s).

Definition country_known (db : Database) (v : value) : Prop :=
  exists c, In c (countries db) /\ v = VStr (alpha_2 c).

(** The subdivision code is blank, or the database lists it. *)
Definition subdivision_code_ok (db : Database) (self : Address.components)
  : Prop :=
  absent self "subdivision_code"
  \/ exists s, is_set self "subdivision_code" s /\ subdivision_known db s.

(** The country code is blank, or the database lists it. *)
Definition country_code_ok (db : Database) (self : Address.components)
  : Prop :=
  absent self "country_code"
  \/ exists c, is_set self "country_code" c /\ country_known db c.

(** The resolved parent country of a subdivision code, read off the data:
    the country that the subdivision/country overlaps give to the code when
    they hold it, the country code that the database files the subdivision
    under otherwise. *)
Definition resolved_country (db : Database) (s n : value) : Prop :=
  exists c subdiv,
    s = VStr c
    /\ subdivisions_get db c = Ok subdiv
    /\ n = VStr (match get Address.SUBDIVISION_COUNTRY_OVERLAPS c with
                 | Some k => k
                 | None => country_code subdiv
                 end).

(** The four failures of [validate], as conditions on the address. *)
Definition unknown_subdivision (db : Database) (self : Address.components)
  (s : value) : Prop :=
  is_set self "subdivision_code" s /\ ~ subdivision_known db s.

Definition unknown_country (db : Database) (self : Address.components)
  (c : value) : Prop :=
  is_set self "country_code" c /\ ~ country_known db c.

Definition mismatch (db : Database) (self : Address.components)
  (c s : value) : Prop :=
  is_set self "country_code" c /\ is_set self "subdivision_code" s
  /\ exists n, resolved_country db s n /\ n <> c.

Definition missing (self : Address.components) (f : string) : Prop :=
  In f Address.REQUIRED_FIELDS /\ absent self f.

(** An address that holds the four required fields, a country and a
    subdivision of that country. *)
Definition cupertino : Address.components :=
  [ ("line1", Some (VStr "1 Infinite Loop")); ("line2", None);
    ("postal_code", Some (VStr "95014"));
    ("city_name", Some (VStr "Cupertino"));
    ("country_code", Some (VStr "US"));
    ("subdivision_code", Some (VStr "US-CA")) ].

(** The same address filed under a country that the database does not
    list, with a subdivision that it does not list either. *)
Definition nowhere : Address.components :=
  [ ("line1", Some (VStr "1 Infinite Loop")); ("line2", None);
    ("postal_code", Some (VStr "95014"));
    ("city_name", Some (VStr "Cupertino"));
    ("country_code", Some (VStr "ZZ"));
    ("subdivision_code", Some (VStr "ZZ-1")) ].

(** England, as the database lists it: a subdivision whose type is
    "Country". *)
Definition england : Subdivision :=
  mkSubdivision "GB-ENG" "England" "Country" "" "GB".

(** A derived identifier collides with a base component that is set. *)
Definition collides (self : Address.components) (component_id : string)
  (current : value) : Prop :=
  is_set self component_id current
  /\ In component_id Address.BASE_COMPONENT_IDS.

(** The values that a derived value may replace: itself and, for the country
    code, the country code that the database holds for the subdivision of
    the address. *)
Definition permitted (subdiv : Subdivision) (component_id : string)
  (current new : value) : Prop :=
  current = new
  \/ (component_id = "country_code" /\ current = VStr (country_code subdiv)).

Definition blank (v : value) : Prop := Address.truthy (Some v) = false.

(** The component map that the constructor hands to [normalize]. *)
Definition california_in_france : Address.components :=
  [ ("line1", None); ("line2", None); ("postal_code", None);
    ("city_name", None); ("country_code", Some (VStr "FR"));
    ("subdivision_code", Some (VStr "US-CA")) ].

(** ** Consistency of the hierarchy of a database *)

Fixpoint distinct (xs : list string) : bool :=
  match xs with
  | [] => true
  | x :: rest => negb (mem x rest) && distinct rest
  end.

Definition result_is (r : result string) (c : string) : bool :=
  match r with
  | Ok d => String.eqb d c
  | Raise _ => false
  end.

(** What the hierarchy functions rely on: the codes of the subdivisions are
    distinct and not empty; a subdivision that names a parent names a
    subdivision of the database, of lower rank (so that the parent links
    have no cycle), and its own code is already in normal form and is not a
    country code. *)
Definition linked_subdivision_ok (db : Database) (rank : string -> nat)
  (s : Subdivision) : bool :=
  mem (parent_code s) (List.map code (subdivisions db))
  && Nat.ltb (rank (parent_code s)) (rank (code s))
  && result_is (Territory.normalize_territory_code db (code s) true false)
               (code s)
  && negb (mem (code s) (Territory.supported_country_codes db)).

Definition hierarchy_ok (db : Database) (rank : string -> nat) : bool :=
  distinct (List.map code (subdivisions db))
  && forallb
       (fun s =>
          Str.truthy (code s)
          && (negb (Str.truthy (parent_code s))
              || linked_subdivision_ok db rank s))
       (subdivisions db).

(** [d] is a direct child of [c]. *)
Definition child_of (db : Database) (d c : string) : Prop :=
  exists s, In s (subdivisions db) /\ code s = d /\ parent_code s = c
            /\ Str.truthy c = true.

(** [x] lies below [c] in the hierarchy. *)
Inductive descends (db : Database) : string -> string -> Prop :=
| descends_child x c : child_of db x c -> descends db x c
| descends_step x p c : child_of db x p -> descends db p c -> descends db x c.

(** One turn of the loop of [territory_children_codes] over the direct
    children, with the recursive call as a parameter. *)
Definition children_step
  (recurse : string -> bool -> option (result (list string)))
  (acc : option (result (list string))) (child_code : string)
  : option (result (list string)) :=
  codes <~ acc ;;
  sub <~ recurse child_code true ;;
  Some (Ok (set_update codes sub)).

(** The part of [territory_children_codes] that follows the normalization
    of its argument. *)
Definition children_of_code (db : Database)
  (recurse : string -> bool -> option (result (list string)))
  (code' : string) (include_self : bool) : option (result (list string)) :=
  codes <~
    (if mem code' (Territory.supported_country_codes db) then
       Some (Ok (set_update []
                   (List.map code
                      (filter (fun subdiv =>
                                 String.eqb (country_code subdiv) code')
                              (subdivisions db)))))
     else
       fold_left (children_step recurse)
         (set_update []
            (List.map code
               (filter (fun subdiv => String.eqb (parent_code subdiv) code')
                       (subdivisions db))))
         (Some (Ok []))) ;;
  Some (Ok (if include_self then set_add code' codes else codes)).

(** A rank for the hierarchy of the sample database. *)
Definition sample_rank (c : string) : nat :=
  if mem c ["FR-75"; "GB-LND"] then 1 else 0.

(** ** Shape of the codes of a database *)

(** The text of a code before its first dash: the country of a subdivision
    code. *)
Fixpoint prefix (s : string) : string :=
  match s with
  | EmptyString => EmptyString
  | String a t =>
      if Ascii.eqb a "-" then EmptyString else String a (prefix t)
  end.

Definition has_dash (s : string) : bool := Str.contains "-" s.

(** What [pycountry] guarantees when it loads its data: the code of a
    subdivision is the code of its country, a dash and a suffix; the parent
    that a subdivision names is a subdivision code of the same country; and
    (the rank) the parent links have no cycle. *)
Definition subdivision_shaped (rank : string -> nat) (s : Subdivision) : bool :=
  has_dash (code s)
  && String.eqb (prefix (code s)) (country_code s)
  && (negb (Str.truthy (parent_code s))
      || (has_dash (parent_code s)
          && String.eqb (prefix (parent_code s)) (country_code s)
          && Nat.ltb (rank (parent_code s)) (rank (code s)))).

Definition codes_shaped (db : Database) (rank : string -> nat) : bool :=
  forallb (subdivision_shaped rank) (subdivisions db).

(** A measure of the alias tables for the recursion of [country_aliases]:
    the level of a code without dash, and the level of the subdivision
    codes of a country. *)
Definition country_level (k : string) : nat :=
  if mem k ["IO"; "BQ"] then 1
  else if mem k (keys Territory.REVERSE_MAPPING) then 4
  else 0.

Definition subdivision_level (k : string) : nat :=
  if String.eqb k "NL" then 3 else S (country_level k).

Definition level (c : string) : nat :=
  if has_dash c then subdivision_level (prefix c) else country_level c.

(** One turn of the last loop of [country_aliases], and what precedes the
    loop, with the recursive call as a parameter. *)
Definition aliases_step (recurse : string -> option (result (list string)))
  (acc : option (result (list string))) (mapped_code : string)
  : option (result (list string)) :=
  country_codes <~ acc ;;
  aliases <~ recurse mapped_code ;;
  Some (Ok (set_update country_codes aliases)).

(** The code in which [country_aliases] recurses for a subdivision. *)
Definition parent_or_country (db : Database) (subdiv : Subdivision)
  : result string :=
  if negb (Str.truthy (parent_code subdiv))
  then c <- country db subdiv ;; Ok (alpha_2 c)
  else Ok (parent_code subdiv).

Definition aliases_first (db : Database)
  (recurse : string -> option (result (list string)))
  (territory_code : string) : option (result (list string)) :=
  if mem territory_code (Territory.supported_country_codes db) then
    Some (Ok [territory_code])
  else
    subdiv <~ Some (subdivisions_get db territory_code) ;;
    parent_code <~
      (if negb (Str.truthy (parent_code subdiv))
       then Some (c <- country db subdiv ;; Ok (alpha_2 c))
       else Some (Ok (parent_code subdiv))) ;;
    aliases <~ recurse parent_code ;;
    let country_codes := set_update [] aliases in
    Some (Ok
      (match get Territory.SUBDIVISION_COUNTRIES territory_code with
       | Some target => set_update country_codes [target]
       | None => country_codes
       end)).

(** [country_aliases] returns, with an answer or an exception, whenever it
    is given enough fuel. *)
Definition terminates (db : Database) (territory_code : string) : Prop :=
  exists fuel, forall fuel', fuel <= fuel' ->
    exists r, Territory.country_aliases db fuel' territory_code = Some r.

(** The countries that the subdivisions and the overlap table refer to are
    listed by the database. *)
Definition countries_listed (db : Database) : bool :=
  forallb (fun s => mem (country_code s) (List.map alpha_2 (countries db)))
          (subdivisions db)
  && forallb (fun k => mem k (List.map alpha_2 (countries db)))
             (values Territory.SUBDIVISION_COUNTRIES).

(** ** Vocabulary of the further properties *)

(** The codes that [normalize_territory_code] can return, other than its
    cleaned input, when it applies the foreign-territory attachment. *)
Definition attached_targets : list string :=
  List.map Territory.territory_attachment alias_targets
  ++ values Territory.FOREIGN_TERRITORIES_MAPPING.

Definition attached_targets_supported (db : Database) : bool :=
  forallb (fun t => mem t (Territory.supported_territory_codes db))
          attached_targets.

(** The sample database, with the countries to which its territories are
    attached. *)
Definition attached_db : Database :=
  mkDatabase
    (sample_countries
     ++ List.map (fun item => mkCountry (fst item) (snd item))
          [ ("AU", "Australia"); ("BR", "Brazil"); ("DK", "Denmark") ])
    sample_subdivisions.

(** A list of subdivisions in which each one names the next as its parent
    and the last one names none. *)
Fixpoint parent_chain (l : list Subdivision) : Prop :=
  match l with
  | [] => True
  | s :: rest =>
      match rest with
      | [] => parent_code s = ""
      | p :: _ => Str.truthy (parent_code s) = true /\ parent_code s = code p
      end
      /\ parent_chain rest
  end.

(** The code from which a tree of subdivisions starts, the empty code for
    the empty tree. *)
Definition tree_start (l : list Subdivision) : string :=
  match l with
  | [] => ""
  | s :: _ => code s
  end.

(** The answer of a generator run to its end, seen as the answer of a
    function: the list of what it yields, or the exception that stops it. *)
Definition collected {A : Type} (run : option (list A * option error))
  : option (result (list A)) :=
  match run with
  | None => None
  | Some (yielded, None) => Some (Ok yielded)
  | Some (_, Some e) => Some (Raise e)
  end.

(** The targets of the subdivision/country overlaps are country codes for
    [db]. *)
Definition overlap_targets_supported (db : Database) : bool :=
  forallb (fun k => mem k (Territory.supported_country_codes db))
          (values Territory.SUBDIVISION_COUNTRIES).

(* ================================================================== *)
(** ** [address.py]: the other methods of [Address] *)

Module AddressMethods.

(** The exceptions that are [ValueError]s in the sources. *)
Definition is_value_error (e : error) : bool :=
  match e with
  | UnrecognizedTerritory _ | InvalidSubdivisionCode _ | InvalidCountryCode _
  | CountrySubdivisionMismatch _ _ | MissingRequiredField _
  | ConflictingTerritoryMetadata _ _ _ _ => true
  | UnknownComponent | KeyError _ | AttributeError | AssertionError => false
  end.

(** [country.name]. *)
Definition name_of_country (c : Country) : string := country_name c.

(** [len(self)]: the number of components. *)
Definition __len__ (self : Address.components) : nat := List.length self.

(** [self[key]]. *)
Definition __getitem__ (self : Address.components) (key : string)
  : result (option value) :=
  match get self key with
  | Some v => Ok v
  | None => Raise (KeyError key)
  end.

(** [self[key] = value]: only a component that exists can be set.  The
    source raises a bare [KeyError]; the model records the key. *)
Definition __setitem__ (self : Address.components) (key : string)
  (v : option value) : result Address.components :=
  if negb (mem key (keys self)) then Raise (KeyError key)
  else Ok (set_item self key v).

(** [del self[key]]: a base component is reset to [None], another component
    is removed, and must exist. *)
Definition __delitem__ (self : Address.components) (key : string)
  : result Address.components :=
  if mem key Address.BASE_COMPONENT_IDS then Ok (set_item self key None)
  else if mem key (keys self)
       then Ok (filter (fun item => negb (String.eqb (fst item) key)) self)
       else Raise (KeyError key).

(** The property [empty]: [True] only if all fields are empty. *)
Definition empty (self : Address.components) : bool :=
  forallb (fun v => negb (Address.truthy v)) (values self).

Section WithDatabase.
Variable db : Database.

(** The property [valid]: [validate] with its [ValueError]s turned into
    [False]; another exception goes through. *)
Definition valid (fields : list string) (self : Address.components)
  : result bool :=
  match Address.validate db fields self with
  | Ok _ => Ok true
  | Raise e => if is_value_error e then Ok false else Raise e
  end.

(** The property [country]. *)
Definition country (self : Address.components) : result (option Country) :=
  match Address.getattr self "country_code" with
  | Some v =>
      if Address.truthy (Some v) then
        c <- Address.countries_get_value db v ;; Ok (Some c)
      else Ok None
  | None => Ok None
  end.

(** The property [country_name]: a country object is always true. *)
Definition country_name (self : Address.components) : result (option string) :=
  c <- country self ;;
  Ok (match c with
      | Some c => Some (name_of_country c)
      | None => None
      end).

(** What [render] does: it returns the address block, or fails on a lookup
    of the country, or fails with a [TypeError] when it joins a value that
    is not a string. *)
Inductive rendering : Type :=
| Rendered (block : string)
| RenderRaises (e : error)
| RenderTypeError.

(** [sep.join(items)]: every item has to be a string. *)
Fixpoint strings_of (items : list (option value)) : option (list string) :=
  match items with
  | [] => Some []
  | Some (VStr s) :: rest =>
      match strings_of rest with
      | Some strs => Some (s :: strs)
      | None => None
      end
  | _ :: _ => None
  end.

Definition join (sep : string) (items : list (option value)) : option string :=
  option_map (Str.join sep) (strings_of items).

(** [hasattr(self, name)]: [__getattr__] answers for the components of the
    map and for the base components. *)
Definition hasattr (self : Address.components) (name : string) : bool :=
  mem name (keys self) || mem name Address.BASE_COMPONENT_IDS.

Definition render (self : Address.components) (separator : string)
  : rendering :=
  let lines : list (option value) := [] in
  let lines :=
    if Address.truthy (Address.getattr self "line1")
    then lines ++ [Address.getattr self "line1"] else lines in
  let lines :=
    if Address.truthy (Address.getattr self "line2")
    then lines ++ [Address.getattr self "line2"] else lines in
  let line3_elements : list (option value) := [] in
  let line3_elements :=
    if Address.truthy (Address.getattr self "city_name")
    then line3_elements ++ [Address.getattr self "city_name"]
    else line3_elements in
  let line3_elements :=
    if hasattr self "state"
    then line3_elements ++ [Address.getattr self "state"]
    else line3_elements in
  match join ", " line3_elements with
  | None => RenderTypeError
  | Some joined =>
      let line3_elements : list (option value) := [Some (VStr joined)] in
      let line3_elements :=
        if Address.truthy (Address.getattr self "postal_code")
        then Address.getattr self "postal_code" :: line3_elements
        else line3_elements in
      match join " - " line3_elements with
      | None => RenderTypeError
      | Some line3 =>
          let lines :=
            if Str.truthy line3 then lines ++ [Some (VStr line3)] else lines in
          match country_name self with
          | Raise e => RenderRaises e
          | Ok name =>
              let lines :=
                match name with
                | Some n =>
                    if Str.truthy n then lines ++ [Some (VStr n)] else lines
                | None => lines
                end in
              match join separator lines with
              | None => RenderTypeError
              | Some block => Rendered block
              end
          end
      end
  end.

End WithDatabase.

End AddressMethods.

(** A component map with a blank first line. *)
Definition blank_first_line : Address.components :=
  [ ("line1", Some (VStr "  ")); ("line2", Some (VStr " 4 place Jussieu "));
    ("postal_code", None); ("city_name", None); ("country_code", None);
    ("subdivision_code", None) ].

Definition two_lines : Address.components :=
  [ ("line1", Some (VStr "Tour 26")); ("line2", Some (VStr "4 place Jussieu"));
    ("postal_code", None); ("city_name", None); ("country_code", None);
    ("subdivision_code", None) ].

(** The component map that the constructor builds for California. *)
Definition california : Address.components :=
  [ ("line1", None); ("line2", None); ("postal_code", None);
    ("city_name", None); ("country_code", Some (VStr "US"));
    ("subdivision_code", Some (VStr "US-CA"));
    ("state", Some (VSub (mkSubdivision "US-CA" "California" "State" "" "US")));
    ("state_code", Some (VStr "US-CA"));
    ("state_name", Some (VStr "California"));
    ("state_type_name", Some (VStr "State")) ].

(** A component map that only holds a postal code. *)
Definition postal_code_only : Address.components :=
  [ ("line1", None); ("line2", None); ("postal_code", Some (VStr "75005"));
    ("city_name", None); ("country_code", None); ("subdivision_code", None) ].

(** A component that is a string equal to its own trimming. *)
Definition stripped (v : option value) : Prop :=
  forall s, v = Some (VStr s) -> Str.strip s = s.

(* ================================================================== *)
(** * Properties *)

Unset Implicit Arguments.

(** ** Strings *)

Lemma is_space_upper_char (a : ascii) :
  Str.is_space (Str.upper_char a) = Str.is_space a.
Proof.
  destruct a as [b0 b1 b2 b3 b4 b5 b6 b7].
  destruct b0, b1, b2, b3, b4, b5, b6, b7; reflexivity.
Qed.

Lemma upper_char_idem (a : ascii) :
  Str.upper_char (Str.upper_char a) = Str.upper_char a.
Proof.
  destruct a as [b0 b1 b2 b3 b4 b5 b6 b7].
  destruct b0, b1, b2, b3, b4, b5, b6, b7; reflexivity.
Qed.

Lemma upper_idem (s : string) : Str.upper (Str.upper s) = Str.upper s.
Proof.
  unfold Str.upper. induction s as [|a t IH]; simpl.
  - reflexivity.
  - now rewrite upper_char_idem, IH.
Qed.

Lemma lstrip_upper (s : string) :
  Str.lstrip (Str.upper s) = Str.upper (Str.lstrip s).
Proof.
  unfold Str.upper. induction s as [|a t IH]; simpl.
  - reflexivity.
  - rewrite is_space_upper_char. destruct (Str.is_space a); [exact IH|reflexivity].
Qed.

Lemma rstrip_upper (s : string) :
  Str.rstrip (Str.upper s) = Str.upper (Str.rstrip s).
Proof.
  unfold Str.upper. induction s as [|a t IH]; simpl.
  - reflexivity.
  - rewrite IH, is_space_upper_char.
    destruct (Str.rstrip t); simpl.
    + destruct (Str.is_space a); reflexivity.
    + reflexivity.
Qed.

Lemma strip_upper (s : string) :
  Str.strip (Str.upper s) = Str.upper (Str.strip s).
Proof. unfold Str.strip. now rewrite lstrip_upper, rstrip_upper. Qed.

Lemma rstrip_idem (s : string) : Str.rstrip (Str.rstrip s) = Str.rstrip s.
Proof.
  induction s as [|a t IH]; simpl.
  - reflexivity.
  - destruct (Str.rstrip t) as [|b r] eqn:E.
    + destruct (Str.is_space a) eqn:Ea; simpl; [reflexivity|now rewrite Ea].
    + simpl. simpl in IH. destruct (Str.rstrip r) as [|c r'] eqn:Er.
      * destruct (Str.is_space b); [discriminate IH|].
        now rewrite IH.
      * now rewrite IH.
Qed.

Lemma lstrip_starts_clean (s : string) : starts_clean (Str.lstrip s).
Proof.
  induction s as [|a t IH]; simpl.
  - exact I.
  - destruct (Str.is_space a) eqn:Ea; [exact IH|exact Ea].
Qed.

Lemma rstrip_starts_clean (s : string) :
  starts_clean s -> starts_clean (Str.rstrip s).
Proof.
  destruct s as [|a t]; simpl; intros H.
  - exact I.
  - destruct (Str.rstrip t); [rewrite H|]; exact H.
Qed.

Lemma lstrip_clean (s : string) : starts_clean s -> Str.lstrip s = s.
Proof. destruct s as [|a t]; simpl; intros H; [reflexivity|now rewrite H]. Qed.

Lemma strip_idem (s : string) : Str.strip (Str.strip s) = Str.strip s.
Proof.
  unfold Str.strip.
  rewrite (lstrip_clean _ (rstrip_starts_clean _ (lstrip_starts_clean s))).
  apply rstrip_idem.
Qed.

(** The first step of [normalize_territory_code] leaves its own result
    unchanged. *)
Lemma upper_strip_idem (s : string) :
  Str.upper (Str.strip (Str.upper (Str.strip s))) = Str.upper (Str.strip s).
Proof. now rewrite strip_upper, strip_idem, upper_idem. Qed.

(** ** Collections and dictionaries *)

Lemma mem_In (x : string) (xs : list string) : mem x xs = true <-> In x xs.
Proof.
  unfold mem. rewrite existsb_exists. split.
  - intros [y [Hy E]]. apply String.eqb_eq in E. now subst.
  - intros H. exists x. split; [exact H|apply String.eqb_refl].
Qed.

Lemma mem_app (x : string) (xs ys : list string) :
  mem x (xs ++ ys) = mem x xs || mem x ys.
Proof. unfold mem. apply existsb_app. Qed.

Lemma get_In_values (V : Type) (d : dict V) (k : string) (v : V) :
  get d k = Some v -> In v (values d).
Proof.
  induction d as [|[k' v'] rest IH]; simpl; intros H.
  - discriminate.
  - destruct (String.eqb k k').
    + left. now inversion H.
    + right. now apply IH.
Qed.

Lemma get_In (V : Type) (d : dict V) (k : string) (v : V) :
  get d k = Some v -> In (k, v) d.
Proof.
  induction d as [|[k' v'] rest IH]; simpl; intros H.
  - discriminate.
  - destruct (String.eqb k k') eqn:E.
    + left. apply String.eqb_eq in E. inversion H. now subst.
    + right. now apply IH.
Qed.

Lemma get_None_keys (V : Type) (d : dict V) (k : string) :
  get d k = None <-> ~ In k (keys d).
Proof.
  induction d as [|[k' v'] rest IH]; simpl.
  - tauto.
  - destruct (String.eqb k k') eqn:E.
    + apply String.eqb_eq in E. subst. split; [discriminate|tauto].
    + apply String.eqb_neq in E. rewrite IH. split.
      * intros H [H'|H']; [now subst|tauto].
      * tauto.
Qed.

(** ** [normalize_territory_code] *)

Lemma recognized_mem (db : Database) (c : string) :
  recognized db c <-> mem c (Territory.supported_territory_codes db) = true.
Proof.
  unfold recognized, Territory.supported_territory_codes,
    Territory.supported_country_codes.
  rewrite mem_In, !in_app_iff. tauto.
Qed.

Lemma normalize_territory_code_unfold
  (db : Database) (territory_code : string) (ra rf : bool) :
  Territory.normalize_territory_code db territory_code ra rf =
  let c := Str.upper (Str.strip territory_code) in
  if mem c (Territory.supported_territory_codes db)
  then Ok (resolution ra rf c)
  else Raise (UnrecognizedTerritory c).
Proof.
  unfold Territory.normalize_territory_code, resolution, resolve,
    Territory.territory_attachment.
  cbv zeta.
  destruct (mem _ (Territory.supported_territory_codes db)); simpl;
    destruct ra, rf; reflexivity.
Qed.

(** C1, amended. [normalize_territory_code] trims and upper-cases its input;
    it raises the unrecognized-territory error exactly when the resulting code
    is neither a country nor a subdivision of the database nor a key of the
    country-alias, foreign-territory-alias or country-alias-to-subdivision
    table; otherwise it returns the code resolved through the
    foreign-territory aliases, the country aliases, then (when
    [resolve_aliases] is set) the subdivision aliases and the
    subdivision/country overlaps, then (when the foreign-territory flag is
    set) the foreign-territory-to-parent mapping. *)
Theorem normalize_territory_code_spec
  (db : Database) (territory_code : string)
  (resolve_aliases resolve_foreign_territory : bool) :
  let c := Str.upper (Str.strip territory_code) in
  (recognized db c
   /\ Territory.normalize_territory_code
        db territory_code resolve_aliases resolve_foreign_territory
      = Ok (resolution resolve_aliases resolve_foreign_territory c))
  \/
  (~ recognized db c
   /\ Territory.normalize_territory_code
        db territory_code resolve_aliases resolve_foreign_territory
      = Raise (UnrecognizedTerritory c)).
Proof.
  intros c. rewrite normalize_territory_code_unfold. fold c. cbv zeta.
  destruct (mem c (Territory.supported_territory_codes db)) eqn:E.
  - left. split; [now apply recognized_mem|reflexivity].
  - right. split; [|reflexivity].
    intros H. apply recognized_mem in H. congruence.
Qed.

(** C1, as stated, fails: ["CN-71"] is a key of the subdivision/country
    overlap table, yet a database that does not list it makes
    [normalize_territory_code] raise. *)
Lemma normalize_territory_code_alias_key_rejected :
  In "CN-71" (keys Territory.SUBDIVISION_COUNTRIES)
  /\ Territory.normalize_territory_code sample_db "CN-71" true false
     = Raise (UnrecognizedTerritory "CN-71").
Proof. split; [simpl; tauto|reflexivity]. Qed.

Lemma resolution_cases (ra : bool) (x : string) :
  resolution ra false x = x \/ In (resolution ra false x) alias_targets.
Proof.
  unfold resolution, resolve, get_default, alias_targets.
  destruct (get Territory.FOREIGN_TERRITORIES_ALIAS_TO_COUNTRY x) as [a|] eqn:E1;
    [set (x1 := a)|set (x1 := x)];
  (destruct (get Territory.COUNTRY_ALIASES x1) as [b|] eqn:E2;
    [set (x2 := b)|set (x2 := x1)]);
  (destruct ra;
   [destruct (get Territory.SUBDIVISION_ALIASES x2) as [c|] eqn:E3;
      [set (x3 := c)|set (x3 := x2)];
    (destruct (get Territory.SUBDIVISION_COUNTRIES x3) as [d|] eqn:E4)
   |]);
  subst; cbv zeta;
  first [ now left
        | right; rewrite !in_app_iff;
          eauto 6 using get_In_values ].
Qed.

Lemma alias_targets_fixed :
  forallb
    (fun t =>
       String.eqb (Str.upper (Str.strip t)) t
       && String.eqb (resolution true false t) t
       && String.eqb (resolution false false t) t)
    alias_targets = true.
Proof. vm_compute. reflexivity. Qed.

(** C2. On a database that lists the targets of the alias tables, a
    recognized territory code is normalized to a code that normalization
    accepts and leaves as it is, whatever [resolve_aliases] is, as long as
    the foreign-territory-to-parent mapping is not applied. *)
Theorem normalize_territory_code_idempotent
  (db : Database) (territory_code : string) (resolve_aliases : bool) :
  alias_targets_supported db = true ->
  recognized db (Str.upper (Str.strip territory_code)) ->
  exists canonical,
    Territory.normalize_territory_code db territory_code resolve_aliases false
    = Ok canonical
    /\ Territory.normalize_territory_code db canonical resolve_aliases false
       = Ok canonical.
Proof.
  intros Hdb Hrec.
  set (c := Str.upper (Str.strip territory_code)) in *.
  exists (resolution resolve_aliases false c).
  apply recognized_mem in Hrec.
  split.
  - rewrite normalize_territory_code_unfold. fold c. cbv zeta.
    now rewrite Hrec.
  - rewrite normalize_territory_code_unfold. cbv zeta.
    destruct (resolution_cases resolve_aliases c) as [Hsame|Htarget].
    + rewrite Hsame. unfold c at 1 2. rewrite upper_strip_idem. fold c.
      now rewrite Hrec, Hsame.
    + set (d := resolution resolve_aliases false c) in *.
      pose proof alias_targets_fixed as Hfix.
      rewrite forallb_forall in Hfix. specialize (Hfix d Htarget).
      apply andb_prop in Hfix. destruct Hfix as [Hfix H3].
      apply andb_prop in Hfix. destruct Hfix as [H1 H2].
      apply String.eqb_eq in H1, H2, H3.
      unfold alias_targets_supported in Hdb.
      rewrite forallb_forall in Hdb. specialize (Hdb d Htarget).
      rewrite H1, Hdb.
      destruct resolve_aliases; [now rewrite H2|now rewrite H3].
Qed.

Lemma normalize_territory_code_idempotent_witness :
  alias_targets_supported sample_db = true
  /\ recognized sample_db (Str.upper (Str.strip " nl-bq1 "))
  /\ exists canonical,
    Territory.normalize_territory_code sample_db " nl-bq1 " true false
    = Ok canonical
    /\ Territory.normalize_territory_code sample_db canonical true false
       = Ok canonical.
Proof.
  assert (Hdb : alias_targets_supported sample_db = true)
    by (vm_compute; reflexivity).
  assert (Hrec : recognized sample_db (Str.upper (Str.strip " nl-bq1 ")))
    by (vm_compute; tauto).
  split; [exact Hdb|split; [exact Hrec|]].
  exact (normalize_territory_code_idempotent sample_db " nl-bq1 " true Hdb Hrec).
Defined.

(** ** Reverse indexes *)

Lemma get_set_item (V : Type) (d : dict V) (k k' : string) (v : V) :
  get (set_item d k v) k' = if String.eqb k' k then Some v else get d k'.
Proof.
  induction d as [|[k0 v0] rest IH]; simpl.
  - reflexivity.
  - destruct (String.eqb k k0) eqn:E; simpl.
    + apply String.eqb_eq in E. subst k0.
      destruct (String.eqb k' k); reflexivity.
    + rewrite IH. destruct (String.eqb k' k0) eqn:E'; [|reflexivity].
      apply String.eqb_eq in E'. subst k0.
      now rewrite String.eqb_sym, E.
Qed.

Lemma In_set_add (x y : string) (xs : list string) :
  In y (set_add x xs) <-> In y xs \/ y = x.
Proof.
  unfold set_add. destruct (mem x xs) eqn:E.
  - apply mem_In in E. split; [tauto|]. intros [H|H]; [exact H|now subst].
  - rewrite in_app_iff. simpl. split.
    + intros [H|[H|[]]]; auto.
    + intros [H|H]; auto.
Qed.

Lemma NoDup_set_add (x : string) (xs : list string) :
  NoDup xs -> NoDup (set_add x xs).
Proof.
  intros H. unfold set_add. destruct (mem x xs) eqn:E; [exact H|].
  assert (Hn : ~ In x xs) by (rewrite <- mem_In; congruence).
  clear E. induction H as [|a l Ha Hl IH]; simpl.
  - constructor; [tauto|constructor].
  - constructor.
    + rewrite in_app_iff. simpl. intros [H'|[H'|[]]]; [tauto|].
      subst. apply Hn. now left.
    + apply IH. intros H'. apply Hn. now right.
Qed.

Lemma members_setdefault_add (index : dict (list string)) (k x k' : string) :
  members (Territory.setdefault_add index k x) k' =
  if String.eqb k' k then set_add x (members index k) else members index k'.
Proof.
  unfold members, Territory.setdefault_add.
  destruct (get index k) as [xs|] eqn:E; rewrite get_set_item;
    destruct (String.eqb k' k); reflexivity.
Qed.

Section FileItems.
Context {A : Type} (f : A -> option (string * string)).

Lemma In_members_file_items (items : list A) :
  forall (index : dict (list string)) (k y : string),
    In y (members (file_items f items index) k) <->
    In y (members index k) \/ exists item, In item items /\ f item = Some (k, y).
Proof.
  unfold file_items.
  induction items as [|item rest IH]; intros index k y; simpl.
  - split; [tauto|]. intros [H|[item [[] _]]]. exact H.
  - rewrite IH. destruct (f item) as [[k0 x0]|] eqn:E.
    + rewrite members_setdefault_add.
      destruct (String.eqb k k0) eqn:Ek.
      * apply String.eqb_eq in Ek. subst k0. rewrite In_set_add. split.
        -- intros [[H|H]|[it [Hit Hf]]]; eauto.
           subst. right. exists item. auto.
        -- intros [H|[it [[Hit|Hit] Hf]]]; eauto.
           subst it. rewrite E in Hf. inversion Hf. subst. auto.
      * apply String.eqb_neq in Ek. split.
        -- intros [H|[it [Hit Hf]]]; eauto.
        -- intros [H|[it [[Hit|Hit] Hf]]]; eauto.
           subst it. rewrite E in Hf. inversion Hf. congruence.
    + split.
      * intros [H|[it [Hit Hf]]]; eauto.
      * intros [H|[it [[Hit|Hit] Hf]]]; eauto.
        subst it. congruence.
Qed.

Lemma NoDup_members_file_items (items : list A) :
  forall (index : dict (list string)),
    (forall k, NoDup (members index k)) ->
    forall k, NoDup (members (file_items f items index) k).
Proof.
  unfold file_items.
  induction items as [|item rest IH]; intros index H k; simpl.
  - apply H.
  - apply IH. intros k'. destruct (f item) as [[k0 x0]|]; [|apply H].
    rewrite members_setdefault_add.
    destruct (String.eqb k' k0); [apply NoDup_set_add|]; apply H.
Qed.

End FileItems.

(** ** [default_subdivision_code] of the territory module *)

Lemma default_subdivision_code_members (k : string) :
  Territory.default_subdivision_code k =
  match members default_subdiv k with
  | [s] => Some s
  | _ => None
  end.
Proof.
  unfold Territory.default_subdivision_code.
  change (fold_left _ Territory.COUNTRY_ALIAS_TO_SUBDIVISION _)
    with default_subdiv.
  unfold members. destruct (get default_subdiv k) as [[|s [|s' xs]]|];
    reflexivity.
Qed.

(** The keys of the country-alias-to-subdivision table are country-shaped,
    so that the loop that files them needs no test. *)
Lemma country_aliases_country_shaped :
  forallb (fun item => Nat.eqb (String.length (fst item)) 2)
          Territory.COUNTRY_ALIAS_TO_SUBDIVISION = true.
Proof. reflexivity. Qed.

Lemma In_default_subdiv (s k : string) :
  In s (members default_subdiv k) <-> maps_to s k.
Proof.
  unfold default_subdiv, maps_to. rewrite !In_members_file_items.
  unfold members at 1. simpl get.
  pose proof country_aliases_country_shaped as Hshape.
  rewrite forallb_forall in Hshape. split.
  - intros [[[]|[[a b] [Hin Hf]]]|[[a b] [Hin Hf]]]; simpl in Hf.
    + destruct (Nat.eqb (String.length b) 2) eqn:E; [|discriminate].
      apply Nat.eqb_eq in E. inversion Hf. subst. auto.
    + inversion Hf. subst. split; [auto|].
      apply Nat.eqb_eq. exact (Hshape _ Hin).
  - intros [[Hin|Hin] Hlen].
    + left. right. exists (s, k). split; [exact Hin|]. simpl.
      now rewrite Hlen.
    + right. exists (k, s). auto.
Qed.

Lemma NoDup_default_subdiv (k : string) : NoDup (members default_subdiv k).
Proof.
  unfold default_subdiv. do 2 apply NoDup_members_file_items.
  intros k'. constructor.
Qed.

(** C9. [default_subdivision_code] returns a subdivision exactly when it is
    the only one that maps to the country in the reverse of the
    subdivision/country overlaps (restricted to country-shaped targets)
    joined with the country-alias-to-subdivision table; it returns no answer
    exactly when there is no such subdivision, none or several mapping to
    the country.  Its result is an optional code: it cannot raise. *)
Theorem default_subdivision_code_unique (k : string) :
  (forall s, Territory.default_subdivision_code k = Some s <-> only_candidate s k)
  /\ (Territory.default_subdivision_code k = None
      <-> ~ exists s, only_candidate s k).
Proof.
  assert (Hsome : forall s,
             Territory.default_subdivision_code k = Some s <-> only_candidate s k).
  { intros s. rewrite default_subdivision_code_members.
    pose proof (NoDup_default_subdiv k) as Hnd.
    unfold only_candidate.
    assert (Hin : forall x, In x (members default_subdiv k) <-> maps_to x k)
      by (intros x; apply In_default_subdiv).
    destruct (members default_subdiv k) as [|a [|b xs]].
    - split; [discriminate|]. intros [H _]. apply Hin in H. destruct H.
    - split.
      + intros H. inversion H. subst a. split.
        * apply Hin. now left.
        * intros s' H'. apply Hin in H'. destruct H' as [H'|[]]. now subst.
      + intros [H _]. apply Hin in H. destruct H as [H|[]]. now subst.
    - split; [discriminate|]. intros [_ Huniq].
      assert (Ha : a = s) by (apply Huniq, Hin; now left).
      assert (Hb : b = s) by (apply Huniq, Hin; right; now left).
      subst. inversion Hnd as [|? ? Hnotin _]. exfalso. apply Hnotin. now left. }
  split; [exact Hsome|].
  split.
  - intros Hnone [s Hs]. apply Hsome in Hs. congruence.
  - intros Hno. destruct (Territory.default_subdivision_code k) as [s|] eqn:E;
      [|reflexivity].
    exfalso. apply Hno. exists s. now apply Hsome.
Qed.

(** ** The two [default_subdivision_code] *)

Lemma option_eqb_eq (a b : option string) : option_eqb a b = true -> a = b.
Proof.
  destruct a, b; simpl; try discriminate; [|reflexivity].
  intros H. apply String.eqb_eq in H. now subst.
Qed.

Lemma default_subdivision_codes_agree_on_indexed :
  forallb
    (fun k =>
       mem k (keys Territory.COUNTRY_ALIAS_TO_SUBDIVISION)
       || option_eqb (Address.default_subdivision_code k)
                     (Territory.default_subdivision_code k))
    indexed_countries = true.
Proof. vm_compute. reflexivity. Qed.

(** C10, as stated, fails: for the country alias ["AC"] the address module
    has no default subdivision, the territory module answers ["SH-AC"]. *)
Lemma default_subdivision_codes_differ :
  Address.default_subdivision_code "AC" = None
  /\ Territory.default_subdivision_code "AC" = Some "SH-AC".
Proof. split; reflexivity. Qed.

Lemma alias_defaults_split :
  forallb
    (fun item =>
       option_eqb (Territory.default_subdivision_code (fst item))
                  (Some (snd item))
       && option_eqb (Address.default_subdivision_code (fst item)) None)
    Territory.COUNTRY_ALIAS_TO_SUBDIVISION = true.
Proof. vm_compute. reflexivity. Qed.

(** C10, amended. The [default_subdivision_code] of the address module and
    the one of the territory module return the same result for every code
    that is not a key of the country-alias-to-subdivision table; for every
    key of that table (["AC"], ["CP"], ["IC"] and ["TA"]) the territory
    module returns the subdivision that the table maps the key to and the
    address module returns no answer. *)
Theorem default_subdivision_codes_agree (k : string) :
  (~ In k (keys Territory.COUNTRY_ALIAS_TO_SUBDIVISION) ->
   Address.default_subdivision_code k = Territory.default_subdivision_code k)
  /\ (forall s,
        get Territory.COUNTRY_ALIAS_TO_SUBDIVISION k = Some s ->
        Territory.default_subdivision_code k = Some s
        /\ Address.default_subdivision_code k = None)
  /\ (In k (keys Territory.COUNTRY_ALIAS_TO_SUBDIVISION) <->
      k = "AC" \/ k = "CP" \/ k = "IC" \/ k = "TA").
Proof.
  split; [|split].
  - intros Hk.
    destruct (mem k indexed_countries) eqn:E.
    + apply (proj1 (mem_In _ _)) in E.
      pose proof default_subdivision_codes_agree_on_indexed as H.
      rewrite forallb_forall in H. specialize (H k E).
      apply orb_prop in H. destruct H as [H|H].
      * apply (proj1 (mem_In _ _)) in H. destruct (Hk H).
      * apply option_eqb_eq. exact H.
    + assert (Hn : ~ In k indexed_countries).
      { intros Hin. apply (proj2 (mem_In _ _)) in Hin. rewrite E in Hin.
        discriminate Hin. }
      unfold indexed_countries in Hn.
      assert (H1 : get default_subdiv k = None).
      { apply get_None_keys. intros Hin. apply Hn, in_or_app. left. exact Hin. }
      assert (H2 : get Address.DEFAULT_SUBDIVISIONS k = None).
      { apply get_None_keys. intros Hin. apply Hn, in_or_app. right. exact Hin. }
      unfold Address.default_subdivision_code. rewrite H2.
      rewrite (default_subdivision_code_members k).
      unfold members. rewrite H1. reflexivity.
  - intros s Hget. apply get_In in Hget.
    pose proof alias_defaults_split as H.
    rewrite forallb_forall in H. specialize (H (k, s) Hget).
    cbn [fst snd] in H. apply andb_prop in H. destruct H as [H1 H2].
    split; apply option_eqb_eq; assumption.
  - cbn [Territory.COUNTRY_ALIAS_TO_SUBDIVISION keys List.map fst In].
    split.
    + intros [H|[H|[H|[H|[]]]]]; subst k; tauto.
    + intros [H|[H|[H|H]]]; subst k; tauto.
Qed.

Lemma default_subdivision_codes_agree_witness :
  (~ In "BQ" (keys Territory.COUNTRY_ALIAS_TO_SUBDIVISION)
   /\ Address.default_subdivision_code "BQ"
      = Territory.default_subdivision_code "BQ")
  /\ (Territory.default_subdivision_code "AC" = Some "SH-AC"
      /\ Address.default_subdivision_code "AC" = None)
  /\ (Territory.default_subdivision_code "CP" = Some "FR-CP"
      /\ Address.default_subdivision_code "CP" = None)
  /\ (Territory.default_subdivision_code "IC" = Some "ES-CN"
      /\ Address.default_subdivision_code "IC" = None)
  /\ (Territory.default_subdivision_code "TA" = Some "SH-TA"
      /\ Address.default_subdivision_code "TA" = None).
Proof.
  assert (H : ~ In "BQ" (keys Territory.COUNTRY_ALIAS_TO_SUBDIVISION)).
  { simpl. intros [H|[H|[H|[H|[]]]]]; discriminate H. }
  split; [split; [exact H|]|split; [|split; [|split]]].
  - exact (proj1 (default_subdivision_codes_agree "BQ") H).
  - exact (proj1 (proj2 (default_subdivision_codes_agree "AC")) "SH-AC" eq_refl).
  - exact (proj1 (proj2 (default_subdivision_codes_agree "CP")) "FR-CP" eq_refl).
  - exact (proj1 (proj2 (default_subdivision_codes_agree "IC")) "ES-CN" eq_refl).
  - exact (proj1 (proj2 (default_subdivision_codes_agree "TA")) "SH-TA" eq_refl).
Defined.

(** ** [Address.validate] *)

Lemma subdivision_eqb_eq (a b : Subdivision) :
  Address.subdivision_eqb a b = true <-> a = b.
Proof.
  destruct a as [a1 a2 a3 a4 a5], b as [b1 b2 b3 b4 b5].
  unfold Address.subdivision_eqb. simpl.
  rewrite !andb_true_iff, !String.eqb_eq. split.
  - intros [[[[-> ->] ->] ->] ->]. reflexivity.
  - intros H. inversion H. auto.
Qed.

Lemma value_eqb_eq (a b : value) : Address.value_eqb a b = true <-> a = b.
Proof.
  destruct a as [x|x], b as [y|y]; simpl.
  - rewrite String.eqb_eq. split; [now intros ->|now inversion 1].
  - split; discriminate.
  - split; discriminate.
  - rewrite subdivision_eqb_eq. split; [now intros ->|now inversion 1].
Qed.

Lemma subdivisions_get_Ok (db : Database) (c : string) (s : Subdivision) :
  subdivisions_get db c = Ok s -> In s (subdivisions db) /\ code s = c.
Proof.
  unfold subdivisions_get.
  destruct (find _ (subdivisions db)) as [s'|] eqn:E; [|discriminate].
  intros H. inversion H. subst s'. apply find_some in E.
  destruct E as [Hin Heq]. apply String.eqb_eq in Heq. auto.
Qed.

Lemma subdivisions_get_Raise (db : Database) (c : string) (e : error) :
  subdivisions_get db c = Raise e ->
  e = KeyError c /\ forall s, In s (subdivisions db) -> code s <> c.
Proof.
  unfold subdivisions_get.
  destruct (find _ (subdivisions db)) as [s'|] eqn:E; [discriminate|].
  intros H. inversion H. split; [reflexivity|].
  intros s Hin Heq. apply (find_none _ _ E) in Hin.
  apply String.eqb_neq in Hin. contradiction.
Qed.

Lemma countries_get_Ok (db : Database) (c : string) (k : Country) :
  countries_get db c = Ok k -> In k (countries db) /\ alpha_2 k = c.
Proof.
  unfold countries_get.
  destruct (find _ (countries db)) as [k'|] eqn:E; [|discriminate].
  intros H. inversion H. subst k'. apply find_some in E.
  destruct E as [Hin Heq]. apply String.eqb_eq in Heq. auto.
Qed.

Lemma countries_get_Raise (db : Database) (c : string) (e : error) :
  countries_get db c = Raise e ->
  e = KeyError c /\ forall k, In k (countries db) -> alpha_2 k <> c.
Proof.
  unfold countries_get.
  destruct (find _ (countries db)) as [k'|] eqn:E; [discriminate|].
  intros H. inversion H. split; [reflexivity|].
  intros k Hin Heq. apply (find_none _ _ E) in Hin.
  apply String.eqb_neq in Hin. contradiction.
Qed.

Lemma subdivision_known_get (db : Database) (v : value) :
  subdivision_known db v <->
  exists s, Address.subdivisions_get_value db v = Ok s.
Proof.
  split.
  - intros [s [Hin ->]]. simpl.
    destruct (subdivisions_get db (code s)) as [s'|e] eqn:E; [now exists s'|].
    apply subdivisions_get_Raise in E. destruct E as [_ E].
    exfalso. exact (E s Hin eq_refl).
  - intros [s H]. destruct v as [c|x]; [|discriminate]. simpl in H.
    apply subdivisions_get_Ok in H. destruct H as [Hin <-]. now exists s.
Qed.

Lemma country_known_get (db : Database) (v : value) :
  country_known db v <-> exists k, Address.countries_get_value db v = Ok k.
Proof.
  split.
  - intros [k [Hin ->]]. simpl.
    destruct (countries_get db (alpha_2 k)) as [k'|e] eqn:E; [now exists k'|].
    apply countries_get_Raise in E. destruct E as [_ E].
    exfalso. exact (E k Hin eq_refl).
  - intros [k H]. destruct v as [c|x]; [|discriminate]. simpl in H.
    apply countries_get_Ok in H. destruct H as [Hin <-]. now exists k.
Qed.

(** Once an exception is raised the rest of a loop is skipped. *)
Lemma fold_left_raise (A B : Type) (g : result B -> A -> result B)
  (items : list A) (e : error) :
  (forall a, g (Raise e) a = Raise e) ->
  fold_left g items (Raise e) = Raise e.
Proof.
  intros Hg. induction items as [|a rest IH]; simpl; [reflexivity|].
  now rewrite Hg.
Qed.

Lemma check_required_fields_spec
  (db : Database) (self : Address.components) (fields : list string) :
  (Address.check_required_fields fields self = Ok tt
   /\ forall f, In f fields -> ~ absent self f)
  \/ (exists f, In f fields /\ absent self f
                /\ Address.check_required_fields fields self
                   = Raise (MissingRequiredField f)).
Proof.
  unfold absent, Address.check_required_fields.
  induction fields as [|f rest IH]; simpl.
  - left. split; [reflexivity|]. intros f [].
  - destruct (Address.truthy (Address.getattr self f)) eqn:E; simpl.
    + destruct IH as [[Hok Hall]|[f' [Hin [Habs Hr]]]].
      * left. split; [exact Hok|].
        intros f' [<-|Hin]; [congruence|now apply Hall].
      * right. exists f'. auto.
    + right. exists f. split; [now left|]. split; [exact E|].
      now apply fold_left_raise.
Qed.

Lemma is_set_or_absent (self : Address.components) (field : string) :
  absent self field \/ exists v, is_set self field v.
Proof.
  unfold absent, is_set.
  destruct (Address.getattr self field) as [v|]; [|now left].
  destruct (Address.truthy (Some v)) eqn:E; [right; now exists v|now left].
Qed.

Lemma is_set_not_absent (self : Address.components) (field : string) (v : value) :
  is_set self field v -> absent self field -> False.
Proof. unfold is_set, absent. intros [-> H] H'. congruence. Qed.

Lemma is_set_unique (self : Address.components) (field : string) (v w : value) :
  is_set self field v -> is_set self field w -> v = w.
Proof. unfold is_set. intros [H _] [H' _]. congruence. Qed.

Lemma check_subdivision_code_spec (db : Database) (self : Address.components) :
  (Address.check_subdivision_code db self = Ok tt
   /\ (absent self "subdivision_code"
       \/ exists s, is_set self "subdivision_code" s /\ subdivision_known db s))
  \/ (exists s, is_set self "subdivision_code" s /\ ~ subdivision_known db s
                /\ Address.check_subdivision_code db self
                   = Raise (InvalidSubdivisionCode s)).
Proof.
  unfold Address.check_subdivision_code, absent, is_set.
  destruct (Address.getattr self "subdivision_code") as [v|]; [|left; auto].
  destruct (Address.truthy (Some v)) eqn:E; [|left; auto].
  destruct (Address.subdivisions_get_value db v) as [s|e] eqn:G.
  - left. split; [reflexivity|]. right. exists v. split; [auto|].
    apply subdivision_known_get. now exists s.
  - right. exists v. split; [auto|]. split; [|reflexivity].
    intros H. apply subdivision_known_get in H. destruct H as [s H]. congruence.
Qed.

Lemma check_country_code_spec (db : Database) (self : Address.components) :
  (Address.check_country_code db self = Ok tt
   /\ (absent self "country_code"
       \/ exists c, is_set self "country_code" c /\ country_known db c))
  \/ (exists c, is_set self "country_code" c /\ ~ country_known db c
                /\ Address.check_country_code db self
                   = Raise (InvalidCountryCode c)).
Proof.
  unfold Address.check_country_code, absent, is_set.
  destruct (Address.getattr self "country_code") as [v|]; [|left; auto].
  destruct (Address.truthy (Some v)) eqn:E; [|left; auto].
  destruct (Address.countries_get_value db v) as [k|e] eqn:G.
  - left. split; [reflexivity|]. right. exists v. split; [auto|].
    apply country_known_get. now exists k.
  - right. exists v. split; [auto|]. split; [|reflexivity].
    intros H. apply country_known_get in H. destruct H as [k H]. congruence.
Qed.

Lemma normalize_country_code_known (db : Database) (s : value) :
  subdivision_known db s -> exists n, Address.normalize_country_code db s = Ok n.
Proof.
  intros H. apply subdivision_known_get in H. destruct H as [x H].
  unfold Address.normalize_country_code. rewrite H. simpl. eauto.
Qed.

Lemma check_consistency_spec (db : Database) (self : Address.components) :
  (absent self "subdivision_code"
   \/ exists s, is_set self "subdivision_code" s /\ subdivision_known db s) ->
  (Address.check_consistency db self = Ok tt
   /\ forall c s,
        is_set self "country_code" c -> is_set self "subdivision_code" s ->
        Address.normalize_country_code db s = Ok c)
  \/ (exists c s n,
        is_set self "country_code" c /\ is_set self "subdivision_code" s
        /\ Address.normalize_country_code db s = Ok n /\ n <> c
        /\ Address.check_consistency db self
           = Raise (CountrySubdivisionMismatch c s)).
Proof.
  intros Hsub.
  destruct (is_set_or_absent self "country_code") as [Hc|[c Hc]].
  { left. split.
    - unfold Address.check_consistency. unfold absent in Hc.
      destruct (Address.getattr self "country_code") as [c|]; [|reflexivity].
      destruct (Address.getattr self "subdivision_code") as [s|]; [|reflexivity].
      now rewrite Hc.
    - intros c s H. destruct (is_set_not_absent _ _ _ H Hc). }
  destruct Hsub as [Hs|[s [Hs Hknown]]].
  { left. split.
    - unfold Address.check_consistency. unfold absent in Hs.
      destruct (Address.getattr self "country_code") as [c'|]; [|reflexivity].
      destruct (Address.getattr self "subdivision_code") as [s|]; [|reflexivity].
      rewrite Hs. now rewrite andb_false_r.
    - intros c' s _ H. destruct (is_set_not_absent _ _ _ H Hs). }
  destruct (normalize_country_code_known db s Hknown) as [n Hn].
  unfold Address.check_consistency.
  destruct Hc as [Gc Tc], Hs as [Gs Ts].
  rewrite Gc, Gs, Tc, Ts, Hn. simpl.
  destruct (Address.value_eqb n c) eqn:E; simpl.
  - left. split; [reflexivity|]. intros c' s' [Gc' _] [Gs' _].
    apply value_eqb_eq in E. congruence.
  - right. exists c, s, n. repeat split; auto.
    intros ->. assert (H : Address.value_eqb c c = true) by now apply value_eqb_eq.
    congruence.
Qed.

Lemma normalize_country_code_resolved (db : Database) (s n : value) :
  Address.normalize_country_code db s = Ok n <-> resolved_country db s n.
Proof.
  unfold Address.normalize_country_code, resolved_country,
    Address.subdivisions_get_value.
  destruct s as [c|x].
  - destruct (subdivisions_get db c) as [subdiv|e] eqn:E; cbn [bind].
    + unfold get_default. split.
      * intros H. injection H as <-. exists c, subdiv.
        split; [reflexivity|]. split; [exact E|reflexivity].
      * intros [c' [subdiv' [Hs [Hget Hn]]]]. injection Hs as <-.
        rewrite E in Hget. injection Hget as <-. rewrite Hn. reflexivity.
    + split; [intros H; discriminate H|].
      intros [c' [subdiv' [Hs [Hget _]]]]. injection Hs as <-.
      rewrite E in Hget. discriminate Hget.
  - cbn [bind]. split; [intros H; discriminate H|].
    intros [c' [subdiv' [Hs _]]]. discriminate Hs.
Qed.

Lemma resolved_country_unique (db : Database) (s n n' : value) :
  resolved_country db s n -> resolved_country db s n' -> n = n'.
Proof.
  intros H H'. apply normalize_country_code_resolved in H, H'.
  rewrite H in H'. injection H' as H'. exact H'.
Qed.

Lemma check_subdivision_code_fails
  (db : Database) (self : Address.components) (s : value) :
  unknown_subdivision db self s ->
  Address.check_subdivision_code db self = Raise (InvalidSubdivisionCode s).
Proof.
  intros [Hs Hunk].
  destruct (check_subdivision_code_spec db self)
    as [[_ [Habs|[s' [Hs' Hknown]]]]|[s' [Hs' [_ H]]]].
  - destruct (is_set_not_absent _ _ _ Hs Habs).
  - rewrite (is_set_unique _ _ _ _ Hs Hs') in Hunk. destruct (Hunk Hknown).
  - rewrite (is_set_unique _ _ _ _ Hs Hs'). exact H.
Qed.

Lemma check_subdivision_code_passes
  (db : Database) (self : Address.components) :
  (forall s, ~ unknown_subdivision db self s) ->
  Address.check_subdivision_code db self = Ok tt
  /\ subdivision_code_ok db self.
Proof.
  intros Hnone.
  destruct (check_subdivision_code_spec db self)
    as [[H Hok]|[s [Hs [Hunk _]]]].
  - split; [exact H|exact Hok].
  - destruct (Hnone s (conj Hs Hunk)).
Qed.

Lemma check_country_code_fails
  (db : Database) (self : Address.components) (c : value) :
  unknown_country db self c ->
  Address.check_country_code db self = Raise (InvalidCountryCode c).
Proof.
  intros [Hc Hunk].
  destruct (check_country_code_spec db self)
    as [[_ [Habs|[c' [Hc' Hknown]]]]|[c' [Hc' [_ H]]]].
  - destruct (is_set_not_absent _ _ _ Hc Habs).
  - rewrite (is_set_unique _ _ _ _ Hc Hc') in Hunk. destruct (Hunk Hknown).
  - rewrite (is_set_unique _ _ _ _ Hc Hc'). exact H.
Qed.

Lemma check_country_code_passes
  (db : Database) (self : Address.components) :
  (forall c, ~ unknown_country db self c) ->
  Address.check_country_code db self = Ok tt /\ country_code_ok db self.
Proof.
  intros Hnone.
  destruct (check_country_code_spec db self)
    as [[H Hok]|[c [Hc [Hunk _]]]].
  - split; [exact H|exact Hok].
  - destruct (Hnone c (conj Hc Hunk)).
Qed.

Lemma check_consistency_fails
  (db : Database) (self : Address.components) (c s : value) :
  subdivision_code_ok db self ->
  mismatch db self c s ->
  Address.check_consistency db self = Raise (CountrySubdivisionMismatch c s).
Proof.
  intros Hsub [Hc [Hs [n [Hn Hne]]]].
  destruct (check_consistency_spec db self Hsub)
    as [[_ Hcons]|[c' [s' [n' [Hc' [Hs' [_ [_ H]]]]]]]].
  - pose proof (Hcons c s Hc Hs) as Hn'.
    apply normalize_country_code_resolved in Hn'.
    destruct (Hne (resolved_country_unique db s n c Hn Hn')).
  - rewrite (is_set_unique _ _ _ _ Hc Hc'), (is_set_unique _ _ _ _ Hs Hs').
    exact H.
Qed.

Lemma check_consistency_passes
  (db : Database) (self : Address.components) :
  subdivision_code_ok db self ->
  (forall c s, ~ mismatch db self c s) ->
  Address.check_consistency db self = Ok tt.
Proof.
  intros Hsub Hnone.
  destruct (check_consistency_spec db self Hsub)
    as [[H _]|[c [s [n [Hc [Hs [Hn [Hne _]]]]]]]]; [exact H|].
  apply normalize_country_code_resolved in Hn.
  exfalso. apply (Hnone c s). split; [exact Hc|]. split; [exact Hs|].
  exists n. split; [exact Hn|exact Hne].
Qed.

Lemma check_required_fields_fails
  (db : Database) (self : Address.components) (fields : list string) :
  Permutation fields Address.REQUIRED_FIELDS ->
  (exists f, missing self f) ->
  exists f, missing self f
            /\ Address.check_required_fields fields self
               = Raise (MissingRequiredField f).
Proof.
  intros Hperm [f [Hin Habs]].
  destruct (check_required_fields_spec db self fields)
    as [[_ Hall]|[f' [Hin' [Habs' H]]]].
  - destruct (Hall f (Permutation_in f (Permutation_sym Hperm) Hin) Habs).
  - exists f'. split; [|exact H].
    split; [exact (Permutation_in f' Hperm Hin')|exact Habs'].
Qed.

Lemma check_required_fields_passes
  (db : Database) (self : Address.components) (fields : list string) :
  Permutation fields Address.REQUIRED_FIELDS ->
  (forall f, ~ missing self f) ->
  Address.check_required_fields fields self = Ok tt.
Proof.
  intros Hperm Hnone.
  destruct (check_required_fields_spec db self fields)
    as [[H _]|[f [Hin [Habs _]]]]; [exact H|].
  destruct (Hnone f (conj (Permutation_in f Hperm Hin) Habs)).
Qed.

(** C8. [validate] raises the first failure that applies, in this order:
    the invalid-subdivision error when the subdivision code is set and not
    in the database; otherwise the invalid-country error when the country
    code is set and not in the database; otherwise the mismatch error when
    both codes are set and the resolved parent country of the subdivision
    (its entry in the subdivision/country overlaps, else the country code
    that the database files it under) differs from the country code;
    otherwise the missing-field error, naming a required field that is
    absent, when one of [line1], [postal_code], [city_name], [country_code]
    is absent; and it returns without error in every other state.  The
    required fields are visited in any order. *)
Theorem validate_spec
  (db : Database) (fields : list string) (self : Address.components) :
  Permutation fields Address.REQUIRED_FIELDS ->
  (forall s,
     unknown_subdivision db self s ->
     Address.validate db fields self = Raise (InvalidSubdivisionCode s))
  /\ ((forall s, ~ unknown_subdivision db self s) ->
      forall c,
        unknown_country db self c ->
        Address.validate db fields self = Raise (InvalidCountryCode c))
  /\ ((forall s, ~ unknown_subdivision db self s) ->
      (forall c, ~ unknown_country db self c) ->
      forall c s,
        mismatch db self c s ->
        Address.validate db fields self
        = Raise (CountrySubdivisionMismatch c s))
  /\ ((forall s, ~ unknown_subdivision db self s) ->
      (forall c, ~ unknown_country db self c) ->
      (forall c s, ~ mismatch db self c s) ->
      (exists f, missing self f) ->
      exists f,
        missing self f
        /\ Address.validate db fields self = Raise (MissingRequiredField f))
  /\ ((forall s, ~ unknown_subdivision db self s) ->
      (forall c, ~ unknown_country db self c) ->
      (forall c s, ~ mismatch db self c s) ->
      (forall f, ~ missing self f) ->
      Address.validate db fields self = Ok tt).
Proof.
  intros Hperm. unfold Address.validate.
  split; [|split; [|split; [|split]]].
  - intros s Hs. rewrite (check_subdivision_code_fails db self s Hs).
    reflexivity.
  - intros H1 c Hc.
    destruct (check_subdivision_code_passes db self H1) as [-> _].
    cbn [bind]. rewrite (check_country_code_fails db self c Hc). reflexivity.
  - intros H1 H2 c s Hm.
    destruct (check_subdivision_code_passes db self H1) as [-> Hsub].
    destruct (check_country_code_passes db self H2) as [-> _].
    cbn [bind]. rewrite (check_consistency_fails db self c s Hsub Hm).
    reflexivity.
  - intros H1 H2 H3 H4.
    destruct (check_subdivision_code_passes db self H1) as [-> Hsub].
    destruct (check_country_code_passes db self H2) as [-> _].
    rewrite (check_consistency_passes db self Hsub H3). cbn [bind].
    exact (check_required_fields_fails db self fields Hperm H4).
  - intros H1 H2 H3 H4.
    destruct (check_subdivision_code_passes db self H1) as [-> Hsub].
    destruct (check_country_code_passes db self H2) as [-> _].
    rewrite (check_consistency_passes db self Hsub H3). cbn [bind].
    exact (check_required_fields_passes db self fields Hperm H4).
Qed.

Lemma validate_spec_witness :
  Permutation Address.REQUIRED_FIELDS Address.REQUIRED_FIELDS
  /\ Address.validate sample_db Address.REQUIRED_FIELDS cupertino = Ok tt
  /\ Address.validate sample_db Address.REQUIRED_FIELDS nowhere
     = Raise (InvalidSubdivisionCode (VStr "ZZ-1")).
Proof.
  split; [apply Permutation_refl|]. split.
  - apply (proj2 (proj2 (proj2 (proj2
             (validate_spec sample_db Address.REQUIRED_FIELDS cupertino
                (Permutation_refl _)))))).
    + intros s [[Hget _] Hunk]. vm_compute in Hget. injection Hget as <-.
      apply Hunk. apply subdivision_known_get. eexists. vm_compute.
      reflexivity.
    + intros c [[Hget _] Hunk]. vm_compute in Hget. injection Hget as <-.
      apply Hunk. apply country_known_get. eexists. vm_compute.
      reflexivity.
    + intros c s [[Hc _] [[Hs _] [n [Hn Hne]]]].
      vm_compute in Hc. injection Hc as <-.
      vm_compute in Hs. injection Hs as <-.
      apply normalize_country_code_resolved in Hn. vm_compute in Hn.
      injection Hn as <-. exact (Hne eq_refl).
    + intros f [Hin Habs]. unfold absent in Habs.
      destruct Hin as [<-|[<-|[<-|[<-|[]]]]]; vm_compute in Habs;
        discriminate Habs.
  - apply (proj1 (validate_spec sample_db Address.REQUIRED_FIELDS nowhere
                    (Permutation_refl _))).
    split; [split; reflexivity|].
    intros H. apply subdivision_known_get in H. destruct H as [x H].
    vm_compute in H. discriminate H.
Defined.

(** ** [subdivision_metadata] *)

Lemma In_keys_set_item (V : Type) (d : dict V) (k k' : string) (v : V) :
  In k' (keys (set_item d k v)) <-> In k' (keys d) \/ k' = k.
Proof.
  induction d as [|[k0 v0] rest IH]; simpl.
  - split; [intros [H|[]]; auto|intros [[]|H]; auto].
  - destruct (String.eqb k k0) eqn:E; simpl.
    + apply String.eqb_eq in E. subst k0. split; [tauto|].
      intros [H|H]; [exact H|left; now subst].
    + unfold keys in IH. rewrite IH. tauto.
Qed.

Lemma In_keys_update (V : Type) (e : dict V) :
  forall (d : dict V) (k : string),
    In k (keys (update d e)) <-> In k (keys d) \/ In k (keys e).
Proof.
  unfold update. induction e as [|[k0 v0] rest IH]; intros d k; simpl.
  - tauto.
  - rewrite IH, In_keys_set_item. unfold keys. simpl. split.
    + intros [[H|H]|H]; auto.
    + intros [H|[H|H]]; auto.
Qed.

(** No base component identifier ends in [_type_name]. *)
Lemma type_name_not_base (t : string) :
  mem (t ++ "_type_name") Address.BASE_COMPONENT_IDS = false.
Proof.
  destruct (mem _ Address.BASE_COMPONENT_IDS) eqn:E; [|reflexivity].
  exfalso. apply mem_In in E. simpl in E.
  destruct E as [E|[E|[E|[E|[E|[E|[]]]]]]]; symmetry in E;
    repeat (destruct t as [|? t]; simpl in E;
            first [discriminate E|injection E as _ E]).
Qed.

Lemma type_name_not_whitelisted (t : string) :
  mem (t ++ "_type_name") Address.SUBDIVISION_METADATA_WHITELIST = false.
Proof.
  destruct (mem _ Address.SUBDIVISION_METADATA_WHITELIST) eqn:E; [|reflexivity].
  exfalso. apply mem_In in E. simpl in E.
  destruct E as [E|[]]. symmetry in E.
  repeat (destruct t as [|? t]; simpl in E;
          first [discriminate E|injection E as _ E]).
Qed.

(** The assertion of [subdivision_metadata] holds whatever the type of the
    subdivision is: it only asks for one identifier outside the base
    components, and the [_type_name] identifier is always one. *)
Lemma subdivision_metadata_never_fails (s : Subdivision) :
  exists metadata, Address.subdivision_metadata s = Ok metadata.
Proof.
  unfold Address.subdivision_metadata. cbv zeta.
  set (t := Address.subdivision_type_id s).
  set (metadata := update [] _).
  assert (Hin : In (t ++ "_type_name")%string (keys metadata)).
  { unfold metadata. apply In_keys_update. right. simpl. auto. }
  assert (Hsub : Address.issubset
                   (Address.difference (keys metadata)
                      Address.SUBDIVISION_METADATA_WHITELIST)
                   Address.BASE_COMPONENT_IDS = false).
  { unfold Address.issubset, Address.difference.
    destruct (forallb _ _) eqn:E; [|reflexivity].
    rewrite forallb_forall in E.
    specialize (E (t ++ "_type_name")%string).
    rewrite type_name_not_base in E. symmetry. apply E.
    apply filter_In. split; [exact Hin|].
    now rewrite type_name_not_whitelisted. }
  rewrite Hsub. simpl. now exists metadata.
Qed.

(** C5: the code at the failing input. The metadata computed for England
    files its code under [country_code], a base component identifier that
    is not whitelisted, and the assertion that should reject the collision
    lets it through, as it does for every subdivision; an address built for
    that subdivision ends with England's code as its country code. *)
Theorem subdivision_metadata_collision :
  (forall s, exists metadata, Address.subdivision_metadata s = Ok metadata)
  /\ (exists metadata,
        Address.subdivision_metadata england = Ok metadata
        /\ get metadata "country_code" = Some (VStr "GB-ENG")
        /\ In "country_code" Address.BASE_COMPONENT_IDS
        /\ ~ In "country_code" Address.SUBDIVISION_METADATA_WHITELIST)
  /\ (exists self,
        Address.init sample_db 2
          [("subdivision_code", Some "GB-ENG"); ("country_code", Some "GB")]
        = Some (Ok self)
        /\ Address.getattr self "country_code" = Some (VStr "GB-ENG")).
Proof.
  split; [exact subdivision_metadata_never_fails|]. split.
  - eexists. split; [reflexivity|]. split; [reflexivity|].
    split; [simpl; tauto|].
    simpl. intros [H|[]]. discriminate H.
  - eexists. split; [vm_compute; reflexivity|reflexivity].
Qed.

(** ** The overwrite guard of [Address.normalize] *)

Lemma check_overwrite_spec
  (db : Database) (self : Address.components) (sc : value)
  (subdiv : Subdivision) (component_id : string) (new : value) :
  Address.getattr self "subdivision_code" = Some sc ->
  Address.subdivisions_get_value db sc = Ok subdiv ->
  (blank new
   /\ Address.check_overwrite db self component_id new = Raise AssertionError)
  \/ (~ blank new
      /\ Address.check_overwrite db self component_id new = Ok tt
      /\ forall current, collides self component_id current ->
                         permitted subdiv component_id current new)
  \/ (~ blank new
      /\ exists current,
           collides self component_id current
           /\ ~ permitted subdiv component_id current new
           /\ Address.check_overwrite db self component_id new
              = Raise (ConflictingTerritoryMetadata
                         (Some sc) component_id current new)).
Proof.
  intros Hsc Hget. unfold Address.check_overwrite, blank.
  destruct (Address.truthy (Some new)) eqn:Hnew; cbn [negb]; [|left; auto].
  right.
  assert (Hnb : true <> false) by discriminate.
  destruct (Address.getattr self component_id) as [current|] eqn:Hcur.
  2:{ left. split; [exact Hnb|]. split; [reflexivity|].
      intros current [[H _] _]. congruence. }
  destruct (Address.truthy (Some current)) eqn:Tcur; cbn [andb].
  2:{ left. split; [exact Hnb|]. split; [reflexivity|].
      intros c [[H T] _]. congruence. }
  destruct (mem component_id Address.BASE_COMPONENT_IDS) eqn:Hbase.
  2:{ left. split; [exact Hnb|]. split; [reflexivity|].
      intros c [_ H]. apply mem_In in H. congruence. }
  apply mem_In in Hbase.
  assert (Hcol : collides self component_id current)
    by (unfold collides, is_set; auto).
  assert (Honly : forall c, collides self component_id c -> c = current).
  { intros c [[H _] _]. congruence. }
  rewrite Hsc. unfold Address.subdivisions_get_attr. rewrite Hget.
  destruct (String.eqb component_id "country_code") eqn:Hid;
    cbn [bind existsb].
  - apply String.eqb_eq in Hid.
    destruct (Address.value_eqb current new) eqn:E1; cbn [orb negb].
    + left. split; [exact Hnb|]. split; [reflexivity|].
      intros c Hc. rewrite (Honly c Hc). left. now apply value_eqb_eq.
    + destruct (Address.value_eqb current (VStr (country_code subdiv))) eqn:E2;
        simpl.
      * left. split; [exact Hnb|]. split; [reflexivity|].
        intros c Hc. rewrite (Honly c Hc). right.
        split; [exact Hid|now apply value_eqb_eq].
      * right. split; [exact Hnb|]. exists current. split; [exact Hcol|].
        split; [|reflexivity].
        intros [H|[_ H]]; apply value_eqb_eq in H; congruence.
  - apply String.eqb_neq in Hid.
    destruct (Address.value_eqb current new) eqn:E1; cbn [orb negb].
    + left. split; [exact Hnb|]. split; [reflexivity|].
      intros c Hc. rewrite (Honly c Hc). left. now apply value_eqb_eq.
    + right. split; [exact Hnb|]. exists current. split; [exact Hcol|].
      split; [|reflexivity].
      intros [H|[H _]]; [apply value_eqb_eq in H; congruence|contradiction].
Qed.

Lemma check_overwrites_spec
  (db : Database) (self : Address.components) (sc : value)
  (subdiv : Subdivision) (metadata : dict value) :
  Address.getattr self "subdivision_code" = Some sc ->
  Address.subdivisions_get_value db sc = Ok subdiv ->
  (Address.check_overwrites db self metadata = Ok tt
   /\ forall component_id new,
        In (component_id, new) metadata ->
        ~ blank new
        /\ forall current, collides self component_id current ->
                           permitted subdiv component_id current new)
  \/ (exists component_id new current,
        In (component_id, new) metadata
        /\ collides self component_id current
        /\ ~ permitted subdiv component_id current new
        /\ Address.check_overwrites db self metadata
           = Raise (ConflictingTerritoryMetadata
                      (Some sc) component_id current new))
  \/ (Address.check_overwrites db self metadata = Raise AssertionError
      /\ exists component_id new,
           In (component_id, new) metadata /\ blank new).
Proof.
  intros Hsc Hget. unfold Address.check_overwrites.
  induction metadata as [|[id new] rest IH]; simpl.
  - left. split; [reflexivity|]. intros ? ? [].
  - destruct (check_overwrite_spec db self sc subdiv id new Hsc Hget)
      as [[Hb ->]|[[Hnb [-> Hperm]]|[Hnb [cur [Hcol [Hnp ->]]]]]].
    + right. right. split.
      * now apply fold_left_raise.
      * exists id, new. auto.
    + destruct IH as [[Hok Hall]|[[id' [new' [cur [Hin [Hcol [Hnp Hr]]]]]]
                                 |[Hr [id' [new' [Hin Hb]]]]]].
      * left. split; [exact Hok|].
        intros id' new' [H|H]; [inversion H; subst; auto|now apply Hall].
      * right. left. exists id', new', cur. auto.
      * right. right. split; [exact Hr|]. exists id', new'. auto.
    + right. left. exists id, new, cur.
      split; [now left|]. split; [exact Hcol|]. split; [exact Hnp|].
      now apply fold_left_raise.
Qed.

Lemma parent_metadata_known
  (db : Database) (fuel : nat) (sc : value) (metadata : dict value) :
  Address.parent_metadata db fuel sc = Some (Ok metadata) ->
  exists subdiv, Address.subdivisions_get_value db sc = Ok subdiv.
Proof.
  unfold Address.parent_metadata, Address.normalize_country_code.
  destruct (Address.subdivisions_get_value db sc) as [subdiv|e]; simpl.
  - intros _. now exists subdiv.
  - discriminate.
Qed.

(** C4, amended. While an address is normalized, a derived metadata value
    may overwrite a base component that is set only when the component
    already holds that value or, for the country code, the country code
    that the database gives for the subdivision of the address; otherwise
    normalization fails with the conflicting-metadata error that names the
    component and both values.  (A blank derived value fails the assertion
    of the loop instead.)  In particular an address with subdivision US-CA
    and country FR fails with that error. *)
Theorem normalize_overwrite_guard
  (db : Database) (fuel : nat) (self prepared : Address.components)
  (sc : value) (metadata : dict value) :
  Address.prepare self = Ok prepared ->
  is_set prepared "subdivision_code" sc ->
  Address.parent_metadata db fuel sc = Some (Ok metadata) ->
  exists subdiv,
    Address.subdivisions_get_value db sc = Ok subdiv
    /\ ((Address.normalize db fuel self
         = Some (Ok (update prepared
                       (List.map (fun item => (fst item, Some (snd item)))
                                 metadata)))
         /\ forall component_id new,
              In (component_id, new) metadata ->
              ~ blank new
              /\ forall current, collides prepared component_id current ->
                                 permitted subdiv component_id current new)
        \/ (exists component_id new current,
              In (component_id, new) metadata
              /\ collides prepared component_id current
              /\ ~ permitted subdiv component_id current new
              /\ Address.normalize db fuel self
                 = Some (Raise (ConflictingTerritoryMetadata
                                  (Some sc) component_id current new)))
        \/ (Address.normalize db fuel self = Some (Raise AssertionError)
            /\ exists component_id new,
                 In (component_id, new) metadata /\ blank new)).
Proof.
  intros Hprep [Hsc Hts] Hmd.
  destruct (parent_metadata_known db fuel sc metadata Hmd) as [subdiv Hget].
  exists subdiv. split; [exact Hget|].
  unfold Address.normalize. rewrite Hprep. simpl.
  unfold Address.populate_metadata. rewrite Hsc, Hts, Hmd. simpl.
  destruct (check_overwrites_spec db prepared sc subdiv metadata Hsc Hget)
    as [[-> Hall]|[[id [new [cur [Hin [Hcol [Hnp ->]]]]]]
                  |[-> Hblank]]]; simpl.
  - left. auto.
  - right. left. exists id, new, cur. auto.
  - right. right. auto.
Qed.

Lemma normalize_overwrite_guard_witness :
  Address.normalize sample_db 2 california_in_france
  = Some (Raise (ConflictingTerritoryMetadata
                   (Some (VStr "US-CA")) "country_code" (VStr "FR") (VStr "US")))
  /\ Address.init sample_db 2
       [("subdivision_code", Some "US-CA"); ("country_code", Some "FR")]
     = Address.normalize sample_db 2 california_in_france.
Proof.
  split; [|reflexivity].
  assert (Hprep : Address.prepare california_in_france = Ok california_in_france)
    by reflexivity.
  assert (Hset : is_set california_in_france "subdivision_code" (VStr "US-CA"))
    by (split; reflexivity).
  destruct (normalize_overwrite_guard sample_db 2 california_in_france
              california_in_france (VStr "US-CA") _ Hprep Hset eq_refl)
    as [subdiv [_ [[H _]|[[id [new [cur [_ [_ [_ H]]]]]]|[H _]]]]];
    vm_compute in H; try discriminate H.
  vm_compute. reflexivity.
Defined.

(** C4, as stated, fails: GB belongs to the country aliases of the
    subdivision SH-AC, yet an address with that subdivision and GB as its
    country is refused. *)
Lemma normalize_refuses_country_alias :
  exists aliases,
    Territory.country_aliases sample_db 3 "SH-AC" = Some (Ok aliases)
    /\ In "GB" aliases
    /\ Address.init sample_db 2
         [("subdivision_code", Some "SH-AC"); ("country_code", Some "GB")]
       = Some (Raise (ConflictingTerritoryMetadata
                        (Some (VStr "SH-AC")) "country_code"
                        (VStr "GB") (VStr "SH"))).
Proof.
  exists ["SH"; "GB"]. split; [reflexivity|]. split; [simpl; auto|reflexivity].
Qed.

(** ** The hierarchy of a consistent database *)

Lemma distinct_NoDup (xs : list string) : distinct xs = true -> NoDup xs.
Proof.
  induction xs as [|x rest IH]; simpl; intros H.
  - constructor.
  - apply andb_prop in H. destruct H as [Hx Hrest]. constructor.
    + intros Hin. apply mem_In in Hin. rewrite Hin in Hx. discriminate Hx.
    + now apply IH.
Qed.

Lemma truthy_not_empty (s : string) : Str.truthy s = true <-> s <> "".
Proof. destruct s; simpl; split; congruence. Qed.

Section ConsistentHierarchy.
Variable db : Database.
Variable rank : string -> nat.
Hypothesis Hok : hierarchy_ok db rank = true.

Lemma codes_distinct : NoDup (List.map code (subdivisions db)).
Proof.
  unfold hierarchy_ok in Hok. apply andb_prop in Hok.
  apply distinct_NoDup, Hok.
Qed.

Lemma code_not_empty (s : Subdivision) :
  In s (subdivisions db) -> Str.truthy (code s) = true.
Proof.
  intros Hin. unfold hierarchy_ok in Hok. apply andb_prop in Hok.
  destruct Hok as [_ H]. rewrite forallb_forall in H.
  specialize (H s Hin). apply andb_prop in H. tauto.
Qed.

Lemma linked_ok (s : Subdivision) :
  In s (subdivisions db) -> Str.truthy (parent_code s) = true ->
  In (parent_code s) (List.map code (subdivisions db))
  /\ rank (parent_code s) < rank (code s)
  /\ Territory.normalize_territory_code db (code s) true false = Ok (code s)
  /\ mem (code s) (Territory.supported_country_codes db) = false.
Proof.
  intros Hin Hp. unfold hierarchy_ok in Hok. apply andb_prop in Hok.
  destruct Hok as [_ H]. rewrite forallb_forall in H.
  specialize (H s Hin). apply andb_prop in H. destruct H as [_ H].
  rewrite Hp in H. simpl in H. unfold linked_subdivision_ok in H.
  apply andb_prop in H. destruct H as [H H4].
  apply andb_prop in H. destruct H as [H H3].
  apply andb_prop in H. destruct H as [H1 H2].
  split; [now apply mem_In|]. split; [now apply Nat.ltb_lt|]. split.
  - unfold result_is in H3.
    destruct (Territory.normalize_territory_code db (code s) true false)
      as [d|e]; [|discriminate H3].
    apply String.eqb_eq in H3. now subst.
  - now apply negb_true_iff.
Qed.

(** Two subdivisions of the database with the same code are the same. *)
Lemma same_code (s s' : Subdivision) :
  In s (subdivisions db) -> In s' (subdivisions db) -> code s = code s' ->
  s = s'.
Proof.
  pose proof codes_distinct as Hnd. revert Hnd.
  induction (subdivisions db) as [|a l IH]; simpl; intros Hnd Hs Hs' Hc.
  - destruct Hs.
  - inversion Hnd as [|? ? Hnotin Hnd']. subst.
    destruct Hs as [->|Hs], Hs' as [->|Hs'].
    + reflexivity.
    + exfalso. apply Hnotin. rewrite Hc. now apply in_map.
    + exfalso. apply Hnotin. rewrite <- Hc. now apply in_map.
    + now apply IH.
Qed.

Lemma subdivisions_get_In (s : Subdivision) :
  In s (subdivisions db) -> subdivisions_get db (code s) = Ok s.
Proof.
  intros Hin. destruct (subdivisions_get db (code s)) as [s'|e] eqn:E.
  - apply subdivisions_get_Ok in E. destruct E as [Hin' Hc].
    f_equal. now apply same_code.
  - apply subdivisions_get_Raise in E. destruct E as [_ E].
    exfalso. exact (E s Hin eq_refl).
Qed.

Lemma child_of_parent (x c : string) (s : Subdivision) :
  child_of db x c -> In s (subdivisions db) -> code s = x ->
  parent_code s = c /\ Str.truthy c = true.
Proof.
  intros [s' [Hin' [Hc' [Hp' Ht]]]] Hin Hc.
  assert (s = s') by (apply same_code; congruence). subst s'. auto.
Qed.

(** The loop of [territory_parents] ends, and the tree that it builds holds
    the subdivision it starts from and everything above it. *)
Lemma parents_loop_total :
  forall (n : nat) (s : Subdivision),
    rank (code s) < n -> In s (subdivisions db) ->
    exists fuel tree last,
      (forall acc, Territory.parents_loop db fuel (code s) acc
                   = Some (Ok (acc ++ tree, last)))
      /\ In (code s) (List.map Territory.territory_code_of tree)
      /\ forall c, descends db (code s) c ->
                   In c (List.map Territory.territory_code_of tree).
Proof.
  induction n as [|n IH]; intros s Hrank Hin; [lia|].
  pose proof (code_not_empty s Hin) as Hcode.
  pose proof (subdivisions_get_In s Hin) as Hget.
  destruct (Str.truthy (parent_code s)) eqn:Hp.
  - destruct (linked_ok s Hin Hp) as [Hpin [Hlt _]].
    apply in_map_iff in Hpin. destruct Hpin as [p [Hpc Hpin]].
    destruct (IH p) as [fuel [tree [last [Hloop [Hself Habove]]]]];
      [rewrite Hpc; lia|exact Hpin|].
    exists (S fuel), (TSubdivision s :: tree), last. split; [|split].
    + intros acc. simpl. rewrite Hcode, Hget. simpl. rewrite Hp. simpl.
      rewrite <- Hpc, Hloop, <- app_assoc. reflexivity.
    + simpl. now left.
    + intros c Hdesc. simpl. right. inversion Hdesc as [? ? Hch|? q ? Hch Hd]; subst.
      * destruct (child_of_parent _ _ s Hch Hin eq_refl) as [<- _].
        now rewrite <- Hpc.
      * destruct (child_of_parent _ _ s Hch Hin eq_refl) as [<- _].
        apply Habove. now rewrite Hpc.
  - exists 1, [TSubdivision s], (code s). split; [|split].
    + intros acc. simpl. rewrite Hcode, Hget. simpl. rewrite Hp. reflexivity.
    + simpl. now left.
    + intros c Hdesc. exfalso.
      inversion Hdesc as [? ? Hch|? q ? Hch Hd]; subst;
        destruct (child_of_parent _ _ s Hch Hin eq_refl) as [<- Ht];
        congruence.
Qed.

Lemma descends_trans_child (x d c : string) :
  descends db x d -> child_of db d c -> descends db x c.
Proof.
  intros H Hc. induction H as [x d H|x p d H Hd IH].
  - eapply descends_step; [exact H|]. now apply descends_child.
  - eapply descends_step; [exact H|]. now apply IH.
Qed.

(** A code that lies below another one is the code of a linked subdivision:
    [territory_parents] accepts it as it is and walks up from it. *)
Lemma territory_parents_of_descendant (x c : string) :
  descends db x c ->
  exists fuel tree,
    Territory.territory_parents db fuel x false = Some (Ok tree)
    /\ In c (List.map Territory.territory_code_of tree).
Proof.
  intros Hdesc.
  assert (Hx : exists s, In s (subdivisions db) /\ code s = x
                         /\ Str.truthy (parent_code s) = true).
  { destruct Hdesc as [x c [s [Hin [Hc [Hp Ht]]]]|x q c [s [Hin [Hc [Hp Ht]]]] _];
      exists s; rewrite Hp; auto. }
  destruct Hx as [s [Hin [<- Hp]]].
  destruct (linked_ok s Hin Hp) as [_ [_ [Hnorm Hnc]]].
  destruct (parents_loop_total (S (rank (code s))) s (Nat.lt_succ_diag_r _) Hin)
    as [fuel [tree [last [Hloop [_ Habove]]]]].
  exists fuel, tree. split; [|now apply Habove].
  unfold Territory.territory_parents. rewrite Hnorm. simpl.
  rewrite Hnc, (Hloop []). reflexivity.
Qed.

(** *** Descent *)

Lemma In_set_update (ys : list string) :
  forall (xs : list string) (y : string),
    In y (set_update xs ys) <-> In y xs \/ In y ys.
Proof.
  unfold set_update. induction ys as [|a rest IH]; intros xs y; simpl.
  - tauto.
  - rewrite IH, In_set_add. split.
    + intros [[H|H]|H]; auto.
    + intros [H|[H|H]]; auto.
Qed.

Lemma In_direct_children (c d : string) :
  In d (set_update []
          (List.map code
             (filter (fun subdiv => String.eqb (parent_code subdiv) c)
                     (subdivisions db))))
  <-> exists s, In s (subdivisions db) /\ code s = d /\ parent_code s = c.
Proof.
  rewrite In_set_update, in_map_iff. split.
  - intros [[]|[s [Hc Hf]]]. apply filter_In in Hf. destruct Hf as [Hin Hp].
    apply String.eqb_eq in Hp. now exists s.
  - intros [s [Hin [Hc Hp]]]. right. exists s. split; [exact Hc|].
    apply filter_In. split; [exact Hin|]. now apply String.eqb_eq.
Qed.

Lemma territory_children_codes_unfold
  (fuel : nat) (territory_code : string) (include_self : bool) :
  Territory.territory_children_codes db (S fuel) territory_code include_self =
  (code' <~ Some (Territory.normalize_territory_code
                    db territory_code true false) ;;
   children_of_code db (Territory.territory_children_codes db fuel)
                    code' include_self).
Proof. reflexivity. Qed.

Section ChildrenLoop.
Variable recurse : string -> bool -> option (result (list string)).

Lemma children_step_ok (acc : list string) (child_code : string) :
  children_step recurse (Some (Ok acc)) child_code =
  (sub <~ recurse child_code true ;; Some (Ok (set_update acc sub))).
Proof. reflexivity. Qed.

Lemma children_loop_stuck (children : list string) :
  fold_left (children_step recurse) children None = None.
Proof. induction children as [|d rest IH]; simpl; [reflexivity|exact IH]. Qed.

Lemma children_loop_raise (children : list string) (e : error) :
  fold_left (children_step recurse) children (Some (Raise e)) = Some (Raise e).
Proof. induction children as [|d rest IH]; simpl; [reflexivity|exact IH]. Qed.

Lemma children_loop_sound (children : list string) :
  forall acc res,
    fold_left (children_step recurse) children (Some (Ok acc)) = Some (Ok res) ->
    forall x, In x res ->
      In x acc
      \/ exists d r, In d children /\ recurse d true = Some (Ok r) /\ In x r.
Proof.
  induction children as [|d rest IH]; intros acc res H x Hx;
    cbn [fold_left] in H.
  - inversion H. subst. now left.
  - rewrite children_step_ok in H.
    destruct (recurse d true) as [[r|e]|] eqn:E; cbn [fbind] in H.
    + destruct (IH _ _ H x Hx) as [Hacc|[d' [r' [Hin [Hr Hxr]]]]].
      * apply In_set_update in Hacc. destruct Hacc as [Hacc|Hacc]; [now left|].
        right. exists d, r. split; [now left|auto].
      * right. exists d', r'. split; [now right|auto].
    + rewrite children_loop_raise in H. discriminate H.
    + rewrite children_loop_stuck in H. discriminate H.
Qed.

Lemma children_loop_total (children : list string) :
  (forall d, In d children -> exists r, recurse d true = Some (Ok r)) ->
  forall acc, exists res, fold_left (children_step recurse) children (Some (Ok acc)) = Some (Ok res).
Proof.
  induction children as [|d rest IH]; intros Hall acc; cbn [fold_left].
  - now exists acc.
  - destruct (Hall d (or_introl eq_refl)) as [r Hr].
    rewrite children_step_ok, Hr. cbn [fbind].
    apply IH. intros d' Hd'. apply Hall. now right.
Qed.

End ChildrenLoop.

(** Below a code that is not a country, [territory_children_codes] only
    finds codes that descend from it. *)
Lemma children_of_code_sound :
  forall (fuel : nat) (c : string) (include_self : bool) (xs : list string),
    Str.truthy c = true ->
    mem c (Territory.supported_country_codes db) = false ->
    children_of_code db (Territory.territory_children_codes db fuel)
                     c include_self = Some (Ok xs) ->
    forall x, In x xs -> (include_self = true /\ x = c) \/ descends db x c.
Proof.
  induction fuel as [|fuel IH]; intros c self xs Hc Hnc H x Hx;
    unfold children_of_code in H; rewrite Hnc in H;
    match type of H with
    | (codes <~ ?loop ;; _) = _ =>
        destruct loop as [[codes|e]|] eqn:Hloop; simpl in H;
        [|discriminate H|discriminate H]
    end;
    inversion H; subst xs; clear H;
    assert (Hcodes : In x codes -> descends db x c).
  - intros Hin.
    destruct (children_loop_sound _ _ _ _ Hloop x Hin)
      as [[]|[d [r [_ [Hr _]]]]]. discriminate Hr.
  - destruct self; [|right; auto].
    apply In_set_add in Hx. destruct Hx as [Hx|Hx]; [right|left]; auto.
  - intros Hin.
    destruct (children_loop_sound _ _ _ _ Hloop x Hin)
      as [[]|[d [r [Hd [Hr Hxr]]]]].
    apply In_direct_children in Hd. destruct Hd as [s [Hin' [Hcode Hp]]].
    assert (Hchild : child_of db d c) by (exists s; auto).
    assert (Hps : Str.truthy (parent_code s) = true) by now rewrite Hp.
    destruct (linked_ok s Hin' Hps) as [_ [_ [Hnorm Hncd]]].
    rewrite Hcode in Hnorm, Hncd.
    rewrite territory_children_codes_unfold, Hnorm in Hr. simpl in Hr.
    assert (Hd : Str.truthy d = true)
      by (rewrite <- Hcode; now apply code_not_empty).
    destruct (IH d true r Hd Hncd Hr x Hxr) as [[_ ->]|Hdesc].
    + now apply descends_child.
    + now apply descends_trans_child with d.
  - destruct self; [|right; auto].
    apply In_set_add in Hx. destruct Hx as [Hx|Hx]; [right|left]; auto.
Qed.

(** The descent ends: the ranks of the database are bounded and grow from a
    parent to its children. *)
Lemma rank_bounded (s : Subdivision) :
  In s (subdivisions db) ->
  rank (code s)
  <= list_max (List.map (fun s => rank (code s)) (subdivisions db)).
Proof.
  intros Hin.
  assert (H : Forall
                (fun k => k <= list_max (List.map (fun s => rank (code s))
                                                  (subdivisions db)))
                (List.map (fun s => rank (code s)) (subdivisions db)))
    by now apply list_max_le.
  rewrite Forall_forall in H. apply H.
  apply in_map_iff. now exists s.
Qed.

Lemma children_of_code_total :
  forall (fuel : nat) (c : string) (include_self : bool),
    Str.truthy c = true ->
    list_max (List.map (fun s => rank (code s)) (subdivisions db)) - rank c
    < fuel ->
    exists xs,
      children_of_code db (Territory.territory_children_codes db fuel)
                       c include_self = Some (Ok xs).
Proof.
  induction fuel as [|fuel IH]; intros c self Hc Hfuel; [lia|].
  unfold children_of_code.
  destruct (mem c (Territory.supported_country_codes db));
    [eexists; reflexivity|].
  match goal with
  | |- exists xs, (codes <~ fold_left _ ?l _ ;; _) = _ =>
      destruct (children_loop_total
                  (Territory.territory_children_codes db (S fuel)) l)
        with (acc := @nil string) as [res Hres]
  end.
  - intros d Hd. apply In_direct_children in Hd.
    destruct Hd as [s [Hin [Hcode Hp]]].
    assert (Hps : Str.truthy (parent_code s) = true) by now rewrite Hp.
    destruct (linked_ok s Hin Hps) as [_ [Hlt [Hnorm _]]].
    pose proof (rank_bounded s Hin) as Hle.
    rewrite Hcode in Hnorm, Hlt, Hle. rewrite Hp in Hlt.
    rewrite territory_children_codes_unfold, Hnorm. simpl.
    apply IH.
    + rewrite <- Hcode. now apply code_not_empty.
    + lia.
  - rewrite Hres. simpl. eexists; reflexivity.
Qed.

End ConsistentHierarchy.

Lemma alias_targets_not_empty :
  forallb Str.truthy alias_targets = true.
Proof. vm_compute. reflexivity. Qed.

Lemma normalized_subdivision_not_empty
  (db : Database) (rank : string -> nat) (p c : string) :
  hierarchy_ok db rank = true ->
  Territory.normalize_territory_code db p true false = Ok c ->
  mem c (Territory.supported_country_codes db) = false ->
  Str.truthy c = true.
Proof.
  intros Hok Hnorm Hnc. rewrite normalize_territory_code_unfold in Hnorm.
  cbv zeta in Hnorm.
  set (p' := Str.upper (Str.strip p)) in *.
  destruct (mem p' (Territory.supported_territory_codes db)) eqn:Hrec;
    [|discriminate Hnorm].
  injection Hnorm as Hc. change (resolution true false p' = c) in Hc.
  destruct (resolution_cases true p') as [Hsame|Htarget].
  - rewrite Hsame in Hc. subst c.
    unfold Territory.supported_territory_codes in Hrec.
    rewrite mem_app, Hnc in Hrec. simpl in Hrec.
    apply mem_In in Hrec. unfold Territory.supported_subdivision_codes in Hrec.
    apply in_map_iff in Hrec. destruct Hrec as [s [<- Hin]].
    now apply (code_not_empty db rank Hok).
  - rewrite Hc in Htarget. pose proof alias_targets_not_empty as H.
    rewrite forallb_forall in H. now apply H.
Qed.

(** C6, as stated, fails: US-CA is among the children of the country US,
    and the parents of US-CA, the country left out, are US-CA alone. *)
Lemma territory_parents_without_country_lack_country :
  Territory.territory_children_codes sample_db 1 "US" false
  = Some (Ok ["US-CA"])
  /\ Territory.territory_parents_codes sample_db 1 "US-CA" false
     = Some (Ok ["US-CA"])
  /\ ~ In "US" ["US-CA"].
Proof.
  split; [reflexivity|]. split; [reflexivity|].
  simpl. intros [H|[]]. discriminate H.
Qed.

(** C6, amended. On a database whose hierarchy is consistent, for every
    territory code that is recognized and whose normalized code [c] is not
    a country code, [territory_children_codes] returns a set of codes, and
    [c] is among the codes of the entities that [territory_parents] returns,
    the country left out, for each of them. *)
Theorem territory_children_have_parent
  (db : Database) (rank : string -> nat) (p c : string) :
  hierarchy_ok db rank = true ->
  Territory.normalize_territory_code db p true false = Ok c ->
  mem c (Territory.supported_country_codes db) = false ->
  (exists fuel xs,
     Territory.territory_children_codes db fuel p false = Some (Ok xs))
  /\ forall fuel xs x,
       Territory.territory_children_codes db fuel p false = Some (Ok xs) ->
       In x xs ->
       exists fuel' tree,
         Territory.territory_parents db fuel' x false = Some (Ok tree)
         /\ In c (List.map Territory.territory_code_of tree).
Proof.
  intros Hok Hnorm Hnc.
  pose proof (normalized_subdivision_not_empty db rank p c Hok Hnorm Hnc) as Hc.
  split.
  - set (bound := list_max (List.map (fun s => rank (code s)) (subdivisions db))).
    destruct (children_of_code_total db rank Hok (S bound) c false Hc)
      as [xs Hxs]; [fold bound; lia|].
    exists (S (S bound)), xs.
    rewrite territory_children_codes_unfold, Hnorm. exact Hxs.
  - intros fuel xs x Hxs Hx. destruct fuel as [|fuel]; [discriminate Hxs|].
    rewrite territory_children_codes_unfold, Hnorm in Hxs.
    cbn [fbind] in Hxs.
    destruct (children_of_code_sound db rank Hok fuel c false xs Hc Hnc Hxs x Hx)
      as [[H _]|Hdesc]; [discriminate H|].
    now apply (territory_parents_of_descendant db rank Hok).
Qed.

Lemma territory_children_have_parent_witness :
  hierarchy_ok sample_db sample_rank = true
  /\ Territory.territory_children_codes sample_db 2 "fr-j" false
     = Some (Ok ["FR-75"])
  /\ exists fuel' tree,
       Territory.territory_parents sample_db fuel' "FR-75" false = Some (Ok tree)
       /\ In "FR-J" (List.map Territory.territory_code_of tree).
Proof.
  assert (Hok : hierarchy_ok sample_db sample_rank = true)
    by (vm_compute; reflexivity).
  assert (Hxs : Territory.territory_children_codes sample_db 2 "fr-j" false
                = Some (Ok ["FR-75"])) by (vm_compute; reflexivity).
  split; [exact Hok|]. split; [exact Hxs|].
  exact (proj2 (territory_children_have_parent sample_db sample_rank
                  "fr-j" "FR-J" Hok eq_refl eq_refl)
               2 ["FR-75"] "FR-75" Hxs (or_introl eq_refl)).
Defined.

(** ** Termination of [country_aliases] *)

Lemma country_aliases_unfold (db : Database) (fuel : nat) (c : string) :
  Territory.country_aliases db (S fuel) c =
  (country_codes <~ aliases_first db (Territory.country_aliases db fuel) c ;;
   fold_left (aliases_step (Territory.country_aliases db fuel))
             (members Territory.REVERSE_MAPPING c)
             (Some (Ok country_codes))).
Proof. reflexivity. Qed.

Lemma has_dash_prefix (s : string) : has_dash (prefix s) = false.
Proof.
  unfold has_dash. induction s as [|a t IH]; simpl; [reflexivity|].
  destruct (Ascii.eqb a "-") eqn:E; simpl; [reflexivity|].
  now rewrite E, IH.
Qed.

Lemma country_level_lt_subdivision_level (k : string) :
  country_level k < subdivision_level k.
Proof.
  unfold subdivision_level. destruct (String.eqb k "NL") eqn:E; [|lia].
  apply String.eqb_eq in E. subst k. vm_compute. lia.
Qed.

Lemma reverse_mapping_decreases :
  forallb
    (fun item =>
       forallb (fun m => Nat.ltb (level m) (level (fst item))) (snd item))
    Territory.REVERSE_MAPPING = true.
Proof. vm_compute. reflexivity. Qed.

Lemma level_mapped (c m : string) :
  In m (members Territory.REVERSE_MAPPING c) -> level m < level c.
Proof.
  unfold members.
  destruct (get Territory.REVERSE_MAPPING c) as [ms|] eqn:E; [|intros []].
  intros Hin. apply get_In in E.
  pose proof reverse_mapping_decreases as H.
  rewrite forallb_forall in H. specialize (H _ E). cbn [fst snd] in H.
  rewrite forallb_forall in H. specialize (H _ Hin).
  apply Nat.ltb_lt. exact H.
Qed.

Section AliasesLoop.
Variable recurse : string -> option (result (list string)).

Lemma aliases_loop_returns (mapped : list string) :
  (forall m, In m mapped -> exists r, recurse m = Some r) ->
  forall acc, exists r, fold_left (aliases_step recurse) mapped (Some acc) = Some r.
Proof.
  induction mapped as [|m rest IH]; intros Hall acc; cbn [fold_left].
  - now exists acc.
  - destruct (Hall m (or_introl eq_refl)) as [r Hr].
    assert (Hstep : exists acc', aliases_step recurse (Some acc) m = Some acc').
    { unfold aliases_step. destruct acc as [codes|e]; simpl; [|eauto].
      rewrite Hr. destruct r; simpl; eauto. }
    destruct Hstep as [acc' ->]. apply IH.
    intros m' Hm'. apply Hall. now right.
Qed.

End AliasesLoop.

Section Termination.
Variable db : Database.
Variable rank : string -> nat.
Hypothesis Hshape : codes_shaped db rank = true.

Lemma shaped (c : string) (s : Subdivision) :
  subdivisions_get db c = Ok s ->
  has_dash c = true
  /\ prefix c = country_code s
  /\ (Str.truthy (parent_code s) = true ->
      has_dash (parent_code s) = true
      /\ prefix (parent_code s) = prefix c
      /\ rank (parent_code s) < rank c).
Proof.
  intros Hget. apply subdivisions_get_Ok in Hget. destruct Hget as [Hin <-].
  unfold codes_shaped in Hshape. rewrite forallb_forall in Hshape.
  specialize (Hshape s Hin). unfold subdivision_shaped in Hshape.
  apply andb_prop in Hshape. destruct Hshape as [H H3].
  apply andb_prop in H. destruct H as [H1 H2].
  apply String.eqb_eq in H2.
  split; [exact H1|]. split; [exact H2|].
  intros Hp. rewrite Hp in H3. simpl in H3.
  apply andb_prop in H3. destruct H3 as [H3 H6].
  apply andb_prop in H3. destruct H3 as [H4 H5].
  apply String.eqb_eq in H5. apply Nat.ltb_lt in H6.
  split; [exact H4|]. split; [congruence|exact H6].
Qed.

(** Fuel that suffices for every code of a list. *)
Lemma terminates_all (codes : list string) :
  (forall m, In m codes -> terminates db m) ->
  exists fuel, forall fuel', fuel <= fuel' ->
    forall m, In m codes ->
      exists r, Territory.country_aliases db fuel' m = Some r.
Proof.
  induction codes as [|m rest IH]; intros Hall.
  - exists 0. intros fuel' _ m [].
  - destruct (Hall m (or_introl eq_refl)) as [f1 H1].
    destruct IH as [f2 H2]; [intros m' Hm'; apply Hall; now right|].
    exists (Nat.max f1 f2). intros fuel' Hle m' [<-|Hm'].
    + apply H1. lia.
    + apply H2; [lia|exact Hm'].
Qed.

(** A call returns as soon as the calls that it makes return. *)
Lemma terminates_node (c : string) :
  (forall m, In m (members Territory.REVERSE_MAPPING c) -> terminates db m) ->
  (mem c (Territory.supported_country_codes db) = false ->
   forall s p, subdivisions_get db c = Ok s -> parent_or_country db s = Ok p ->
               terminates db p) ->
  terminates db c.
Proof.
  intros Hmapped Hparent.
  destruct (terminates_all _ Hmapped) as [f1 H1].
  assert (Hfirst : exists f2, forall fuel', f2 <= fuel' ->
             exists r, aliases_first db (Territory.country_aliases db fuel') c
                       = Some r).
  { unfold aliases_first.
    destruct (mem c (Territory.supported_country_codes db)) eqn:Hc;
      [exists 0; eauto|].
    destruct (subdivisions_get db c) as [s|e] eqn:Hs; cbn [fbind];
      [|exists 0; eauto].
    replace (if negb (Str.truthy (parent_code s))
             then Some (c <- country db s ;; Ok (alpha_2 c))
             else Some (Ok (parent_code s)))
      with (Some (parent_or_country db s))
      by (unfold parent_or_country; destruct (negb _); reflexivity).
    destruct (parent_or_country db s) as [p|e] eqn:Hp; cbn [fbind];
      [|exists 0; eauto].
    destruct (Hparent eq_refl s p eq_refl Hp) as [f2 H2].
    exists f2. intros fuel' Hle. destruct (H2 fuel' Hle) as [r ->].
    destruct r; cbn [fbind]; eauto. }
  destruct Hfirst as [f2 H2].
  exists (S (Nat.max f1 f2)). intros fuel' Hle.
  destruct fuel' as [|fuel']; [lia|].
  rewrite country_aliases_unfold.
  destruct (H2 fuel') as [first ->]; [lia|].
  destruct first as [country_codes|e]; cbn [fbind]; [|eauto].
  apply aliases_loop_returns. intros m Hm. apply (H1 fuel'); [lia|exact Hm].
Qed.

Lemma terminates_by_level :
  forall (n : nat) (c : string), level c < n -> terminates db c.
Proof.
  induction n as [|n IHlevel]; intros c Hc; [lia|].
  assert (Hmapped : forall c', level c' <= n ->
            forall m, In m (members Territory.REVERSE_MAPPING c') ->
                      terminates db m).
  { intros c' Hc' m Hm. apply IHlevel. apply level_mapped in Hm. lia. }
  assert (Hrank : forall (r : nat) (c' : string),
            rank c' < r -> level c' <= n -> terminates db c').
  { induction r as [|r IHrank]; intros c' Hr Hc'; [lia|].
    apply terminates_node; [now apply Hmapped|].
    intros Hnc s p Hs Hp.
    destruct (shaped c' s Hs) as [Hdash [Hpre Hlinked]].
    unfold parent_or_country in Hp.
    destruct (Str.truthy (parent_code s)) eqn:Ht; simpl in Hp.
    - injection Hp as <-.
      destruct (Hlinked eq_refl) as [Hpdash [Hppre Hlt]].
      apply IHrank; [lia|].
      unfold level in *. rewrite Hpdash, Hppre. now rewrite Hdash in Hc'.
    - unfold country in Hp.
      destruct (countries_get db (country_code s)) as [k|e] eqn:Hk;
        simpl in Hp; [|discriminate Hp].
      injection Hp as <-. apply countries_get_Ok in Hk.
      destruct Hk as [_ Hk]. rewrite Hk, <- Hpre.
      apply IHlevel. unfold level in *.
      rewrite has_dash_prefix. rewrite Hdash in Hc'.
      pose proof (country_level_lt_subdivision_level (prefix c')). lia. }
  apply (Hrank (S (rank c))); lia.
Qed.

End Termination.

(** C3. On a database whose codes have the shape that [pycountry] gives
    them, the recursion of [country_aliases] through the parent codes and
    through the reverse-alias index ends for every territory code: with
    enough fuel the function returns, with its set of aliases or with the
    lookup error of a code that the database does not hold. *)
Theorem country_aliases_terminates
  (db : Database) (rank : string -> nat) (territory_code : string) :
  codes_shaped db rank = true ->
  exists fuel r, Territory.country_aliases db fuel territory_code = Some r.
Proof.
  intros Hshape.
  destruct (terminates_by_level db rank Hshape
              (S (level territory_code)) territory_code (Nat.lt_succ_diag_r _))
    as [fuel H].
  destruct (H fuel (Nat.le_refl _)) as [r Hr].
  now exists fuel, r.
Qed.

Lemma country_aliases_terminates_witness :
  codes_shaped sample_db sample_rank = true
  /\ exists fuel r, Territory.country_aliases sample_db fuel "NL-BQ1" = Some r.
Proof.
  assert (H : codes_shaped sample_db sample_rank = true)
    by (vm_compute; reflexivity).
  split; [exact H|].
  exact (country_aliases_terminates sample_db sample_rank "NL-BQ1" H).
Defined.

(** ** Where [country_from_subdivision] and [territory_parents] agree *)

Lemma country_alias_keys_have_no_dash :
  forallb (fun k => negb (has_dash k))
          (keys Territory.FOREIGN_TERRITORIES_ALIAS_TO_COUNTRY
           ++ keys Territory.COUNTRY_ALIASES
           ++ keys Territory.COUNTRY_ALIAS_TO_SUBDIVISION) = true.
Proof. reflexivity. Qed.

Lemma dashed_not_country_alias (c : string) :
  has_dash c = true ->
  ~ In c (keys Territory.FOREIGN_TERRITORIES_ALIAS_TO_COUNTRY
          ++ keys Territory.COUNTRY_ALIASES
          ++ keys Territory.COUNTRY_ALIAS_TO_SUBDIVISION).
Proof.
  intros Hdash Hin. pose proof country_alias_keys_have_no_dash as H.
  rewrite forallb_forall in H. specialize (H c Hin).
  rewrite Hdash in H. discriminate H.
Qed.

Lemma resolution_dashed (c : string) :
  has_dash c = true ->
  get Territory.SUBDIVISION_ALIASES c = None ->
  resolution true false c = resolve Territory.SUBDIVISION_COUNTRIES c.
Proof.
  intros Hdash Hsa. pose proof (dashed_not_country_alias c Hdash) as Hn.
  rewrite !in_app_iff in Hn.
  assert (H1 : get Territory.FOREIGN_TERRITORIES_ALIAS_TO_COUNTRY c = None)
    by (apply get_None_keys; tauto).
  assert (H2 : get Territory.COUNTRY_ALIASES c = None)
    by (apply get_None_keys; tauto).
  unfold resolution, resolve, get_default. cbv zeta.
  rewrite H1, H2, Hsa. reflexivity.
Qed.

Lemma dashed_country_listed (db : Database) (c : string) :
  has_dash c = true ->
  mem c (Territory.supported_country_codes db) = true ->
  In c (List.map alpha_2 (countries db)).
Proof.
  intros Hdash Hmem. apply mem_In in Hmem.
  unfold Territory.supported_country_codes in Hmem.
  apply in_app_or in Hmem. destruct Hmem as [H|H]; [exact H|].
  destruct (dashed_not_country_alias c Hdash).
  rewrite !in_app_iff in *. tauto.
Qed.

Lemma countries_get_listed (db : Database) (k : string) :
  In k (List.map alpha_2 (countries db)) ->
  exists c, countries_get db k = Ok c /\ alpha_2 c = k.
Proof.
  intros Hin. destruct (countries_get db k) as [c|e] eqn:E.
  - exists c. split; [reflexivity|]. now apply countries_get_Ok in E.
  - apply countries_get_Raise in E. destruct E as [_ E].
    apply in_map_iff in Hin. destruct Hin as [c [Hc Hin]].
    destruct (E c Hin Hc).
Qed.

Section Agreement.
Variable db : Database.
Variable rank : string -> nat.
Hypothesis Hok : hierarchy_ok db rank = true.
Hypothesis Hshape : codes_shaped db rank = true.
Hypothesis Hlisted : countries_listed db = true.

(** The loop of [territory_parents] stops on a subdivision of the country of
    the subdivision it starts from. *)
Lemma parents_loop_root :
  forall (n : nat) (s : Subdivision),
    rank (code s) < n -> In s (subdivisions db) ->
    exists fuel tree root,
      In root (subdivisions db)
      /\ country_code root = country_code s
      /\ forall acc, Territory.parents_loop db fuel (code s) acc
                     = Some (Ok (acc ++ tree, code root)).
Proof.
  induction n as [|n IH]; intros s Hrank Hin; [lia|].
  pose proof (code_not_empty db rank Hok s Hin) as Hcode.
  pose proof (subdivisions_get_In db rank Hok s Hin) as Hget.
  destruct (Str.truthy (parent_code s)) eqn:Hp.
  - destruct (linked_ok db rank Hok s Hin Hp) as [Hpin [Hlt _]].
    apply in_map_iff in Hpin. destruct Hpin as [p [Hpc Hpin]].
    destruct (IH p) as [fuel [tree [root [Hroot [Hcc Hloop]]]]];
      [rewrite Hpc; lia|exact Hpin|].
    exists (S fuel), (TSubdivision s :: tree), root.
    split; [exact Hroot|]. split.
    + rewrite Hcc.
      destruct (shaped db rank Hshape (code s) s Hget) as [_ [Hpre Hlinked]].
      destruct (Hlinked Hp) as [_ [Hsame _]].
      destruct (shaped db rank Hshape (code p) p
                  (subdivisions_get_In db rank Hok p Hpin)) as [_ [Hpre' _]].
      congruence.
    + intros acc. simpl. rewrite Hcode, Hget. simpl. rewrite Hp. simpl.
      rewrite <- Hpc, Hloop, <- app_assoc. reflexivity.
  - exists 1, [TSubdivision s], s. split; [exact Hin|]. split; [reflexivity|].
    intros acc. simpl. rewrite Hcode, Hget. simpl. rewrite Hp. reflexivity.
Qed.

Lemma country_from_subdivision_agrees (s : Subdivision) :
  In s (subdivisions db) ->
  Str.upper (Str.strip (code s)) = code s ->
  get Territory.SUBDIVISION_ALIASES (code s) = None ->
  exists fuel codes,
    Territory.territory_parents_codes db fuel (code s) true = Some (Ok codes)
    /\ Territory.country_from_subdivision db (code s) = Some (last codes "").
Proof.
  intros Hin Hcanon Hsa.
  pose proof (subdivisions_get_In db rank Hok s Hin) as Hget.
  destruct (shaped db rank Hshape (code s) s Hget) as [Hdash _].
  unfold countries_listed in Hlisted. apply andb_prop in Hlisted.
  destruct Hlisted as [Hsubs Htargets].
  rewrite forallb_forall in Hsubs, Htargets.
  assert (Hnorm : Territory.normalize_territory_code db (code s) true false
                  = Ok (resolve Territory.SUBDIVISION_COUNTRIES (code s))).
  { rewrite normalize_territory_code_unfold. cbv zeta. rewrite Hcanon.
    rewrite (resolution_dashed (code s) Hdash Hsa).
    assert (Hrec : mem (code s) (Territory.supported_territory_codes db) = true).
    { apply mem_In. unfold Territory.supported_territory_codes,
        Territory.supported_subdivision_codes.
      apply in_or_app. right. now apply in_map. }
    rewrite Hrec. reflexivity. }
  unfold Territory.territory_parents_codes, Territory.territory_parents,
    Territory.country_from_subdivision.
  rewrite Hnorm. cbn [fbind]. unfold resolve, get_default.
  destruct (get Territory.SUBDIVISION_COUNTRIES (code s)) as [k|] eqn:Hsc.
  - assert (Hk : In k (List.map alpha_2 (countries db))).
    { apply mem_In, Htargets. now apply get_In_values with (k := code s). }
    assert (Hmem : mem k (Territory.supported_country_codes db) = true).
    { apply mem_In. unfold Territory.supported_country_codes.
      apply in_or_app. now left. }
    destruct (countries_get_listed db k Hk) as [c [Hc Ha]].
    rewrite Hmem, Hc. cbn [fbind]. exists 0. eexists.
    split; [reflexivity|]. simpl. now rewrite Ha.
  - destruct (mem (code s) (Territory.supported_country_codes db)) eqn:Hmem.
    + pose proof (dashed_country_listed db (code s) Hdash Hmem) as Hk.
      destruct (countries_get_listed db (code s) Hk) as [c [Hc Ha]].
      rewrite Hc. cbn [fbind]. exists 0. eexists.
      split; [reflexivity|]. simpl. now rewrite Ha.
    + destruct (parents_loop_root (S (rank (code s))) s
                  (Nat.lt_succ_diag_r _) Hin)
        as [fuel [tree [root [Hroot [Hcc Hloop]]]]].
      assert (Hk : In (country_code root) (List.map alpha_2 (countries db)))
        by (apply mem_In, Hsubs, Hroot).
      destruct (countries_get_listed db _ Hk) as [c [Hc Ha]].
      exists fuel. eexists. rewrite (Hloop []). cbn [fbind app].
      rewrite (subdivisions_get_In db rank Hok root Hroot). cbn [fbind].
      unfold country. rewrite Hc. cbn [fbind].
      split; [reflexivity|].
      rewrite Hget, map_app. cbn [List.map]. rewrite last_last.
      simpl. congruence.
Qed.

End Agreement.

(** C7: the code at the failing input, and where the two functions agree.
    On a consistent database, [country_from_subdivision] returns the code of the
    last element of [territory_parents] for every subdivision whose code is
    not a key of the subdivision aliases.  For the subdivision alias NL-BQ1
    (Bonaire) it answers the country NL of the alias, while the tree of
    [territory_parents] is the one of the resolved subdivision BQ-BO and
    ends with the country BQ, the answer of [normalize_country_code] in the
    address module. *)
Theorem country_from_subdivision_against_parents :
  (forall (db : Database) (rank : string -> nat) (s : Subdivision),
      hierarchy_ok db rank = true ->
      codes_shaped db rank = true ->
      countries_listed db = true ->
      In s (subdivisions db) ->
      Str.upper (Str.strip (code s)) = code s ->
      get Territory.SUBDIVISION_ALIASES (code s) = None ->
      exists fuel codes,
        Territory.territory_parents_codes db fuel (code s) true
        = Some (Ok codes)
        /\ Territory.country_from_subdivision db (code s)
           = Some (last codes ""))
  /\ Territory.country_from_subdivision sample_db "NL-BQ1" = Some "NL"
  /\ Territory.territory_parents_codes sample_db 1 "NL-BQ1" true
     = Some (Ok ["BQ-BO"; "BQ"])
  /\ Address.normalize_country_code sample_db (VStr "NL-BQ1") = Ok (VStr "BQ").
Proof.
  split; [|repeat split; reflexivity].
  intros db rank s Hok Hshape Hlisted.
  exact (country_from_subdivision_agrees db rank Hok Hshape Hlisted s).
Qed.

Lemma country_from_subdivision_against_parents_witness :
  exists fuel codes,
    Territory.territory_parents_codes sample_db fuel "FR-75" true
    = Some (Ok codes)
    /\ Territory.country_from_subdivision sample_db "FR-75"
       = Some (last codes "").
Proof.
  assert (Hok : hierarchy_ok sample_db sample_rank = true)
    by (vm_compute; reflexivity).
  assert (Hshape : codes_shaped sample_db sample_rank = true)
    by (vm_compute; reflexivity).
  assert (Hlisted : countries_listed sample_db = true)
    by (vm_compute; reflexivity).
  assert (Hin : In (mkSubdivision "FR-75" "Paris" "Metropolitan department"
                                  "FR-J" "FR") (subdivisions sample_db))
    by (simpl; auto).
  exact (proj1 country_from_subdivision_against_parents
               sample_db sample_rank _ Hok Hshape Hlisted Hin eq_refl eq_refl).
Defined.

(* ================================================================== *)
(** * Further properties of the territory module *)

(** ** Attachment and normalization *)

Lemma attachments_fixed :
  forallb (fun t => String.eqb (Territory.territory_attachment t) t)
          (values Territory.FOREIGN_TERRITORIES_MAPPING) = true.
Proof. vm_compute. reflexivity. Qed.

(** X1. The country to which a foreign territory is attached is attached to
    no other country: applying [territory_attachment] twice is applying it
    once. *)
Theorem territory_attachment_idempotent (country_code : string) :
  Territory.territory_attachment (Territory.territory_attachment country_code)
  = Territory.territory_attachment country_code.
Proof.
  unfold Territory.territory_attachment at 2 3. unfold get_default.
  destruct (get Territory.FOREIGN_TERRITORIES_MAPPING country_code)
    as [target|] eqn:E.
  - apply get_In_values in E. pose proof attachments_fixed as H.
    rewrite forallb_forall in H. apply String.eqb_eq. exact (H target E).
  - unfold Territory.territory_attachment, get_default. rewrite E. reflexivity.
Qed.

Lemma resolution_attached (ra : bool) (x : string) :
  resolution ra true x
  = Territory.territory_attachment (resolution ra false x).
Proof. unfold resolution. destruct ra; reflexivity. Qed.

Lemma resolution_attached_cases (ra : bool) (x : string) :
  resolution ra true x = x \/ In (resolution ra true x) attached_targets.
Proof.
  rewrite resolution_attached. unfold attached_targets.
  destruct (resolution_cases ra x) as [Hsame|Htarget].
  - rewrite Hsame. unfold Territory.territory_attachment, get_default.
    destruct (get Territory.FOREIGN_TERRITORIES_MAPPING x) as [t|] eqn:E.
    + right. apply in_or_app. right. exact (get_In_values _ _ _ _ E).
    + left. reflexivity.
  - right. apply in_or_app. left. apply in_map. exact Htarget.
Qed.

Lemma attached_targets_fixed :
  forallb
    (fun t =>
       String.eqb (Str.upper (Str.strip t)) t
       && String.eqb (resolution true true t) t
       && String.eqb (resolution false true t) t)
    attached_targets = true.
Proof. vm_compute. reflexivity. Qed.

(** X2. Normalization stays idempotent when the foreign-territory
    attachment is applied: on a database that lists the codes the tables
    lead to, the code returned for a recognized input is accepted and
    returned as it is by a second call with the same flags. *)
Theorem normalize_territory_code_attached_idempotent
  (db : Database) (territory_code : string) (resolve_aliases : bool) :
  attached_targets_supported db = true ->
  recognized db (Str.upper (Str.strip territory_code)) ->
  exists canonical,
    Territory.normalize_territory_code db territory_code resolve_aliases true
    = Ok canonical
    /\ Territory.normalize_territory_code db canonical resolve_aliases true
       = Ok canonical.
Proof.
  intros Hdb Hrec.
  set (c := Str.upper (Str.strip territory_code)) in *.
  exists (resolution resolve_aliases true c).
  apply recognized_mem in Hrec.
  split.
  - rewrite normalize_territory_code_unfold. fold c. cbv zeta.
    rewrite Hrec. reflexivity.
  - rewrite normalize_territory_code_unfold. cbv zeta.
    destruct (resolution_attached_cases resolve_aliases c) as [Hsame|Htarget].
    + rewrite Hsame. unfold c at 1 2. rewrite upper_strip_idem. fold c.
      rewrite Hrec, Hsame. reflexivity.
    + set (d := resolution resolve_aliases true c) in *.
      pose proof attached_targets_fixed as Hfix.
      rewrite forallb_forall in Hfix. specialize (Hfix d Htarget).
      apply andb_prop in Hfix. destruct Hfix as [Hfix H3].
      apply andb_prop in Hfix. destruct Hfix as [H1 H2].
      apply String.eqb_eq in H1, H2, H3.
      unfold attached_targets_supported in Hdb.
      rewrite forallb_forall in Hdb. specialize (Hdb d Htarget).
      rewrite H1, Hdb.
      destruct resolve_aliases; [rewrite H2|rewrite H3]; reflexivity.
Qed.

Lemma normalize_territory_code_attached_idempotent_witness :
  attached_targets_supported attached_db = true
  /\ recognized attached_db (Str.upper (Str.strip " hk "))
  /\ exists canonical,
       Territory.normalize_territory_code attached_db " hk " true true
       = Ok canonical
       /\ Territory.normalize_territory_code attached_db canonical true true
          = Ok canonical.
Proof.
  assert (Hdb : attached_targets_supported attached_db = true)
    by (vm_compute; reflexivity).
  assert (Hrec : recognized attached_db (Str.upper (Str.strip " hk "))).
  { vm_compute. tauto. }
  split; [exact Hdb|split; [exact Hrec|]].
  exact (normalize_territory_code_attached_idempotent
           attached_db " hk " true Hdb Hrec).
Defined.

(** X3. [normalize_territory_code] does not depend on the case of its input
    nor on the blanks around it: an input and its trimmed, upper-cased form
    get the same answer, be it a code or the error. *)
Theorem normalize_territory_code_case_insensitive
  (db : Database) (territory_code : string) (ra rf : bool) :
  Territory.normalize_territory_code
    db (Str.upper (Str.strip territory_code)) ra rf
  = Territory.normalize_territory_code db territory_code ra rf.
Proof.
  rewrite !normalize_territory_code_unfold. cbv zeta.
  rewrite upper_strip_idem. reflexivity.
Qed.

(** ** Children *)

(** X4. For a code that normalizes to a country code, one call of
    [territory_children_codes] answers, without recursion: the codes it
    returns are those of the subdivisions that the database files under
    that country, and the country code itself when it is asked for. *)
Theorem territory_children_codes_of_country
  (db : Database) (fuel : nat) (p c : string) (include_self : bool) :
  Territory.normalize_territory_code db p true false = Ok c ->
  mem c (Territory.supported_country_codes db) = true ->
  exists xs,
    Territory.territory_children_codes db (S fuel) p include_self
    = Some (Ok xs)
    /\ forall x,
         In x xs <->
         (include_self = true /\ x = c)
         \/ exists s, In s (subdivisions db) /\ code s = x
                      /\ country_code s = c.
Proof.
  intros Hnorm Hc. rewrite territory_children_codes_unfold, Hnorm.
  cbn [fbind]. unfold children_of_code. rewrite Hc. cbn [fbind].
  eexists. split; [reflexivity|]. intros x.
  assert (Hsubs : In x (set_update []
                          (List.map code
                             (filter (fun subdiv =>
                                        String.eqb (country_code subdiv) c)
                                     (subdivisions db))))
                  <-> exists s, In s (subdivisions db) /\ code s = x
                                /\ country_code s = c).
  { rewrite In_set_update, in_map_iff. split.
    - intros [[]|[s [Hx Hf]]]. apply filter_In in Hf. destruct Hf as [Hin He].
      apply String.eqb_eq in He. exists s. auto.
    - intros [s [Hin [Hx He]]]. right. exists s. split; [exact Hx|].
      apply filter_In. split; [exact Hin|]. apply String.eqb_eq. exact He. }
  destruct include_self.
  - rewrite In_set_add, Hsubs. split.
    + intros [H|H]; [right; exact H|left; auto].
    + intros [[_ H]|H]; [right; exact H|left; exact H].
  - rewrite Hsubs. split.
    + intros H. right. exact H.
    + intros [[H _]|H]; [discriminate H|exact H].
Qed.

Lemma territory_children_codes_of_country_witness :
  exists xs,
    Territory.territory_children_codes sample_db 1 "uk" true = Some (Ok xs)
    /\ forall x,
         In x xs <->
         (true = true /\ x = "GB")
         \/ exists s, In s (subdivisions sample_db) /\ code s = x
                      /\ country_code s = "GB".
Proof.
  exact (territory_children_codes_of_country sample_db 0 "uk" "GB" true
           eq_refl eq_refl).
Defined.

Lemma normalize_territory_code_raises
  (db : Database) (c : string) (ra rf : bool) (e : error) :
  Territory.normalize_territory_code db c ra rf = Raise e ->
  e = UnrecognizedTerritory (Str.upper (Str.strip c)).
Proof.
  rewrite normalize_territory_code_unfold. cbv zeta.
  destruct (mem _ (Territory.supported_territory_codes db));
    intros H; [discriminate H|injection H as <-; reflexivity].
Qed.

Lemma children_loop_raises
  (recurse : string -> bool -> option (result (list string)))
  (children : list string) (e : error) :
  forall acc,
    fold_left (children_step recurse) children (Some (Ok acc))
    = Some (Raise e) ->
    exists d, In d children /\ recurse d true = Some (Raise e).
Proof.
  induction children as [|d rest IH]; intros acc H; cbn [fold_left] in H.
  - discriminate H.
  - rewrite children_step_ok in H.
    destruct (recurse d true) as [[r|e']|] eqn:E; cbn [fbind] in H.
    + destruct (IH _ H) as [d' [Hin Hr]]. exists d'. split; [now right|exact Hr].
    + rewrite children_loop_raise in H. injection H as <-.
      exists d. split; [now left|exact E].
    + rewrite children_loop_stuck in H. discriminate H.
Qed.

(** X5. The only exception that [territory_children_codes] raises is the one
    of [normalize_territory_code], for its argument or for a code met on the
    way down: it never fails on a lookup in the database. *)
Theorem territory_children_codes_raises_unrecognized (db : Database) :
  forall (fuel : nat) (territory_code : string) (include_self : bool)
         (e : error),
    Territory.territory_children_codes db fuel territory_code include_self
    = Some (Raise e) ->
    exists c, e = UnrecognizedTerritory c.
Proof.
  induction fuel as [|fuel IH]; intros c self e H; [discriminate H|].
  rewrite territory_children_codes_unfold in H.
  destruct (Territory.normalize_territory_code db c true false)
    as [c'|e'] eqn:Hnorm; cbn [fbind] in H.
  - unfold children_of_code in H.
    destruct (mem c' (Territory.supported_country_codes db));
      [discriminate H|].
    match type of H with
    | (codes <~ ?loop ;; _) = _ =>
        destruct loop as [[codes|e'']|] eqn:Hloop; cbn [fbind] in H;
        [discriminate H| |discriminate H]
    end.
    injection H as <-.
    apply children_loop_raises in Hloop. destruct Hloop as [d [_ Hd]].
    exact (IH d true e'' Hd).
  - injection H as <-. apply normalize_territory_code_raises in Hnorm.
    eexists. exact Hnorm.
Qed.

Lemma territory_children_codes_raises_unrecognized_witness :
  exists c, UnrecognizedTerritory "ZZ-1" = UnrecognizedTerritory c.
Proof.
  exact (territory_children_codes_raises_unrecognized sample_db 1 " zz-1" false
           (UnrecognizedTerritory "ZZ-1") eq_refl).
Defined.

(** ** Parents *)

Lemma parents_loop_chain (db : Database) :
  forall (fuel : nat) (c : string) (acc tree : list territory) (last : string),
    Territory.parents_loop db fuel c acc = Some (Ok (tree, last)) ->
    exists l,
      tree = acc ++ List.map TSubdivision l
      /\ parent_chain l
      /\ (forall s, In s l -> In s (subdivisions db))
      /\ tree_start l = c.
Proof.
  induction fuel as [|fuel IH]; intros c acc tree last H.
  - simpl in H. destruct (Str.truthy c) eqn:Hc; [discriminate H|].
    simpl in H. injection H as <- <-. exists []. rewrite app_nil_r.
    split; [reflexivity|]. split; [exact I|]. split; [intros s []|].
    destruct c; [reflexivity|discriminate Hc].
  - simpl in H. destruct (Str.truthy c) eqn:Hc; simpl in H.
    2:{ injection H as <- <-. exists []. rewrite app_nil_r.
        split; [reflexivity|]. split; [exact I|]. split; [intros s []|].
        destruct c; [reflexivity|discriminate Hc]. }
    destruct (subdivisions_get db c) as [s|e] eqn:Hget; cbn [fbind] in H;
      [|discriminate H].
    apply subdivisions_get_Ok in Hget. destruct Hget as [Hin Hcode].
    destruct (Str.truthy (parent_code s)) eqn:Hp; simpl in H.
    + destruct (IH _ _ _ _ H) as [l [Htree [Hchain [Hall Hstart]]]].
      exists (s :: l). split; [|split; [|split]].
      * rewrite Htree, <- app_assoc. reflexivity.
      * simpl. split; [|exact Hchain].
        destruct l as [|p l'].
        -- simpl in Hstart. rewrite <- Hstart in Hp. discriminate Hp.
        -- simpl in Hstart. auto.
      * intros s' [<-|Hs']; [exact Hin|exact (Hall s' Hs')].
      * exact Hcode.
    + injection H as <- <-. exists [s]. split; [reflexivity|].
      split; [|split].
      * simpl. split; [|exact I].
        destruct (parent_code s); [reflexivity|discriminate Hp].
      * intros s' [<-|[]]. exact Hin.
      * exact Hcode.
Qed.

(** X6. The tree that [territory_parents] returns for a code that does not
    normalize to a country code, the country left out, is a chain of
    subdivisions of the database: it starts with the subdivision of the
    normalized code, each subdivision names the next one as its parent, and
    the last one has no parent. *)
Theorem territory_parents_chain
  (db : Database) (fuel : nat) (p c : string) (tree : list territory) :
  Territory.normalize_territory_code db p true false = Ok c ->
  mem c (Territory.supported_country_codes db) = false ->
  Territory.territory_parents db fuel p false = Some (Ok tree) ->
  exists l,
    tree = List.map TSubdivision l
    /\ parent_chain l
    /\ (forall s, In s l -> In s (subdivisions db))
    /\ tree_start l = c.
Proof.
  intros Hnorm Hc H. unfold Territory.territory_parents in H.
  rewrite Hnorm in H. cbn [fbind] in H. rewrite Hc in H.
  destruct (Territory.parents_loop db fuel c [])
    as [[[tree' last]|e]|] eqn:Hloop; cbn [fbind] in H;
    [|discriminate H|discriminate H].
  injection H as <-.
  exact (parents_loop_chain db fuel c [] tree' last Hloop).
Qed.

Lemma territory_parents_chain_witness :
  exists l,
    [TSubdivision (mkSubdivision "GB-LND" "London, City of" "City corporation"
                                 "GB-ENG" "GB");
     TSubdivision england]
    = List.map TSubdivision l
    /\ parent_chain l
    /\ (forall s, In s l -> In s (subdivisions sample_db))
    /\ tree_start l = "GB-LND".
Proof.
  assert (Hnorm : Territory.normalize_territory_code sample_db "gb-lnd" true false
                  = Ok "GB-LND") by (vm_compute; reflexivity).
  assert (Hc : mem "GB-LND" (Territory.supported_country_codes sample_db)
               = false) by (vm_compute; reflexivity).
  assert (Htree : Territory.territory_parents sample_db 2 "gb-lnd" false
                  = Some (Ok [TSubdivision
                                (mkSubdivision "GB-LND" "London, City of"
                                   "City corporation" "GB-ENG" "GB");
                              TSubdivision england]))
    by (vm_compute; reflexivity).
  exact (territory_parents_chain sample_db 2 "gb-lnd" "GB-LND" _
           Hnorm Hc Htree).
Defined.

(** X7. For a code that normalizes to a country code, [territory_parents]
    does not walk: without the country the tree is empty; with it, the tree
    is the country when the database lists it, and the call fails on the
    lookup when it does not, as for the country aliases that only the alias
    tables know. *)
Theorem territory_parents_of_country
  (db : Database) (fuel : nat) (p c : string) :
  Territory.normalize_territory_code db p true false = Ok c ->
  mem c (Territory.supported_country_codes db) = true ->
  Territory.territory_parents db fuel p false = Some (Ok [])
  /\ ((exists k, In k (countries db) /\ alpha_2 k = c
                 /\ Territory.territory_parents db fuel p true
                    = Some (Ok [TCountry k]))
      \/ ((forall k, In k (countries db) -> alpha_2 k <> c)
          /\ Territory.territory_parents db fuel p true
             = Some (Raise (KeyError c)))).
Proof.
  intros Hnorm Hc. unfold Territory.territory_parents.
  rewrite Hnorm. cbn [fbind]. rewrite Hc. split; [reflexivity|].
  destruct (countries_get db c) as [k|e] eqn:Hget; cbn [fbind].
  - left. exists k. apply countries_get_Ok in Hget. destruct Hget as [Hin Ha].
    auto.
  - right. apply countries_get_Raise in Hget. destruct Hget as [-> Hnone].
    auto.
Qed.

Lemma territory_parents_of_country_witness :
  Territory.territory_parents sample_db 0 "ac" true
  = Some (Raise (KeyError "AC")).
Proof.
  destruct (territory_parents_of_country sample_db 0 "ac" "AC" eq_refl eq_refl)
    as [_ [[k [Hin [Ha _]]]|[_ H]]]; [|exact H].
  exfalso. simpl in Hin.
  repeat (destruct Hin as [<-|Hin]; [discriminate Ha|]). exact Hin.
Defined.

(** ** The tree of the address module *)

Lemma parents_loop_territory_tree_loop (db : Database) :
  forall (fuel : nat) (c : string) (acc : list territory),
    Territory.parents_loop db fuel c acc =
    match Address.territory_tree_loop db fuel c with
    | None => None
    | Some (yielded, None, last) => Some (Ok (acc ++ yielded, last))
    | Some (_, Some e, _) => Some (Raise e)
    end.
Proof.
  induction fuel as [|fuel IH]; intros c acc; simpl.
  - destruct (Str.truthy c); simpl; [reflexivity|].
    rewrite app_nil_r. reflexivity.
  - destruct (Str.truthy c); simpl; [|rewrite app_nil_r; reflexivity].
    destruct (subdivisions_get db c) as [s|e]; cbn [fbind]; [|reflexivity].
    destruct (Str.truthy (parent_code s)); simpl; [|reflexivity].
    rewrite IH.
    destruct (Address.territory_tree_loop db fuel (parent_code s))
      as [[[yielded [e|]] last]|]; try reflexivity.
    rewrite <- app_assoc. reflexivity.
Qed.

(** X8. On a code that does not normalize to a country code,
    [territory_parents] of the territory module gives what the generator
    [territory_tree] of the address module yields for the normalized code,
    with or without the country, and fails with the exception that stops
    the generator. *)
Theorem territory_parents_is_territory_tree
  (db : Database) (fuel : nat) (p c : string) (include_country : bool) :
  Territory.normalize_territory_code db p true false = Ok c ->
  mem c (Territory.supported_country_codes db) = false ->
  Territory.territory_parents db fuel p include_country
  = collected (Address.territory_tree db fuel c include_country).
Proof.
  intros Hnorm Hc. unfold Territory.territory_parents, Address.territory_tree.
  rewrite Hnorm. cbn [fbind]. rewrite Hc.
  rewrite parents_loop_territory_tree_loop.
  destruct (Address.territory_tree_loop db fuel c)
    as [[[yielded [e|]] last]|]; cbn [fbind collected]; try reflexivity.
  destruct include_country; [|reflexivity].
  destruct (subdivisions_get db last) as [s|e]; cbn [fbind bind];
    [|reflexivity].
  destruct (country db s) as [k|e]; reflexivity.
Qed.

Lemma territory_parents_is_territory_tree_witness :
  Territory.territory_parents sample_db 2 " fr-75" true
  = collected (Address.territory_tree sample_db 2 "FR-75" true).
Proof.
  assert (Hnorm : Territory.normalize_territory_code sample_db " fr-75" true false
                  = Ok "FR-75") by (vm_compute; reflexivity).
  assert (Hc : mem "FR-75" (Territory.supported_country_codes sample_db)
               = false) by (vm_compute; reflexivity).
  exact (territory_parents_is_territory_tree sample_db 2 " fr-75" "FR-75" true
           Hnorm Hc).
Defined.

(** ** Country aliases *)

Section AliasesSound.
Variable recurse : string -> option (result (list string)).

Lemma aliases_step_ok (acc : list string) (mapped_code : string) :
  aliases_step recurse (Some (Ok acc)) mapped_code =
  (aliases <~ recurse mapped_code ;; Some (Ok (set_update acc aliases))).
Proof. reflexivity. Qed.

Lemma aliases_loop_stuck (mapped : list string) :
  fold_left (aliases_step recurse) mapped None = None.
Proof. induction mapped as [|m rest IH]; simpl; [reflexivity|exact IH]. Qed.

Lemma aliases_loop_raise (mapped : list string) (e : error) :
  fold_left (aliases_step recurse) mapped (Some (Raise e)) = Some (Raise e).
Proof. induction mapped as [|m rest IH]; simpl; [reflexivity|exact IH]. Qed.

(** What the last loop of [country_aliases] returns holds what it started
    with, and nothing but that and the aliases of the mapped codes. *)
Lemma aliases_loop_sound (mapped : list string) :
  forall acc res,
    fold_left (aliases_step recurse) mapped (Some (Ok acc)) = Some (Ok res) ->
    (forall k, In k acc -> In k res)
    /\ forall k, In k res ->
         In k acc
         \/ exists m r, In m mapped /\ recurse m = Some (Ok r) /\ In k r.
Proof.
  induction mapped as [|m rest IH]; intros acc res H; cbn [fold_left] in H.
  - injection H as <-. split; [auto|]. intros k Hk. left. exact Hk.
  - rewrite aliases_step_ok in H.
    destruct (recurse m) as [[r|e]|] eqn:E; cbn [fbind] in H.
    + destruct (IH _ _ H) as [Hmono Hsound]. split.
      * intros k Hk. apply Hmono. apply In_set_update. left. exact Hk.
      * intros k Hk. destruct (Hsound k Hk) as [Hacc|[m' [r' [Hin [Hr Hkr]]]]].
        -- apply In_set_update in Hacc. destruct Hacc as [Hacc|Hacc].
           ++ left. exact Hacc.
           ++ right. exists m, r. split; [now left|]. split; [exact E|exact Hacc].
        -- right. exists m', r'. split; [now right|]. split; [exact Hr|exact Hkr].
    + rewrite aliases_loop_raise in H. discriminate H.
    + rewrite aliases_loop_stuck in H. discriminate H.
Qed.

End AliasesSound.

(** X9. When the targets of the subdivision/country overlaps are country
    codes, every code that [country_aliases] returns is a supported country
    code. *)
Theorem country_aliases_are_country_codes (db : Database) :
  overlap_targets_supported db = true ->
  forall (fuel : nat) (territory_code : string) (aliases : list string),
    Territory.country_aliases db fuel territory_code = Some (Ok aliases) ->
    forall k, In k aliases ->
              mem k (Territory.supported_country_codes db) = true.
Proof.
  intros Htargets. unfold overlap_targets_supported in Htargets.
  rewrite forallb_forall in Htargets.
  induction fuel as [|fuel IH]; intros c aliases H k Hk; [discriminate H|].
  rewrite country_aliases_unfold in H.
  destruct (aliases_first db (Territory.country_aliases db fuel) c)
    as [[first|e]|] eqn:Hfirst; cbn [fbind] in H;
    [|discriminate H|discriminate H].
  destruct (aliases_loop_sound _ _ _ _ H) as [_ Hsound].
  destruct (Hsound k Hk) as [Hin|[m [r [_ [Hr Hkr]]]]];
    [|exact (IH m r Hr k Hkr)].
  clear H Hsound Hk. unfold aliases_first in Hfirst.
  destruct (mem c (Territory.supported_country_codes db)) eqn:Hc.
  - injection Hfirst as <-. destruct Hin as [<-|[]]. exact Hc.
  - destruct (subdivisions_get db c) as [s|e]; cbn [fbind] in Hfirst;
      [|discriminate Hfirst].
    destruct (if negb (Str.truthy (parent_code s))
              then Some (k0 <- country db s ;; Ok (alpha_2 k0))
              else Some (Ok (parent_code s))) as [[p|e]|];
      cbn [fbind] in Hfirst; [|discriminate Hfirst|discriminate Hfirst].
    destruct (Territory.country_aliases db fuel p) as [[r|e]|] eqn:Hr;
      cbn [fbind] in Hfirst; [|discriminate Hfirst|discriminate Hfirst].
    assert (Hparent : forall k', In k' (set_update [] r) ->
                        mem k' (Territory.supported_country_codes db) = true).
    { intros k' Hk'. apply In_set_update in Hk'. destruct Hk' as [[]|Hk'].
      exact (IH p r Hr k' Hk'). }
    destruct (get Territory.SUBDIVISION_COUNTRIES c) as [target|] eqn:Hsc;
      injection Hfirst as <-.
    + apply In_set_add in Hin. destruct Hin as [Hin|Hin].
      * exact (Hparent k Hin).
      * subst k. apply Htargets. exact (get_In_values _ _ _ _ Hsc).
    + exact (Hparent k Hin).
Qed.

Lemma country_aliases_are_country_codes_witness :
  overlap_targets_supported sample_db = true
  /\ mem "BQ" (Territory.supported_country_codes sample_db) = true.
Proof.
  assert (H : overlap_targets_supported sample_db = true)
    by (vm_compute; reflexivity).
  assert (Hr : Territory.country_aliases sample_db 5 "NL-BQ1"
               = Some (Ok ["NL"; "BQ"])) by (vm_compute; reflexivity).
  split; [exact H|].
  exact (country_aliases_are_country_codes sample_db H 5 "NL-BQ1" _ Hr
           "BQ" (or_intror (or_introl eq_refl))).
Defined.

(** X10. The set that [country_aliases] returns holds the code it is given
    when that code is a country code, and the country that the
    subdivision/country overlaps give to the code when it is a subdivision
    that has one. *)
Theorem country_aliases_hold_own_country
  (db : Database) (fuel : nat) (territory_code : string)
  (aliases : list string) :
  Territory.country_aliases db fuel territory_code = Some (Ok aliases) ->
  (mem territory_code (Territory.supported_country_codes db) = true ->
   In territory_code aliases)
  /\ (mem territory_code (Territory.supported_country_codes db) = false ->
      forall target,
        get Territory.SUBDIVISION_COUNTRIES territory_code = Some target ->
        In target aliases).
Proof.
  intros H. destruct fuel as [|fuel]; [discriminate H|].
  rewrite country_aliases_unfold in H.
  destruct (aliases_first db (Territory.country_aliases db fuel) territory_code)
    as [[first|e]|] eqn:Hfirst; cbn [fbind] in H;
    [|discriminate H|discriminate H].
  destruct (aliases_loop_sound _ _ _ _ H) as [Hmono _].
  unfold aliases_first in Hfirst. split.
  - intros Hc. rewrite Hc in Hfirst. injection Hfirst as <-.
    apply Hmono. now left.
  - intros Hc target Hsc. rewrite Hc in Hfirst.
    destruct (subdivisions_get db territory_code) as [s|e];
      cbn [fbind] in Hfirst; [|discriminate Hfirst].
    destruct (if negb (Str.truthy (parent_code s))
              then Some (k0 <- country db s ;; Ok (alpha_2 k0))
              else Some (Ok (parent_code s))) as [[p|e]|];
      cbn [fbind] in Hfirst; [|discriminate Hfirst|discriminate Hfirst].
    destruct (Territory.country_aliases db fuel p) as [[r|e]|];
      cbn [fbind] in Hfirst; [|discriminate Hfirst|discriminate Hfirst].
    rewrite Hsc in Hfirst. injection Hfirst as <-.
    apply Hmono. apply In_set_add. right. reflexivity.
Qed.

Lemma country_aliases_hold_own_country_witness :
  In "GF" ["FR"; "GF"].
Proof.
  assert (Hr : Territory.country_aliases sample_db 3 "FR-GF"
               = Some (Ok ["FR"; "GF"])) by (vm_compute; reflexivity).
  exact (proj2 (country_aliases_hold_own_country sample_db 3 "FR-GF" _ Hr)
               eq_refl "GF" eq_refl).
Defined.

(* ================================================================== *)
(** * Further properties of the address module *)

(** ** Normalization *)

Lemma subdivisions_get_unknown (db : Database) (c : string) :
  (forall s, In s (subdivisions db) -> code s <> c) ->
  subdivisions_get db c = Raise (KeyError c).
Proof.
  intros Hnone. destruct (subdivisions_get db c) as [s|e] eqn:E.
  - apply subdivisions_get_Ok in E. destruct E as [Hin Hc].
    destruct (Hnone s Hin Hc).
  - apply subdivisions_get_Raise in E. destruct E as [-> _]. reflexivity.
Qed.

(** X11. [normalize] does not leave an unknown subdivision code to
    [validate]: when the subdivision code of the address, once cleaned, is
    not in the database, the lookup made for the country of the subdivision
    fails and normalization raises that lookup error, even for a code that
    the overlap table knows. *)
Theorem normalize_unknown_subdivision
  (db : Database) (fuel : nat) (self prepared : Address.components)
  (c : string) :
  Address.prepare self = Ok prepared ->
  is_set prepared "subdivision_code" (VStr c) ->
  (forall s, In s (subdivisions db) -> code s <> c) ->
  Address.normalize db fuel self = Some (Raise (KeyError c)).
Proof.
  intros Hprep [Hsc Hts] Hnone. unfold Address.normalize.
  rewrite Hprep. cbn [fbind]. unfold Address.populate_metadata.
  rewrite Hsc, Hts. unfold Address.parent_metadata,
    Address.normalize_country_code, Address.subdivisions_get_value.
  rewrite (subdivisions_get_unknown db c Hnone). reflexivity.
Qed.

Lemma normalize_unknown_subdivision_witness :
  Address.init sample_db 0 [("subdivision_code", Some " cn-71")]
  = Some (Raise (KeyError "CN-71")).
Proof.
  assert (Hnone : forall s, In s (subdivisions sample_db) -> code s <> "CN-71").
  { intros s Hin. simpl in Hin.
    repeat (destruct Hin as [<-|Hin]; [discriminate|]). destruct Hin. }
  exact (normalize_unknown_subdivision sample_db 0
           [ ("line1", None); ("line2", None); ("postal_code", None);
             ("city_name", None); ("country_code", None);
             ("subdivision_code", Some (VStr " cn-71")) ]
           [ ("line1", None); ("line2", None); ("postal_code", None);
             ("city_name", None); ("country_code", None);
             ("subdivision_code", Some (VStr "CN-71")) ]
           "CN-71" eq_refl (conj eq_refl eq_refl) Hnone).
Defined.

Lemma default_subdivisions_overlap :
  forallb
    (fun k =>
       match Address.default_subdivision_code k with
       | Some s =>
           option_eqb (get Address.SUBDIVISION_COUNTRY_OVERLAPS s) (Some k)
       | None => true
       end)
    (keys Address.DEFAULT_SUBDIVISIONS) = true.
Proof. vm_compute. reflexivity. Qed.

Lemma default_subdivision_code_overlap (k s : string) :
  Address.default_subdivision_code k = Some s ->
  get Address.SUBDIVISION_COUNTRY_OVERLAPS s = Some k.
Proof.
  intros H. destruct (mem k (keys Address.DEFAULT_SUBDIVISIONS)) eqn:E.
  - apply (proj1 (mem_In _ _)) in E.
    pose proof default_subdivisions_overlap as Hall.
    rewrite forallb_forall in Hall. specialize (Hall k E).
    rewrite H in Hall. apply option_eqb_eq. exact Hall.
  - assert (Hn : get Address.DEFAULT_SUBDIVISIONS k = None).
    { apply get_None_keys. intros Hin. apply (proj2 (mem_In _ _)) in Hin.
      rewrite E in Hin. discriminate Hin. }
    unfold Address.default_subdivision_code in H. rewrite Hn in H.
    discriminate H.
Qed.

(** X12. The default subdivision of a country resolves back to that
    country: when [default_subdivision_code] guesses a subdivision for a
    country code and the database lists that subdivision,
    [normalize_country_code] of the guess is the country code. *)
Theorem default_subdivision_resolves_back
  (db : Database) (k s : string) (subdiv : Subdivision) :
  Address.default_subdivision_code k = Some s ->
  subdivisions_get db s = Ok subdiv ->
  Address.normalize_country_code db (VStr s) = Ok (VStr k).
Proof.
  intros Hdefault Hget. apply default_subdivision_code_overlap in Hdefault.
  unfold Address.normalize_country_code, Address.subdivisions_get_value.
  rewrite Hget. cbn [bind]. unfold get_default. rewrite Hdefault.
  reflexivity.
Qed.

Lemma default_subdivision_resolves_back_witness :
  Address.normalize_country_code sample_db (VStr "FR-GF") = Ok (VStr "GF").
Proof.
  exact (default_subdivision_resolves_back sample_db "GF" "FR-GF"
           (mkSubdivision "FR-GF" "Guyane" "Overseas region" "" "FR")
           eq_refl eq_refl).
Defined.

Lemma getattr_setattr (self : Address.components) (k k' : string)
  (v : option value) :
  Address.getattr (Address.setattr self k v) k' =
  if String.eqb k' k then v else Address.getattr self k'.
Proof.
  unfold Address.getattr, Address.setattr. rewrite get_set_item.
  destruct (String.eqb k' k); reflexivity.
Qed.

Lemma getattr_set_default_subdivision (self : Address.components) (k : string) :
  String.eqb k "subdivision_code" = false ->
  Address.getattr (Address.set_default_subdivision self) k
  = Address.getattr self k.
Proof.
  intros Hk. unfold Address.set_default_subdivision.
  destruct (_ && _); [|reflexivity].
  rewrite getattr_setattr, Hk. reflexivity.
Qed.

(** X13. After the first steps of [normalize] the first line is never
    blank under a second line that is not: when only the second line is
    given, it has become the first. *)
Theorem prepare_first_line (self prepared : Address.components) :
  Address.prepare self = Ok prepared ->
  Address.truthy (Address.getattr prepared "line2") = true ->
  Address.truthy (Address.getattr prepared "line1") = true.
Proof.
  unfold Address.prepare. cbv zeta.
  destruct (Address.upper_component (Address.clean_up self) "country_code")
    as [s1|e]; cbn [bind]; [|discriminate].
  destruct (Address.upper_component s1 "subdivision_code")
    as [s2|e]; cbn [bind]; [|discriminate].
  intros H. injection H as <-.
  rewrite !getattr_set_default_subdivision by reflexivity.
  unfold Address.swap_lines.
  destruct (Address.truthy (Address.getattr s2 "line2")) eqn:H2;
    destruct (Address.truthy (Address.getattr s2 "line1")) eqn:H1;
    cbn [andb negb].
  - intros _. exact H1.
  - rewrite !getattr_setattr. cbn [String.eqb Ascii.eqb Bool.eqb].
    intros _. exact H2.
  - intros H. rewrite H2 in H. discriminate H.
  - intros H. rewrite H2 in H. discriminate H.
Qed.

Lemma prepare_first_line_witness :
  Address.prepare blank_first_line
  = Ok [ ("line1", Some (VStr "4 place Jussieu")); ("line2", None);
         ("postal_code", None); ("city_name", None); ("country_code", None);
         ("subdivision_code", None) ]
  /\ Address.truthy (Address.getattr two_lines "line1") = true.
Proof.
  split; [vm_compute; reflexivity|].
  exact (prepare_first_line two_lines two_lines eq_refl eq_refl).
Defined.

(** ** The address as a map of its components *)

Lemma keys_set_item_present (V : Type) (d : dict V) (k : string) (v : V) :
  In k (keys d) -> keys (set_item d k v) = keys d.
Proof.
  induction d as [|[k0 v0] rest IH]; simpl; intros Hin.
  - destruct Hin.
  - destruct (String.eqb k k0) eqn:E; simpl; [reflexivity|].
    f_equal. apply IH. destruct Hin as [Hin|Hin]; [|exact Hin].
    subst k0. rewrite String.eqb_refl in E. discriminate E.
Qed.

Lemma getitem_set_item (self : Address.components) (k k' : string)
  (v : option value) :
  k' <> k ->
  AddressMethods.__getitem__ (set_item self k v) k'
  = AddressMethods.__getitem__ self k'.
Proof.
  intros Hk. unfold AddressMethods.__getitem__. rewrite get_set_item.
  apply String.eqb_neq in Hk. rewrite Hk. reflexivity.
Qed.

(** X14. Setting a component and reading it back: [self[key] = v] succeeds
    exactly for a component that exists, after it [self[key]] is [v], every
    other component reads as before and the component identifiers are the
    same, in the same order; for another key it raises the key error and
    adds nothing. *)
Theorem setitem_getitem
  (self : Address.components) (key : string) (v : option value) :
  (In key (keys self) ->
   exists self',
     AddressMethods.__setitem__ self key v = Ok self'
     /\ AddressMethods.__getitem__ self' key = Ok v
     /\ (forall k, k <> key ->
           AddressMethods.__getitem__ self' k = AddressMethods.__getitem__ self k)
     /\ keys self' = keys self)
  /\ (~ In key (keys self) ->
      AddressMethods.__setitem__ self key v = Raise (KeyError key)).
Proof.
  unfold AddressMethods.__setitem__. split; intros Hin.
  - apply (proj2 (mem_In _ _)) in Hin. rewrite Hin. cbn [negb].
    apply (proj1 (mem_In _ _)) in Hin.
    exists (set_item self key v). split; [reflexivity|]. split; [|split].
    + unfold AddressMethods.__getitem__. rewrite get_set_item.
      rewrite String.eqb_refl. reflexivity.
    + intros k Hk. apply getitem_set_item. exact Hk.
    + apply keys_set_item_present. exact Hin.
  - destruct (mem key (keys self)) eqn:E; [|reflexivity].
    apply (proj1 (mem_In _ _)) in E. destruct (Hin E).
Qed.

Lemma get_filter_key (V : Type) (d : dict V) (key k : string) :
  get (filter (fun item => negb (String.eqb (fst item) key)) d) k =
  if String.eqb k key then None else get d k.
Proof.
  induction d as [|[k0 v0] rest IH]; simpl.
  - destruct (String.eqb k key); reflexivity.
  - destruct (String.eqb k0 key) eqn:E0; simpl.
    + rewrite IH. destruct (String.eqb k key) eqn:E; [reflexivity|].
      destruct (String.eqb k k0) eqn:E1; [|reflexivity].
      apply String.eqb_eq in E0, E1. subst.
      rewrite String.eqb_refl in E. discriminate E.
    + rewrite IH. destruct (String.eqb k k0) eqn:E1; [|reflexivity].
      apply String.eqb_eq in E1. subst k0. rewrite E0. reflexivity.
Qed.

(** X15. Deleting a component: a base component is never removed, it reads
    [None] afterwards and the number of components of an address that holds
    it does not change; another component is removed, so that reading it
    raises the key error, and deleting it when it is absent raises the key
    error; the other components read as before. *)
Theorem delitem_getitem (self : Address.components) (key : string) :
  (In key Address.BASE_COMPONENT_IDS ->
   exists self',
     AddressMethods.__delitem__ self key = Ok self'
     /\ AddressMethods.__getitem__ self' key = Ok None
     /\ (In key (keys self) ->
         AddressMethods.__len__ self' = AddressMethods.__len__ self))
  /\ (~ In key Address.BASE_COMPONENT_IDS -> In key (keys self) ->
      exists self',
        AddressMethods.__delitem__ self key = Ok self'
        /\ AddressMethods.__getitem__ self' key = Raise (KeyError key))
  /\ (~ In key Address.BASE_COMPONENT_IDS -> ~ In key (keys self) ->
      AddressMethods.__delitem__ self key = Raise (KeyError key))
  /\ (forall self' k,
        AddressMethods.__delitem__ self key = Ok self' -> k <> key ->
        AddressMethods.__getitem__ self' k = AddressMethods.__getitem__ self k).
Proof.
  unfold AddressMethods.__delitem__.
  destruct (mem key Address.BASE_COMPONENT_IDS) eqn:Hbase.
  - apply (proj1 (mem_In _ _)) in Hbase. split; [|split; [|split]].
    + intros _. exists (set_item self key None). split; [reflexivity|]. split.
      * unfold AddressMethods.__getitem__. rewrite get_set_item.
        rewrite String.eqb_refl. reflexivity.
      * intros Hin. unfold AddressMethods.__len__.
        rewrite <- (length_map fst (set_item self key None)).
        rewrite <- (length_map fst self).
        fold (keys (set_item self key None)). fold (keys self).
        rewrite (keys_set_item_present _ self key None Hin). reflexivity.
    + intros Hn. destruct (Hn Hbase).
    + intros Hn. destruct (Hn Hbase).
    + intros self' k H Hk. injection H as <-. apply getitem_set_item. exact Hk.
  - assert (Hnb : ~ In key Address.BASE_COMPONENT_IDS).
    { intros Hin. apply (proj2 (mem_In _ _)) in Hin. rewrite Hbase in Hin.
      discriminate Hin. }
    split; [|split; [|split]].
    + intros Hin. destruct (Hnb Hin).
    + intros _ Hin. apply (proj2 (mem_In _ _)) in Hin. rewrite Hin.
      eexists. split; [reflexivity|].
      unfold AddressMethods.__getitem__. rewrite get_filter_key.
      rewrite String.eqb_refl. reflexivity.
    + intros _ Hn. destruct (mem key (keys self)) eqn:E; [|reflexivity].
      apply (proj1 (mem_In _ _)) in E. destruct (Hn E).
    + intros self' k H Hk. destruct (mem key (keys self)); [|discriminate H].
      injection H as <-. unfold AddressMethods.__getitem__.
      rewrite get_filter_key. apply String.eqb_neq in Hk. rewrite Hk.
      reflexivity.
Qed.

(** ** [valid] *)

Lemma validate_raises_value_error
  (db : Database) (fields : list string) (self : Address.components)
  (e : error) :
  Address.validate db fields self = Raise e ->
  AddressMethods.is_value_error e = true.
Proof.
  unfold Address.validate.
  destruct (check_subdivision_code_spec db self)
    as [[-> Hsub]|[s [_ [_ ->]]]]; cbn [bind];
    [|intros H; injection H as <-; reflexivity].
  destruct (check_country_code_spec db self)
    as [[-> _]|[c [_ [_ ->]]]]; cbn [bind];
    [|intros H; injection H as <-; reflexivity].
  destruct (check_consistency_spec db self Hsub)
    as [[-> _]|[c [s [n [_ [_ [_ [_ ->]]]]]]]]; cbn [bind];
    [|intros H; injection H as <-; reflexivity].
  destruct (check_required_fields_spec db self fields)
    as [[-> _]|[f [_ [_ ->]]]]; intros H; [discriminate H|].
  injection H as <-. reflexivity.
Qed.

(** X16. The property [valid] never raises: whatever the components hold,
    and in whatever order the required fields are visited, [validate] only
    fails with its own value errors (the lookup of the country of an unknown
    subdivision is never reached), so that [valid] is a boolean, true
    exactly when [validate] returns. *)
Theorem valid_never_raises
  (db : Database) (fields : list string) (self : Address.components) :
  Permutation fields Address.REQUIRED_FIELDS ->
  exists b,
    AddressMethods.valid db fields self = Ok b
    /\ (b = true <-> Address.validate db fields self = Ok tt).
Proof.
  intros _. unfold AddressMethods.valid.
  destruct (Address.validate db fields self) as [[]|e] eqn:E.
  - exists true. split; [reflexivity|]. split; reflexivity.
  - rewrite (validate_raises_value_error db fields self e E).
    exists false. split; [reflexivity|]. split; discriminate.
Qed.

Lemma valid_never_raises_witness :
  exists b,
    AddressMethods.valid sample_db Address.REQUIRED_FIELDS california = Ok b
    /\ (b = true <->
        Address.validate sample_db Address.REQUIRED_FIELDS california = Ok tt).
Proof.
  apply (valid_never_raises sample_db Address.REQUIRED_FIELDS california).
  apply Permutation_refl.
Defined.

(** ** [render] *)

Lemma strings_of_app_other (items : list (option value)) (v : option value) :
  (forall s, v <> Some (VStr s)) ->
  AddressMethods.strings_of (items ++ [v]) = None.
Proof.
  intros Hv. induction items as [|[[s|x]|] rest IH]; simpl.
  - destruct v as [[s|x]|]; try reflexivity. destruct (Hv s eq_refl).
  - rewrite IH. reflexivity.
  - reflexivity.
  - reflexivity.
Qed.

(** X17. [render] cannot print an address that holds a [state] component
    that is not a string: it joins the component with the city and fails
    with a type error.  The [state] component that [normalize] derives from
    a subdivision of type "State" is the subdivision object. *)
Theorem render_state_object
  (db : Database) (self : Address.components) (separator : string) :
  In "state" (keys self) ->
  (forall s, Address.getattr self "state" <> Some (VStr s)) ->
  AddressMethods.render db self separator = AddressMethods.RenderTypeError.
Proof.
  intros Hin Hstate. unfold AddressMethods.render. cbv zeta.
  unfold AddressMethods.hasattr. apply (proj2 (mem_In _ _)) in Hin.
  rewrite Hin. cbn [orb]. unfold AddressMethods.join.
  rewrite (strings_of_app_other _ _ Hstate). reflexivity.
Qed.

Lemma render_state_object_witness :
  Address.init sample_db 1 [("subdivision_code", Some "us-ca")]
  = Some (Ok california)
  /\ AddressMethods.render sample_db california ", "
     = AddressMethods.RenderTypeError.
Proof.
  split; [vm_compute; reflexivity|].
  apply render_state_object.
  - simpl. tauto.
  - intros s H. discriminate H.
Defined.

Lemma empty_truthy (self : Address.components) (k : string) :
  AddressMethods.empty self = true ->
  Address.truthy (Address.getattr self k) = false.
Proof.
  unfold AddressMethods.empty, Address.getattr. intros H.
  rewrite forallb_forall in H.
  destruct (get self k) as [v|] eqn:E; [|reflexivity].
  apply get_In_values in E. apply negb_true_iff. exact (H v E).
Qed.

(** X18. An empty address renders as the empty string: when every component
    is blank and there is no [state] component, [render] returns an empty
    block, whatever the separator, without consulting the database. *)
Theorem render_empty
  (db : Database) (self : Address.components) (separator : string) :
  AddressMethods.empty self = true ->
  ~ In "state" (keys self) ->
  AddressMethods.render db self separator = AddressMethods.Rendered "".
Proof.
  intros Hempty Hstate. unfold AddressMethods.render. cbv zeta.
  rewrite !(empty_truthy self _ Hempty).
  assert (Hhas : AddressMethods.hasattr self "state" = false).
  { unfold AddressMethods.hasattr.
    destruct (mem "state" (keys self)) eqn:E; [|reflexivity].
    apply (proj1 (mem_In _ _)) in E. destruct (Hstate E). }
  rewrite Hhas. cbn.
  unfold AddressMethods.country_name, AddressMethods.country.
  pose proof (empty_truthy self "country_code" Hempty) as Hcc.
  destruct (Address.getattr self "country_code") as [v|];
    [rewrite Hcc|]; reflexivity.
Qed.

Lemma render_empty_witness :
  AddressMethods.render sample_db
    [ ("line1", None); ("line2", Some (VStr "")); ("postal_code", None);
      ("city_name", None); ("country_code", None); ("subdivision_code", None) ]
    ", " = AddressMethods.Rendered "".
Proof.
  apply render_empty.
  - reflexivity.
  - simpl. intros [H|[H|[H|[H|[H|[H|[]]]]]]]; discriminate H.
Defined.

(** X19. A postal code without a city is rendered with a dangling
    separator: when the postal code is the only component that is set,
    [render] returns the postal code followed by [" - "]. *)
Theorem render_postal_code_alone
  (db : Database) (self : Address.components) (separator postal_code : string) :
  is_set self "postal_code" (VStr postal_code) ->
  absent self "line1" -> absent self "line2" -> absent self "city_name" ->
  absent self "country_code" ->
  ~ In "state" (keys self) ->
  AddressMethods.render db self separator
  = AddressMethods.Rendered (postal_code ++ " - ").
Proof.
  intros [Hp Htp] H1 H2 Hcity Hcc Hstate. unfold absent in *.
  unfold AddressMethods.render. cbv zeta.
  rewrite H1, H2, Hcity, Hp, Htp.
  assert (Hhas : AddressMethods.hasattr self "state" = false).
  { unfold AddressMethods.hasattr.
    destruct (mem "state" (keys self)) eqn:E; [|reflexivity].
    apply (proj1 (mem_In _ _)) in E. destruct (Hstate E). }
  rewrite Hhas. cbn [AddressMethods.join AddressMethods.strings_of option_map
                       Str.join app].
  assert (Hline : Str.truthy (postal_code ++ " - " ++ "") = true).
  { destruct postal_code; reflexivity. }
  rewrite Hline.
  unfold AddressMethods.country_name, AddressMethods.country.
  destruct (Address.getattr self "country_code") as [v|];
    [rewrite Hcc|]; reflexivity.
Qed.

Lemma render_postal_code_alone_witness :
  AddressMethods.render sample_db postal_code_only ", "
  = AddressMethods.Rendered "75005 - ".
Proof.
  apply (render_postal_code_alone sample_db postal_code_only ", " "75005").
  - split; reflexivity.
  - reflexivity.
  - reflexivity.
  - reflexivity.
  - reflexivity.
  - simpl. intros [H|[H|[H|[H|[H|[H|[]]]]]]]; discriminate H.
Defined.


(** ** Invariants of [normalize] *)

Lemma In_keys_delitem (self : Address.components) (key k : string) :
  In k Address.BASE_COMPONENT_IDS ->
  In k (keys self) -> In k (keys (Address.delitem self key)).
Proof.
  intros Hbase Hin. unfold Address.delitem.
  destruct (mem key Address.BASE_COMPONENT_IDS) eqn:E.
  - apply In_keys_set_item. left. exact Hin.
  - unfold keys in *. apply in_map_iff in Hin. destruct Hin as [item [Hk Hitem]].
    apply in_map_iff. exists item. split; [exact Hk|].
    apply filter_In. split; [exact Hitem|].
    apply negb_true_iff. apply String.eqb_neq. intros Heq.
    rewrite Hk in Heq. subst key.
    apply (proj2 (mem_In _ _)) in Hbase. rewrite E in Hbase. discriminate Hbase.
Qed.

Lemma In_keys_fold_delitem (k : string) (ks : list string) :
  In k Address.BASE_COMPONENT_IDS ->
  forall self : Address.components,
    In k (keys self) -> In k (keys (fold_left Address.delitem ks self)).
Proof.
  intros Hbase. induction ks as [|key rest IH]; intros self Hin.
  - exact Hin.
  - cbn [fold_left]. apply IH. apply In_keys_delitem; assumption.
Qed.

Lemma In_keys_clean_up (self : Address.components) (k : string) :
  In k Address.BASE_COMPONENT_IDS ->
  In k (keys self) -> In k (keys (Address.clean_up self)).
Proof.
  intros Hbase Hin. unfold Address.clean_up. cbv zeta.
  apply In_keys_fold_delitem; [exact Hbase|].
  unfold keys in *. rewrite map_map. cbn [fst]. exact Hin.
Qed.

Lemma In_keys_setattr (self : Address.components) (name k : string)
  (v : option value) :
  In k (keys self) -> In k (keys (Address.setattr self name v)).
Proof.
  intros Hin. unfold Address.setattr. apply In_keys_set_item. left. exact Hin.
Qed.

Lemma In_keys_upper_component
  (self self' : Address.components) (name k : string) :
  Address.upper_component self name = Ok self' ->
  In k (keys self) -> In k (keys self').
Proof.
  unfold Address.upper_component. intros H Hin.
  destruct (Address.getattr self name) as [[s|x]|].
  - destruct (Str.truthy s); injection H as <-;
      [apply In_keys_setattr|]; exact Hin.
  - discriminate H.
  - injection H as <-. exact Hin.
Qed.

Lemma In_keys_prepare (self prepared : Address.components) (k : string) :
  In k Address.BASE_COMPONENT_IDS ->
  Address.prepare self = Ok prepared ->
  In k (keys self) -> In k (keys prepared).
Proof.
  intros Hbase H Hin. unfold Address.prepare in H. cbv zeta in H.
  destruct (Address.upper_component (Address.clean_up self) "country_code")
    as [s1|e] eqn:E1; cbn [bind] in H; [|discriminate H].
  destruct (Address.upper_component s1 "subdivision_code")
    as [s2|e] eqn:E2; cbn [bind] in H; [|discriminate H].
  injection H as <-.
  assert (H2 : In k (keys s2)).
  { apply (In_keys_upper_component _ _ _ _ E2).
    apply (In_keys_upper_component _ _ _ _ E1).
    apply In_keys_clean_up; assumption. }
  assert (H3 : In k (keys (Address.swap_lines s2))).
  { unfold Address.swap_lines. destruct (_ && _); [|exact H2].
    apply In_keys_setattr. apply In_keys_setattr. exact H2. }
  unfold Address.set_default_subdivision. destruct (_ && _); [|exact H3].
  apply In_keys_setattr. exact H3.
Qed.

Lemma In_keys_populate_metadata
  (db : Database) (fuel : nat) (self self' : Address.components) (k : string) :
  Address.populate_metadata db fuel self = Some (Ok self') ->
  In k (keys self) -> In k (keys self').
Proof.
  unfold Address.populate_metadata. intros H Hin.
  destruct (Address.getattr self "subdivision_code") as [v|];
    [|injection H as <-; exact Hin].
  destruct (Address.truthy (Some v)); [|injection H as <-; exact Hin].
  destruct (Address.parent_metadata db fuel v) as [[metadata|e]|];
    cbn [fbind] in H; [|discriminate H|discriminate H].
  destruct (Address.check_overwrites db self metadata) as [[]|e];
    cbn [fbind] in H; [|discriminate H].
  injection H as <-. apply In_keys_update. left. exact Hin.
Qed.

(** X20. An address never loses a base component: the constructor refuses
    a keyword that is not a base component, and every address that it
    builds holds the six base components ([line1], [line2], [postal_code],
    [city_name], [country_code], [subdivision_code]), blank ones included,
    whatever the clean-up deleted and the metadata added. *)
Theorem init_base_components
  (db : Database) (fuel : nat) (kwargs : dict (option string)) :
  ((exists k, In k (keys kwargs) /\ ~ In k Address.BASE_COMPONENT_IDS) ->
   Address.init db fuel kwargs = Some (Raise UnknownComponent))
  /\ (forall self,
        Address.init db fuel kwargs = Some (Ok self) ->
        (forall k, In k (keys kwargs) -> In k Address.BASE_COMPONENT_IDS)
        /\ (forall k, In k Address.BASE_COMPONENT_IDS -> In k (keys self))).
Proof.
  unfold Address.init. cbv zeta.
  set (unknown := Address.difference (keys kwargs) Address.BASE_COMPONENT_IDS).
  assert (Hunknown : forall k,
             In k unknown <->
             In k (keys kwargs) /\ ~ In k Address.BASE_COMPONENT_IDS).
  { intros k. unfold unknown, Address.difference. rewrite filter_In.
    split; intros [H1 H2]; (split; [exact H1|]).
    - intros Hin. apply (proj2 (mem_In _ _)) in Hin. rewrite Hin in H2.
      discriminate H2.
    - destruct (mem k Address.BASE_COMPONENT_IDS) eqn:E; [|reflexivity].
      apply (proj1 (mem_In _ _)) in E. destruct (H2 E). }
  split.
  - intros [k Hk]. apply Hunknown in Hk.
    destruct unknown as [|k0 rest]; [destruct Hk|reflexivity].
  - intros self H. destruct unknown as [|k0 rest] eqn:Eu;
      [|discriminate H]. cbn [List.length Nat.eqb negb] in H. split.
    + intros k Hin.
      destruct (mem k Address.BASE_COMPONENT_IDS) eqn:E;
        [apply (proj1 (mem_In _ _)); exact E|].
      assert (Hk : In k (@nil string)).
      { apply Hunknown. split; [exact Hin|]. intros Hb.
        apply (proj2 (mem_In _ _)) in Hb. rewrite E in Hb. discriminate Hb. }
      destruct Hk.
    + intros k Hbase. unfold Address.normalize in H.
      match type of H with
      | fbind (Some (Address.prepare ?s)) _ = _ =>
          assert (Hstart : In k (keys s));
          [|destruct (Address.prepare s) as [prepared|e] eqn:Ep;
            cbn [fbind] in H; [|discriminate H]]
      end.
      * apply In_keys_update. left. unfold keys. rewrite map_map. cbn [fst].
        rewrite map_id. exact Hbase.
      * apply (In_keys_populate_metadata _ _ _ _ _ H).
        apply (In_keys_prepare _ _ _ Hbase Ep). exact Hstart.
Qed.

Lemma init_base_components_witness :
  Address.init sample_db 1 [("state", Some "California")]
  = Some (Raise UnknownComponent)
  /\ forall k, In k Address.BASE_COMPONENT_IDS -> In k (keys california).
Proof.
  split.
  - apply (proj1 (init_base_components sample_db 1
                    [("state", Some "California")])).
    exists "state". split; [left; reflexivity|].
    intros Hin.
    repeat (destruct Hin as [Hin|Hin]; [discriminate Hin|]). destruct Hin.
  - assert (H : Address.init sample_db 1 [("subdivision_code", Some "us-ca")]
                = Some (Ok california)) by (vm_compute; reflexivity).
    exact (proj2 (proj2 (init_base_components sample_db 1
                           [("subdivision_code", Some "us-ca")])
                    california H)).
Defined.

Lemma In_values_set_item (V : Type) (d : dict V) (k : string) (v v' : V) :
  In v' (values (set_item d k v)) -> v' = v \/ In v' (values d).
Proof.
  induction d as [|[k0 v0] rest IH]; simpl.
  - intros [H|[]]. left. symmetry. exact H.
  - destruct (String.eqb k k0); simpl.
    + intros [H|H]; [left; symmetry; exact H|right; right; exact H].
    + intros [H|H]; [right; left; exact H|].
      destruct (IH H) as [H'|H']; [left; exact H'|right; right; exact H'].
Qed.

Lemma stripped_delitem (self : Address.components) (key : string) :
  (forall v, In v (values self) -> stripped v) ->
  forall v, In v (values (Address.delitem self key)) -> stripped v.
Proof.
  intros Hall v Hin. unfold Address.delitem in Hin.
  destruct (mem key Address.BASE_COMPONENT_IDS).
  - apply In_values_set_item in Hin. destruct Hin as [->|Hin].
    + intros s Hs. discriminate Hs.
    + exact (Hall v Hin).
  - apply Hall. unfold values in *. apply in_map_iff in Hin.
    destruct Hin as [item [Hv Hitem]]. apply filter_In in Hitem.
    apply in_map_iff. exists item. split; [exact Hv|exact (proj1 Hitem)].
Qed.

Lemma stripped_fold_delitem (ks : list string) :
  forall self : Address.components,
    (forall v, In v (values self) -> stripped v) ->
    forall v, In v (values (fold_left Address.delitem ks self)) -> stripped v.
Proof.
  induction ks as [|key rest IH]; intros self Hall.
  - exact Hall.
  - cbn [fold_left]. apply IH. apply stripped_delitem. exact Hall.
Qed.

Lemma stripped_clean_up (self : Address.components) (k : string) :
  stripped (Address.getattr (Address.clean_up self) k).
Proof.
  assert (Hall : forall v, In v (values (Address.clean_up self)) -> stripped v).
  { unfold Address.clean_up. cbv zeta. apply stripped_fold_delitem.
    intros v Hin. unfold values in Hin. rewrite map_map in Hin. cbn [snd] in Hin.
    apply in_map_iff in Hin. destruct Hin as [[k0 v0] [<- _]]. cbn [snd].
    intros s Hs. destruct v0 as [[s0|x]|]; cbn [Address.strip_value] in Hs;
      [|discriminate Hs|discriminate Hs].
    injection Hs as <-. apply strip_idem. }
  unfold Address.getattr.
  destruct (get (Address.clean_up self) k) as [v|] eqn:E.
  - apply Hall. exact (get_In_values _ _ _ _ E).
  - intros s Hs. discriminate Hs.
Qed.

Lemma upper_component_canonical
  (self self' : Address.components) (name code : string) :
  stripped (Address.getattr self name) ->
  Address.upper_component self name = Ok self' ->
  is_set self' name (VStr code) ->
  Str.upper (Str.strip code) = code.
Proof.
  unfold Address.upper_component. intros Hs H [Hget Htruthy].
  destruct (Address.getattr self name) as [[s|x]|] eqn:E.
  - destruct (Str.truthy s) eqn:Et; injection H as <-.
    + rewrite getattr_setattr, String.eqb_refl in Hget.
      injection Hget as <-. rewrite strip_upper, (Hs s eq_refl).
      apply upper_idem.
    + rewrite E in Hget. injection Hget as <-.
      cbn [Address.truthy] in Htruthy. rewrite Et in Htruthy.
      discriminate Htruthy.
  - discriminate H.
  - injection H as <-. rewrite E in Hget. discriminate Hget.
Qed.

Lemma getattr_upper_component
  (self self' : Address.components) (name k : string) :
  Address.upper_component self name = Ok self' ->
  String.eqb k name = false ->
  Address.getattr self' k = Address.getattr self k.
Proof.
  unfold Address.upper_component. intros H Hk.
  destruct (Address.getattr self name) as [[s|x]|].
  - destruct (Str.truthy s); injection H as <-; [|reflexivity].
    rewrite getattr_setattr, Hk. reflexivity.
  - discriminate H.
  - injection H as <-. reflexivity.
Qed.

Lemma getattr_swap_lines (self : Address.components) (k : string) :
  String.eqb k "line1" = false -> String.eqb k "line2" = false ->
  Address.getattr (Address.swap_lines self) k = Address.getattr self k.
Proof.
  intros H1 H2. unfold Address.swap_lines. destruct (_ && _); [|reflexivity].
  rewrite !getattr_setattr, H1, H2. reflexivity.
Qed.

Lemma default_subdivisions_canonical :
  forallb
    (fun k =>
       match Address.default_subdivision_code k with
       | Some s => String.eqb (Str.upper (Str.strip s)) s
       | None => true
       end)
    (keys Address.DEFAULT_SUBDIVISIONS) = true.
Proof. vm_compute. reflexivity. Qed.

Lemma default_subdivision_code_canonical (k s : string) :
  Address.default_subdivision_code k = Some s ->
  Str.upper (Str.strip s) = s.
Proof.
  intros H. destruct (mem k (keys Address.DEFAULT_SUBDIVISIONS)) eqn:E.
  - apply (proj1 (mem_In _ _)) in E.
    pose proof default_subdivisions_canonical as Hall.
    rewrite forallb_forall in Hall. specialize (Hall k E).
    rewrite H in Hall. apply String.eqb_eq. exact Hall.
  - assert (Hn : get Address.DEFAULT_SUBDIVISIONS k = None).
    { apply get_None_keys. intros Hin. apply (proj2 (mem_In _ _)) in Hin.
      rewrite E in Hin. discriminate Hin. }
    unfold Address.default_subdivision_code in H. rewrite Hn in H.
    discriminate H.
Qed.

(** X21. After the first steps of [normalize] the two ISO codes are in
    canonical form: a country code or a subdivision code that is set, the
    subdivision guessed from the country included, is trimmed and
    upper-case, that is, unchanged by the trimming and upper-casing that
    every lookup of the territory module starts with. *)
Theorem prepare_codes_canonical
  (self prepared : Address.components) (field code : string) :
  Address.prepare self = Ok prepared ->
  field = "country_code" \/ field = "subdivision_code" ->
  is_set prepared field (VStr code) ->
  Str.upper (Str.strip code) = code.
Proof.
  intros H Hfield Hset. unfold Address.prepare in H. cbv zeta in H.
  destruct (Address.upper_component (Address.clean_up self) "country_code")
    as [s1|e] eqn:E1; cbn [bind] in H; [|discriminate H].
  destruct (Address.upper_component s1 "subdivision_code")
    as [s2|e] eqn:E2; cbn [bind] in H; [|discriminate H].
  injection H as <-. destruct Hset as [Hget Htruthy].
  destruct Hfield as [->| ->].
  - rewrite getattr_set_default_subdivision in Hget by reflexivity.
    rewrite getattr_swap_lines in Hget by reflexivity.
    rewrite (getattr_upper_component _ _ _ "country_code" E2) in Hget
      by reflexivity.
    apply (upper_component_canonical _ _ _ _
             (stripped_clean_up self "country_code") E1).
    split; [exact Hget|exact Htruthy].
  - assert (Hs1 : stripped (Address.getattr s1 "subdivision_code")).
    { rewrite (getattr_upper_component _ _ _ "subdivision_code" E1)
        by reflexivity.
      apply stripped_clean_up. }
    unfold Address.set_default_subdivision in Hget.
    destruct (_ && _) in Hget.
    + rewrite getattr_setattr, String.eqb_refl in Hget.
      destruct (Address.getattr (Address.swap_lines s2) "country_code")
        as [[c|x]|]; [|discriminate Hget|discriminate Hget].
      destruct (Address.default_subdivision_code c) as [s|] eqn:Ed;
        [|discriminate Hget].
      injection Hget as <-.
      exact (default_subdivision_code_canonical c s Ed).
    + rewrite getattr_swap_lines in Hget by reflexivity.
      apply (upper_component_canonical _ _ _ _ Hs1 E2).
      split; [exact Hget|exact Htruthy].
Qed.

Lemma prepare_codes_canonical_witness :
  Address.prepare
    [ ("line1", None); ("line2", None); ("postal_code", None);
      ("city_name", None); ("country_code", Some (VStr " gf "));
      ("subdivision_code", None) ]
  = Ok [ ("line1", None); ("line2", None); ("postal_code", None);
         ("city_name", None); ("country_code", Some (VStr "GF"));
         ("subdivision_code", Some (VStr "FR-GF")) ]
  /\ Str.upper (Str.strip "FR-GF") = "FR-GF".
Proof.
  assert (H : Address.prepare
    [ ("line1", None); ("line2", None); ("postal_code", None);
      ("city_name", None); ("country_code", Some (VStr " gf "));
      ("subdivision_code", None) ]
  = Ok [ ("line1", None); ("line2", None); ("postal_code", None);
         ("city_name", None); ("country_code", Some (VStr "GF"));
         ("subdivision_code", Some (VStr "FR-GF")) ])
    by (vm_compute; reflexivity).
  split; [exact H|].
  apply (prepare_codes_canonical _ _ "subdivision_code" "FR-GF" H).
  - right. reflexivity.
  - split; reflexivity.
Defined.
